(** * PVRename: a shallow embedding of [pvrename.py]

    The development follows the source file top to bottom: the text
    helpers the program takes from [str] (strip, replace, upper,
    lower), the two-column table reader [read_conv_file], the case
    converter of [convert_case], the ignore-file loader, file discovery
    over an in-memory directory tree, and the rename pass.

    Text is modelled as [string] (one [ascii] per character); the
    character-level functions agree with Python's on 7-bit text, which
    is the alphabet of record names and of the tables the tool reads. *)

From Stdlib Require Import String Ascii List Bool Arith ZArith Lia Permutation.
From Stdlib Require Import Sorted.
Import ListNotations.
Set Warnings "-register-all".
Open Scope string_scope.
Open Scope list_scope.

(** ** Exceptions and results *)

Inductive exn : Type :=
| ValueError            (* tuple unpacking of the wrong arity *)
| NotImplementedError
| OSError               (* IOError, FileNotFoundError, IsADirectoryError *)
| ReError.              (* re.error raised by re.compile *)

Inductive result (A : Type) : Type :=
| Ok (a : A)
| Raise (e : exn).
Arguments Ok {A} a.
Arguments Raise {A} e.

Definition is_ok {A} (r : result A) : bool :=
  match r with Ok _ => true | Raise _ => false end.

(** ** Characters and [str] methods *)

Module Str.

Definition code (c : ascii) : nat := nat_of_ascii c.

(** [str.isspace] on 7-bit characters: TAB, LF, VT, FF, CR, the four
    separators 0x1c-0x1f and the blank.  [str.strip] and the regular
    expression class [\s] use the same set. *)
Definition is_space (c : ascii) : bool :=
  let n := code c in
  (Nat.leb 9 n && Nat.leb n 13) || (Nat.leb 28 n && Nat.leb n 32).

Definition newline : ascii := ascii_of_nat 10.

Definition is_upper (c : ascii) : bool :=
  let n := code c in Nat.leb 65 n && Nat.leb n 90.

Definition is_lower (c : ascii) : bool :=
  let n := code c in Nat.leb 97 n && Nat.leb n 122.

(** [c.upper()] and [c.lower()] for a one-character string. *)
Definition upper (c : ascii) : ascii :=
  if is_lower c then ascii_of_nat (code c - 32) else c.

Definition lower (c : ascii) : ascii :=
  if is_upper c then ascii_of_nat (code c + 32) else c.

Fixpoint lstrip (s : string) : string :=
  match s with
  | EmptyString => EmptyString
  | String c s' => if is_space c then lstrip s' else s
  end.

Fixpoint rstrip (s : string) : string :=
  match s with
  | EmptyString => EmptyString
  | String c s' =>
      match rstrip s' with
      | EmptyString => if is_space c then EmptyString else String c EmptyString
      | r => String c r
      end
  end.

(** [s.strip()] *)
Definition strip (s : string) : string := rstrip (lstrip s).

(** [s.startswith(p)] *)
Definition startswith (s p : string) : bool := String.prefix p s.

(** [p in s] for strings: [p] occurs somewhere in [s]. *)
Fixpoint occurs (p s : string) : bool :=
  String.prefix p s ||
  match s with
  | EmptyString => false
  | String _ s' => occurs p s'
  end.

(** [c in s] for a one-character [c]. *)
Fixpoint mem_char (c : ascii) (s : string) : bool :=
  match s with
  | EmptyString => false
  | String d s' => Ascii.eqb c d || mem_char c s'
  end.

(** The scan of [s.replace(old, new)] for a non-empty [old]: [skip]
    counts the characters of a match that are still to be passed over,
    so that occurrences are taken left to right without overlap. *)
Fixpoint replace_scan (old new s : string) (skip : nat) : string :=
  match s with
  | EmptyString => EmptyString
  | String c s' =>
      match skip with
      | S k => replace_scan old new s' k
      | O =>
          if String.prefix old s
          then new ++ replace_scan old new s' (String.length old - 1)
          else String c (replace_scan old new s' 0)
      end
  end.

(** With an empty [old], Python puts [new] before every character and
    at the end. *)
Fixpoint interleave (new s : string) : string :=
  match s with
  | EmptyString => new
  | String c s' => new ++ String c (interleave new s')
  end.

(** [s.replace(old, new)] *)
Definition replace (s old new : string) : string :=
  match old with
  | EmptyString => interleave new s
  | String _ _ => replace_scan old new s 0
  end.

(** [open(fn).readlines()] on the text of the file: the lines keep
    their newline, and a last line without one is a line too. *)
Fixpoint readlines (s : string) : list string :=
  match s with
  | EmptyString => []
  | String c s' =>
      if Ascii.eqb c newline then String c EmptyString :: readlines s'
      else match readlines s' with
           | [] => [String c EmptyString]
           | l :: ls => String c l :: ls
           end
  end.

End Str.

(** ** Module constants *)

Definition DEFAULT_EXT : list string :=
  [".db"; ".opi"; ".edl"; ".adl"; ".cmd"; ".template";
   ".proto"; ".protocol"; ".sub"; ".substitutions"].
Definition DEF_CAPS_DELIM : string := ":)".
Definition DEF_DELIM : string := "_".

(** ** [read_conv_file]

    A line of the table is either the empty tuple that stands for a
    blank line ([None]) or a pair [(from_, to)]. *)

Definition conv_line : Type := option (string * string).

(** [line_re.match(line)].  The pattern [line_re] is: start of line, a
    greedy group of any characters, one or more whitespace characters
    ([\s+]), a second group of any characters, end of line.  The first
    group is greedy, so it ends just before the last whitespace
    character of the line, [\s+] takes that one character and the second
    group the rest.  [None] when the line holds no whitespace. *)
Fixpoint line_re_match (line : string) : option (string * string) :=
  match line with
  | EmptyString => None
  | String c s' =>
      match line_re_match s' with
      | Some (a, b) => Some (String c a, b)
      | None => if Str.is_space c then Some (EmptyString, s') else None
      end
  end.

Definition conv_of_line (raw : string) : conv_line :=
  let line := Str.strip raw in
  match line with
  | EmptyString => None
  | _ =>
      match line_re_match line with
      | Some (from_, to) => Some (from_, to)
      | None => Some (line, line)
      end
  end.

(** [list(read_conv_file(fn))] on the text of [fn]. *)
Definition read_conv_lines (text : string) : list conv_line :=
  map conv_of_line (Str.readlines text).

(** ** [convert_case]: the case converter *)

Module Conv.

(** [c in delims] where [delims] is a list of strings. *)
Definition in_delims (c : ascii) (delims : list string) : bool :=
  existsb (String.eqb (String c EmptyString)) delims.

Record cstate : Type := mk_cstate {
  in_macro : bool;
  last_delim : bool;
  ret : list ascii          (* in reverse order of the appends *)
}.

(** One iteration of the [for c in s] loop of [to_camel]. *)
Definition camel_step (delims : list string) (caps_delim : string)
           (st : cstate) (c : ascii) : cstate :=
  if in_macro st then
    if Ascii.eqb c ")"%char then
      mk_cstate false
                (if Str.mem_char c caps_delim then true else last_delim st)
                (c :: ret st)
    else mk_cstate true (last_delim st) (c :: ret st)
  else if Ascii.eqb c "$"%char then
    mk_cstate true (last_delim st) (c :: ret st)
  else if in_delims c delims then
    mk_cstate false true (ret st)
  else if Str.mem_char c caps_delim then
    mk_cstate false true (c :: ret st)
  else if last_delim st then
    mk_cstate false false (Str.upper c :: ret st)
  else
    mk_cstate false (last_delim st) (Str.lower c :: ret st).

Fixpoint camel_loop (delims : list string) (caps_delim : string)
         (st : cstate) (s : string) : cstate :=
  match s with
  | EmptyString => st
  | String c s' => camel_loop delims caps_delim (camel_step delims caps_delim st c) s'
  end.

(** [''.join(ret)] *)
Definition join_chars (l : list ascii) : string :=
  fold_left (fun acc c => String c acc) l EmptyString.

(** The loop of [to_camel] started from given flags. *)
Definition camel_from (in_macro0 last_delim0 : bool)
           (delims : list string) (caps_delim : string) (s : string) : string :=
  join_chars (ret (camel_loop delims caps_delim
                              (mk_cstate in_macro0 last_delim0 []) s)).

(** [to_camel]: both flags start false. *)
Definition to_camel (delims : list string) (caps_delim : string) (s : string) : string :=
  camel_from false false delims caps_delim s.

(** [to_caps] *)
Definition to_caps (s : string) : result string := Raise NotImplementedError.

(** [if not delims: delims = ['_']] *)
Definition effective_delims (delims : list string) : list string :=
  match delims with
  | [] => ["_"]
  | _ => delims
  end.

Definition tab : string := String (ascii_of_nat 9) EmptyString.

(** The body of [convert_case] after the table is read: the printed
    lines so far, and how the loop ended. *)
Fixpoint convert_lines (camel : bool) (delims : list string) (caps_delim : string)
         (lines : list conv_line) (printed : list string)
  : list string * result unit :=
  match lines with
  | [] => (printed, Ok tt)
  | None :: rest =>
      convert_lines camel delims caps_delim rest (printed ++ [EmptyString])
  | Some (from_, to) :: rest =>
      let conv :=
        if String.eqb from_ to then
          if camel then Ok (to_camel delims caps_delim to) else to_caps to
        else Ok to in
      match conv with
      | Ok to' =>
          convert_lines camel delims caps_delim rest
                        (printed ++ [(from_ ++ tab ++ to')%string])
      | Raise e => (printed, Raise e)
      end
  end.

Definition convert_case_text (text : string) (camel : bool) (delims : list string)
           (caps_delim : string) : list string * result unit :=
  convert_lines camel (effective_delims delims) caps_delim (read_conv_lines text) [].

End Conv.

(** ** The file system

    A directory tree: a file holds its text as [read()] decodes it, a
    directory its entries in the order the operating system lists them.
    Symbolic links and permissions are not modelled. *)

Module FS.

Inductive node : Type :=
| File (text : string)
| Dir (entries : list (string * node)).

Fixpoint child (name : string) (es : list (string * node)) : option node :=
  match es with
  | [] => None
  | (n, m) :: es' => if String.eqb n name then Some m else child name es'
  end.

Fixpoint set_child (name : string) (m : node) (es : list (string * node))
  : list (string * node) :=
  match es with
  | [] => [(name, m)]
  | (n, m0) :: es' =>
      if String.eqb n name then (n, m) :: es' else (n, m0) :: set_child name m es'
  end.

(** The node at an absolute path given by its components. *)
Fixpoint lookup (n : node) (p : list string) : option node :=
  match p with
  | [] => Some n
  | c :: p' =>
      match n with
      | Dir es => match child c es with
                  | Some m => lookup m p'
                  | None => None
                  end
      | File _ => None
      end
  end.

(** Store [text] in the file at [p]: an existing file is truncated and
    rewritten, a missing one is created in its (existing) directory, a
    directory is refused. *)
Fixpoint put (n : node) (p : list string) (text : string) : option node :=
  match p with
  | [] => match n with
          | File _ => Some (File text)
          | Dir _ => None
          end
  | c :: p' =>
      match n with
      | File _ => None
      | Dir es =>
          match child c es with
          | Some m => match put m p' text with
                      | Some m' => Some (Dir (set_child c m' es))
                      | None => None
                      end
          | None => match p' with
                    | [] => Some (Dir (set_child c (File text) es))
                    | _ :: _ => None
                    end
          end
      end
  end.

(** Whether a place is missing, a file or a directory. *)
Definition kind (o : option node) : option bool :=
  match o with
  | None => None
  | Some (File _) => Some false
  | Some (Dir _) => Some true
  end.

Definition is_dir (o : option node) : bool :=
  match o with Some (Dir _) => true | _ => false end.

Definition is_some {A} (o : option A) : bool :=
  match o with Some _ => true | None => false end.

Definition slash : ascii := "/"%char.

(** [s.split('/')] *)
Fixpoint split_slash (s : string) : list string :=
  match s with
  | EmptyString => [EmptyString]
  | String c s' =>
      if Ascii.eqb c slash then EmptyString :: split_slash s'
      else match split_slash s' with
           | [] => [String c EmptyString]
           | h :: t => String c h :: t
           end
  end.

(** [os.path.isabs] *)
Definition isabs (s : string) : bool :=
  match s with
  | String c _ => Ascii.eqb c slash
  | EmptyString => false
  end.

Fixpoint endswith_slash (s : string) : bool :=
  match s with
  | EmptyString => false
  | String c EmptyString => Ascii.eqb c slash
  | String _ s' => endswith_slash s'
  end.

(** [os.path.join(a, b)] (posixpath) *)
Definition os_path_join (a b : string) : string :=
  if isabs b then b
  else match a with
       | EmptyString => b
       | _ => if endswith_slash a then (a ++ b)%string
              else (a ++ String slash b)%string
       end.

(** One component of the kernel's path walk: the walk is at the
    directory [cur] and moves by the component [c]. *)
Definition step (root : node) (cur : option (list string)) (c : string)
  : option (list string) :=
  match cur with
  | None => None
  | Some p =>
      if is_dir (lookup root p) then
        if String.eqb c "" || String.eqb c "." then Some p
        else if String.eqb c ".." then Some (removelast p)
        else if is_some (lookup root (p ++ [c])) then Some (p ++ [c])
        else None
      else None
  end.

Definition start_dir (cwd : list string) (s : string) : list string :=
  if isabs s then [] else cwd.

(** The absolute location a path string names, when it names one. *)
Definition resolve (root : node) (cwd : list string) (s : string)
  : option (list string) :=
  match s with
  | EmptyString => None
  | _ => fold_left (step root) (split_slash s) (Some (start_dir cwd s))
  end.

(** The node a path string names. *)
Definition stat (root : node) (cwd : list string) (s : string) : option node :=
  match resolve root cwd s with
  | Some p => lookup root p
  | None => None
  end.

(** [os.path.exists] *)
Definition exists_ (root : node) (cwd : list string) (s : string) : bool :=
  is_some (stat root cwd s).

(** [open(s, 'rt').read()] *)
Definition read (root : node) (cwd : list string) (s : string) : result string :=
  match stat root cwd s with
  | Some (File text) => Ok text
  | _ => Raise OSError
  end.

Definition plain_name (c : string) : bool :=
  negb (String.eqb c "" || String.eqb c "." || String.eqb c "..").

(** [open(s, 'wt').write(text)] *)
Definition write (root : node) (cwd : list string) (s text : string) : result node :=
  match resolve root cwd s with
  | Some p =>
      match lookup root p with
      | Some (File _) =>
          match put root p text with
          | Some root' => Ok root'
          | None => Raise OSError
          end
      | _ => Raise OSError
      end
  | None =>
      match s with
      | EmptyString => Raise OSError
      | _ =>
          let comps := split_slash s in
          let name := last comps EmptyString in
          match fold_left (step root) (removelast comps) (Some (start_dir cwd s)) with
          | Some p =>
              if is_dir (lookup root p) && plain_name name then
                match put root (p ++ [name]) text with
                | Some root' => Ok root'
                | None => Raise OSError
                end
              else Raise OSError
          | None => Raise OSError
          end
      end
  end.

(** ['/'.join(comps)] *)
Fixpoint join_slash (comps : list string) : string :=
  match comps with
  | [] => EmptyString
  | [c] => c
  | c :: cs => (c ++ String slash (join_slash cs))%string
  end.

(** The loop of [os.path.normpath]; [acc] is [new_comps] in reverse. *)
Fixpoint norm_comps (initial_slashes : nat) (comps acc : list string) : list string :=
  match comps with
  | [] => rev acc
  | comp :: rest =>
      if String.eqb comp "" || String.eqb comp "." then
        norm_comps initial_slashes rest acc
      else if negb (String.eqb comp "..")
              || (Nat.eqb initial_slashes 0 && match acc with [] => true | _ => false end)
              || match acc with top :: _ => String.eqb top ".." | [] => false end
      then norm_comps initial_slashes rest (comp :: acc)
      else match acc with
           | _ :: acc' => norm_comps initial_slashes rest acc'
           | [] => norm_comps initial_slashes rest acc
           end
  end.

Definition initial_slashes (s : string) : nat :=
  match s with
  | String a (String b (String c _)) =>
      if Ascii.eqb a slash then
        if Ascii.eqb b slash && negb (Ascii.eqb c slash) then 2 else 1
      else 0
  | String a (String b EmptyString) =>
      if Ascii.eqb a slash then if Ascii.eqb b slash then 2 else 1 else 0
  | String a EmptyString => if Ascii.eqb a slash then 1 else 0
  | EmptyString => 0
  end.

Fixpoint slashes (n : nat) : string :=
  match n with
  | O => EmptyString
  | S k => String slash (slashes k)
  end.

(** [os.path.normpath] *)
Definition normpath (s : string) : string :=
  match s with
  | EmptyString => "."
  | _ =>
      let i := initial_slashes s in
      match (slashes i ++ join_slash (norm_comps i (split_slash s) []))%string with
      | EmptyString => "."
      | r => r
      end
  end.

(** [os.getcwd()] *)
Definition getcwd (cwd : list string) : string :=
  String slash (join_slash cwd).

(** [os.path.abspath] *)
Definition abspath (cwd : list string) (s : string) : string :=
  normpath (if isabs s then s else os_path_join (getcwd cwd) s).

(** The two lists [os.walk] makes of the entries of a directory. *)
Definition dirnames (es : list (string * node)) : list string :=
  map fst (filter (fun e => match snd e with Dir _ => true | File _ => false end) es).

Definition filenames (es : list (string * node)) : list string :=
  map fst (filter (fun e => match snd e with Dir _ => false | File _ => true end) es).

(** [os.walk(top)] below a node already located: the triples
    [(dirpath, dirnames, filenames)], top-down.  A [top] that is no
    directory yields nothing, the error of listing it being dropped
    ([onerror] is not given).  The entries of a sub-directory are taken
    from the tree, which is what listing its joined path finds. *)
Fixpoint walk_node (top : string) (n : node) : list (string * list string * list string) :=
  match n with
  | File _ => []
  | Dir es =>
      (top, dirnames es, filenames es) ::
      flat_map (fun e : string * node =>
                  match snd e with
                  | Dir _ => walk_node (os_path_join top (fst e)) (snd e)
                  | File _ => []
                  end) es
  end.

(** [os.walk(top)] *)
Definition walk (root : node) (cwd : list string) (top : string)
  : list (string * list string * list string) :=
  match stat root cwd top with
  | Some n => walk_node top n
  | None => []
  end.

(** The paths of the files below a directory, each file of the tree
    once, entry by entry and depth first: the reference against which
    the traversal is measured. *)
Fixpoint files_under (top : string) (n : node) : list string :=
  match n with
  | File _ => []
  | Dir es =>
      flat_map (fun e : string * node =>
                  match snd e with
                  | Dir _ => files_under (os_path_join top (fst e)) (snd e)
                  | File _ => [os_path_join top (fst e)]
                  end) es
  end.

(** The number of files in a tree. *)
Fixpoint count_files (n : node) : nat :=
  match n with
  | File _ => 1
  | Dir es => list_sum (map (fun e : string * node => count_files (snd e)) es)
  end.

(** A name of a directory entry: not empty and free of slashes. *)
Definition good_name (c : string) : bool :=
  negb (String.eqb c "") && negb (Str.mem_char slash c).

Fixpoint distinct (l : list string) : bool :=
  match l with
  | [] => true
  | x :: l' => negb (existsb (String.eqb x) l') && distinct l'
  end.

(** A tree as a file system holds it: every directory lists each name
    once, and the names are entry names. *)
Fixpoint wf (n : node) : bool :=
  match n with
  | File _ => true
  | Dir es =>
      distinct (map fst es) &&
      forallb (fun e : string * node => good_name (fst e) && wf (snd e)) es
  end.

(** The path of the place [comps] below [top], as the traversal spells it. *)
Definition path_below (top : string) (comps : list string) : string :=
  fold_left os_path_join comps top.

(** What [os.path.join] puts before a relative name. *)
Definition base (top : string) : string :=
  match top with
  | EmptyString => EmptyString
  | _ => if endswith_slash top then top else (top ++ String slash EmptyString)%string
  end.

Definition starts_slash_or_empty (r : string) : Prop :=
  r = EmptyString \/ exists r', r = String slash r'.

End FS.

(** ** [load_ignore_file] *)

(** The body of the [for] loop: [None] when the line is passed over. *)
Definition ignore_of_line (raw : string) : option string :=
  let line := Str.strip raw in
  match line with
  | EmptyString => None
  | _ =>
      if Str.startswith line "#" then None
      else
        let line := Str.replace line "." "\." in
        let line := Str.replace line "*" ".*" in
        Some (line ++ "$")%string
  end.

Fixpoint load_ignore_lines (lines : list string) : list string :=
  match lines with
  | [] => []
  | raw :: rest =>
      match ignore_of_line raw with
      | Some pat => pat :: load_ignore_lines rest
      | None => load_ignore_lines rest
      end
  end.

(** [load_ignore_file(fn)] on the text of [fn]. *)
Definition load_ignore_text (text : string) : list string :=
  load_ignore_lines (Str.readlines text).

(** ** The process: interpreter and operating-system state *)

(** [find_files_ignore_paths] is the list object that the [def] of
    [find_files] evaluated once for the default of [ignore_paths]; every
    call that omits the argument is handed this same object.  [lists]
    holds the list objects that callers made themselves, each under the
    identity by which its holders refer to it: a list passed for
    [ignore_paths] is passed by reference, and what the callee does to it
    is seen by everyone who holds it.  The binding met first is the
    current one; an identity without a binding is an empty list. *)
Record state : Type := mk_state {
  disk : FS.node;
  cwd : list string;
  stdout : list string;
  stderr : list string;
  find_files_ignore_paths : list string;
  lists : list (nat * list string)
}.

(** The contents of the list object [obj]. *)
Fixpoint list_at (obj : nat) (store : list (nat * list string)) : list string :=
  match store with
  | [] => []
  | (o, l) :: rest => if Nat.eqb o obj then l else list_at obj rest
  end.

Definition initial_ignore_paths : list string :=
  ["/\.git/"; "/\.svn/"; "\/O\..*\/"; "\.sw[op]$"; "\/db\/"].

Definition set_disk (d : FS.node) (st : state) : state :=
  mk_state d (cwd st) (stdout st) (stderr st) (find_files_ignore_paths st) (lists st).

Definition print_out (lines : list string) (st : state) : state :=
  mk_state (disk st) (cwd st) (stdout st ++ lines) (stderr st) (find_files_ignore_paths st)
           (lists st).

Definition print_err (lines : list string) (st : state) : state :=
  mk_state (disk st) (cwd st) (stdout st) (stderr st ++ lines) (find_files_ignore_paths st)
           (lists st).

Definition set_ignore_paths (l : list string) (st : state) : state :=
  mk_state (disk st) (cwd st) (stdout st) (stderr st) l (lists st).

(** The list object [obj] now holds [l]. *)
Definition set_list (obj : nat) (l : list string) (st : state) : state :=
  mk_state (disk st) (cwd st) (stdout st) (stderr st) (find_files_ignore_paths st)
           ((obj, l) :: lists st).

(** A computation that may change the state and may raise. The state
    reached when an exception is raised is kept: what was printed or
    written before stays so. *)
Definition M (A : Type) : Type := state -> state * result A.

Definition ret {A} (a : A) : M A := fun st => (st, Ok a).
Definition raise {A} (e : exn) : M A := fun st => (st, Raise e).
Definition bind {A B} (m : M A) (k : A -> M B) : M B :=
  fun st => match m st with
            | (st', Ok a) => k a st'
            | (st', Raise e) => (st', Raise e)
            end.
Definition lift {A} (r : result A) : M A := fun st => (st, r).
Definition modify (f : state -> state) : M unit := fun st => (f st, Ok tt).

Notation "'do' x <- m ; k" := (bind m (fun x => k))
  (at level 10, x name, m at level 100, k at level 200).
Notation "m ;; k" := (bind m (fun _ => k))
  (at level 100, k at level 200, right associativity).

Definition os_path_exists (s : string) : M bool :=
  fun st => (st, Ok (FS.exists_ (disk st) (cwd st) s)).

Definition open_read (s : string) : M string :=
  fun st => (st, FS.read (disk st) (cwd st) s).

Definition open_write (s text : string) : M unit :=
  fun st => match FS.write (disk st) (cwd st) s text with
            | Ok d => (set_disk d st, Ok tt)
            | Raise e => (st, Raise e)
            end.

Definition os_path_abspath (s : string) : M string :=
  fun st => (st, Ok (FS.abspath (cwd st) s)).

Definition os_walk (top : string) : M (list (string * list string * list string)) :=
  fun st => (st, Ok (FS.walk (disk st) (cwd st) top)).

(** What [subprocess.call] meets: the command ran and exited with a
    status, having written [output] to the terminal, or it could not be
    started (no such executable), which [subprocess.call] raises as an
    [OSError]. *)
Inductive proc_outcome : Type :=
| Exited (status : Z) (output : list string)
| NotStarted.

(** The argument [ignore_paths]: left out, or a list object of the
    caller's, given by reference. *)
Inductive ignore_arg : Type :=
| DefaultIgnore
| GivenIgnore (obj : nat).

Section Program.

(** [re.compile]: [None] when the pattern is refused ([re.error]),
    otherwise the [search] of the compiled pattern as a test on the
    subject string. *)
Variable re_compile : string -> option (string -> bool).

(** The command run by [subprocess.call], from its argument vector, the
    text held by the scratch file and the disk.  It writes no file. *)
Variable spawn : list string -> string -> FS.node -> proc_outcome.

(** [tempf.name] *)
Variable tempf_name : string.

(** [[re.compile(ignore) for ignore in ignore_paths]]; each compiled
    pattern keeps its source ([ignore.pattern]). *)
Fixpoint compile_all (pats : list string) : result (list (string * (string -> bool))) :=
  match pats with
  | [] => Ok []
  | p :: rest =>
      match re_compile p with
      | None => Raise ReError
      | Some f =>
          match compile_all rest with
          | Ok l => Ok ((p, f) :: l)
          | Raise e => Raise e
          end
      end
  end.

(** The [for ignore in ignore_paths] loop: the pattern of the first
    compiled pattern found in [fn]. *)
Fixpoint first_match (ignores : list (string * (string -> bool))) (fn : string)
  : option string :=
  match ignores with
  | [] => None
  | (pat, search) :: rest => if search fn then Some pat else first_match rest fn
  end.

(** The paths [os.path.join(root, fn)] in the order of the two outer
    loops of [find_files]. *)
Definition walked_files (triples : list (string * list string * list string)) : list string :=
  flat_map (fun t => match t with (root, _, files) => map (FS.os_path_join root) files end)
           triples.

(** The body of the loops on the walked paths: what goes to [stderr],
    and what is yielded. *)
Fixpoint select_files (ignores : list (string * (string -> bool))) (fns : list string)
  : list string * list string :=
  match fns with
  | [] => ([], [])
  | fn :: rest =>
      let (msgs, yielded) := select_files ignores rest in
      match first_match ignores fn with
      | Some pat =>
          (("Skipping " ++ fn ++ " [matches " ++ pat ++ "]")%string :: msgs, yielded)
      | None => (msgs, fn :: yielded)
      end
  end.

(** The list object bound to [ignore_paths] at entry. *)
Definition ignore_paths_at_entry (ign : ignore_arg) (st : state) : list string :=
  match ign with
  | DefaultIgnore => find_files_ignore_paths st
  | GivenIgnore obj => list_at obj (lists st)
  end.

(** [ignore_paths.extend(extra)]: the object is changed in place.  When
    it is the default one, the change stays with the function; when it is
    the caller's, the caller's list has grown. *)
Definition extend_ignore_paths (ign : ignore_arg) (extra : list string) : M (list string) :=
  fun st =>
    let l := (ignore_paths_at_entry ign st ++ extra)%list in
    match ign with
    | DefaultIgnore => (set_ignore_paths l st, Ok l)
    | GivenIgnore obj => (set_list obj l st, Ok l)
    end.

(** The first lines of [find_files], up to the list of pattern sources
    that is compiled. *)
Definition gather_ignore_paths (path : string) (ign : ignore_arg) (git_ignore : string)
  : M (list string) :=
  let git_ignore := FS.os_path_join path git_ignore in
  do found <- os_path_exists git_ignore;
  if found then
    do text <- open_read git_ignore;
    extend_ignore_paths ign (load_ignore_text text)
  else
    fun st => (st, Ok (ignore_paths_at_entry ign st)).

(** [list(find_files(path, extensions, ignore_paths, git_ignore))]: the
    generator run to its end, which is how both callers use it.  The
    argument [extensions] is not used by the body. *)
Definition find_files (path : string) (extensions : list string)
           (ign : ignore_arg) (git_ignore : string) : M (list string) :=
  do sources <- gather_ignore_paths path ign git_ignore;
  do ignores <- lift (compile_all sources);
  do triples <- os_walk path;
  let (msgs, yielded) := select_files ignores (walked_files triples) in
  modify (print_err msgs) ;;
  ret yielded.

(** ** [rename] *)

(** [for from_, to in replace: text = text.replace(from_, to)]; the
    empty tuple of a blank line does not unpack into two names. *)
Fixpoint apply_replacements (replace : list conv_line) (text : string) : result string :=
  match replace with
  | [] => Ok text
  | Some (from_, to) :: rest => apply_replacements rest (Str.replace text from_ to)
  | None :: rest => Raise ValueError
  end.

(** [subprocess.call(argv)] while the scratch file holds [scratch]. *)
Definition subprocess_call (argv : list string) (scratch : string) : M Z :=
  fun st => match spawn argv scratch (disk st) with
            | Exited status output => (print_out output st, Ok status)
            | NotStarted => (st, Raise OSError)
            end.

(** ['[dry run] Would change: %s' % fn] *)
Definition dry_run_notice (fn : string) : string :=
  ("[dry run] Would change: " ++ fn)%string.

(** The body of [for fn in fns]. *)
Definition rename_file (ren_fn : string) (replace : list conv_line)
           (dryrun : bool) (diff : string) (diff_args : list string)
           (fn : string) : M unit :=
  do a <- os_path_abspath fn;
  if String.eqb a ren_fn then ret tt
  else
    do orig_text <- open_read fn;
    do text <- lift (apply_replacements replace orig_text);
    if negb (String.eqb text orig_text) then
      if dryrun then
        modify (print_out [dry_run_notice fn]) ;;
        do _status <- subprocess_call ([diff; fn; tempf_name] ++ diff_args) text;
        ret tt
      else open_write fn text
    else ret tt.

Fixpoint rename_loop (ren_fn : string) (replace : list conv_line)
         (dryrun : bool) (diff : string) (diff_args : list string)
         (fns : list string) : M unit :=
  match fns with
  | [] => ret tt
  | fn :: rest =>
      rename_file ren_fn replace dryrun diff diff_args fn ;;
      rename_loop ren_fn replace dryrun diff diff_args rest
  end.

(** [while '' in diff_args: diff_args.remove('')] *)
Definition remove_empty (diff_args : list string) : list string :=
  filter (fun a => negb (String.eqb a "")) diff_args.

(** [rename(ren_fn, path, add_ext, dryrun, diff, diff_args)]; a missing
    [add_ext] ([None]) is the empty list. *)
Definition rename (ren_fn path : string) (add_ext : option (list string))
           (dryrun : bool) (diff : string) (diff_args : list string) : M unit :=
  do ren_fn <- os_path_abspath ren_fn;
  do table <- open_read ren_fn;
  let replace := read_conv_lines table in
  let diff_args := remove_empty diff_args in
  let add_ext := match add_ext with Some l => l | None => [] end in
  do fns <- find_files path (DEFAULT_EXT ++ add_ext) DefaultIgnore ".gitignore";
  rename_loop ren_fn replace dryrun diff diff_args fns.

End Program.

(** ** A regular-expression engine for the patterns the tool builds

    The theorems on [find_files] hold for any [re_compile].  To run
    [find_files] on a given tree, [MiniRe] implements [re.compile] and
    [search] for the patterns that the default list and
    [load_ignore_file] produce from plain glob lines: literal
    characters, backslash-escaped punctuation, the dot, the star after
    one of those, a bracketed set of literal characters, and a closing
    dollar.  Any other construct is refused. *)

Module MiniRe.

Inductive atom : Type :=
| Lit (c : ascii)
| AnyChar
| OneOf (cs : list ascii).

Inductive token : Type :=
| TAtom (a : atom)
| TStar
| TEnd.

Inductive item : Type :=
| Once (a : atom)
| Many (a : atom).

Definition is_alnum (c : ascii) : bool :=
  let n := Str.code c in
  (Nat.leb 48 n && Nat.leb n 57) || Str.is_upper c || Str.is_lower c.

Definition refused_in_set (c : ascii) : bool := Str.mem_char c "\^-[".
Definition refused_plain (c : ascii) : bool := Str.mem_char c "+?(){}|^]".

Fixpoint tokens (s : string) (inset : option (list ascii)) : option (list token) :=
  match s with
  | EmptyString => match inset with None => Some [] | Some _ => None end
  | String c s' =>
      match inset with
      | Some acc =>
          if Ascii.eqb c "]"%char then
            match acc with
            | [] => None
            | _ => option_map (cons (TAtom (OneOf (rev acc)))) (tokens s' None)
            end
          else if refused_in_set c then None
          else tokens s' (Some (c :: acc))
      | None =>
          if Ascii.eqb c "\"%char then
            match s' with
            | String d s'' =>
                if is_alnum d then None
                else option_map (cons (TAtom (Lit d))) (tokens s'' None)
            | EmptyString => None
            end
          else if Ascii.eqb c "."%char then option_map (cons (TAtom AnyChar)) (tokens s' None)
          else if Ascii.eqb c "*"%char then option_map (cons TStar) (tokens s' None)
          else if Ascii.eqb c "$"%char then option_map (cons TEnd) (tokens s' None)
          else if Ascii.eqb c "["%char then tokens s' (Some [])
          else if refused_plain c then None
          else option_map (cons (TAtom (Lit c))) (tokens s' None)
      end
  end.

(** The items of a token list and whether it closes with the dollar. *)
Fixpoint assemble (ts : list token) : option (list item * bool) :=
  match ts with
  | [] => Some ([], false)
  | [TEnd] => Some ([], true)
  | TAtom a :: TStar :: rest =>
      option_map (fun r => (Many a :: fst r, snd r)) (assemble rest)
  | TAtom a :: rest =>
      option_map (fun r => (Once a :: fst r, snd r)) (assemble rest)
  | _ => None
  end.

Definition atom_ok (a : atom) (c : ascii) : bool :=
  match a with
  | Lit d => Ascii.eqb c d
  | AnyChar => negb (Ascii.eqb c Str.newline)
  | OneOf cs => existsb (Ascii.eqb c) cs
  end.

(** The dollar: the end of the subject, or just before a last newline. *)
Definition end_ok (s : string) : bool :=
  match s with
  | EmptyString => true
  | String c EmptyString => Ascii.eqb c Str.newline
  | _ => false
  end.

Fixpoint match_here (its : list item) (anchored : bool) (s : string) : bool :=
  match its with
  | [] => if anchored then end_ok s else true
  | Once a :: rest =>
      match s with
      | String c s' => atom_ok a c && match_here rest anchored s'
      | EmptyString => false
      end
  | Many a :: rest =>
      (fix many (s : string) : bool :=
         match_here rest anchored s ||
         match s with
         | String c s' => atom_ok a c && many s'
         | EmptyString => false
         end) s
  end.

Fixpoint search_items (its : list item) (anchored : bool) (s : string) : bool :=
  match_here its anchored s ||
  match s with
  | String _ s' => search_items its anchored s'
  | EmptyString => false
  end.

Definition re_compile (p : string) : option (string -> bool) :=
  match tokens p None with
  | Some ts => match assemble ts with
               | Some (its, anchored) => Some (search_items its anchored)
               | None => None
               end
  | None => None
  end.

End MiniRe.

(** ** Properties the statements below refer to *)

(** No entry's [to] holds the [from_] of a later entry. *)
Definition no_later_from_in (to : string) (rest : list conv_line) : bool :=
  forallb (fun e : conv_line =>
             match e with
             | Some (from_, _) => negb (Str.occurs from_ to)
             | None => true
             end) rest.

Fixpoint chain_free (table : list conv_line) : bool :=
  match table with
  | [] => true
  | Some (_, to) :: rest => no_later_from_in to rest && chain_free rest
  | None :: rest => chain_free rest
  end.

(** [p] holds of every non-empty end of [s]. *)
Fixpoint all_ends (p : string -> bool) (s : string) : bool :=
  match s with
  | EmptyString => true
  | String _ s' => p s && all_ends p s'
  end.

(** Neither string begins with the other. *)
Definition apart (u v : string) : bool :=
  negb (String.prefix u v) && negb (String.prefix v u).

(** [g] and [t] do not overlap: neither occurs in the other, and no
    non-empty end of one is a beginning of the other. *)
Definition no_overlap (g t : string) : bool :=
  all_ends (apart g) t && all_ends (fun g' => apart g' t) g.

(** Among the entries whose two columns differ, no [to] overlaps the
    [from_] of its own entry or of one that comes before it;
    [earlier] holds the [from_]s met so far. *)
Fixpoint settled (earlier : list string) (table : list conv_line) : bool :=
  match table with
  | [] => true
  | None :: rest => settled earlier rest
  | Some (from_, to) :: rest =>
      if String.eqb from_ to then settled earlier rest
      else forallb (fun g => no_overlap g to) (from_ :: earlier)
           && settled (from_ :: earlier) rest
  end.

(** Wherever [g] begins in [s], [f] begins there too. *)
Fixpoint quiet (g f s : string) : bool :=
  (String.prefix f s || negb (String.prefix g s))
  && match s with
     | EmptyString => true
     | String _ s' => quiet g f s'
     end.

(** The file [fn] is a candidate whose text the table changes. *)
Definition would_change (ren_fn : string) (replace : list conv_line)
           (d : FS.node) (w : list string) (fn : string) : Prop :=
  FS.abspath w fn <> ren_fn /\
  exists orig text,
    FS.read d w fn = Ok orig /\
    apply_replacements replace orig = Ok text /\
    text <> orig.

(** Induction on trees with the hypothesis for every entry of a directory. *)
Fixpoint node_ind2 (P : FS.node -> Prop)
         (HF : forall t, P (FS.File t))
         (HD : forall es, Forall (fun e => P (snd e)) es -> P (FS.Dir es))
         (n : FS.node) : P n :=
  match n with
  | FS.File t => HF t
  | FS.Dir es =>
      HD es ((fix all (l : list (string * FS.node)) : Forall (fun e => P (snd e)) l :=
                match l with
                | [] => Forall_nil _
                | e :: l' => Forall_cons e (node_ind2 P HF HD (snd e)) (all l')
                end) es)
  end.

(** ** A project tree to run the program on *)

Module Sample.

Definition nl : string := String Str.newline EmptyString.

Definition table : string := ("OLD:NAME NEW:NAME" ++ nl)%string.

Definition table_with_blank : string :=
  ("OLD:NAME NEW:NAME" ++ nl ++ nl ++ "FOO BAR" ++ nl)%string.

Definition project (names : string) : list (string * FS.node) :=
  [(".gitignore", FS.File ("# build output" ++ nl ++ "*.log" ++ nl));
   ("a.db", FS.File "record(ai, OLD:NAME)");
   ("build.log", FS.File "OLD:NAME");
   ("db", FS.Dir [("x.db", FS.File "OLD:NAME")]);
   ("sub", FS.Dir [("b.template", FS.File "OLD:NAME and OLD:NAME");
                   ("c.txt", FS.File "nothing to rename")]);
   ("names.txt", FS.File names)].

Definition tree (names : string) : FS.node :=
  FS.Dir [("proj", FS.Dir (project names));
          ("other", FS.Dir [("y.log", FS.File "OLD:NAME"); ("z.swp", FS.File "")]);
          ("plain", FS.Dir [("m.db", FS.File "record(ao, FOO)");
                            ("n.xyz", FS.File "FOO");
                            ("deep", FS.Dir [("o", FS.File "")])])].

Definition start (names : string) : state :=
  mk_state (tree names) [] [] [] initial_ignore_paths [].

Definition s0 : state := start table.
Definition s_blank : state := start table_with_blank.

(** A [diff] that finds differences and exits with status 1. *)
Definition diff_exits_1 (argv : list string) (scratch : string) (d : FS.node) : proc_outcome :=
  Exited 1 ["<output of diff>"].

(** No [diff] on the search path. *)
Definition diff_missing (argv : list string) (scratch : string) (d : FS.node) : proc_outcome :=
  NotStarted.

Definition tempf : string := "/tmp/tmpq1w2e3".

(** The default ignore list, compiled. *)
Definition default_ignores : list (string * (string -> bool)) :=
  match compile_all MiniRe.re_compile initial_ignore_paths with
  | Ok l => l
  | Raise _ => []
  end.

Definition ren_fn : string := "/proj/names.txt".

(** What [find_files] yields below [proj]. *)
Definition candidates : list string :=
  ["proj/.gitignore"; "proj/a.db"; "proj/names.txt"; "proj/sub/b.template"; "proj/sub/c.txt"].

End Sample.

(** ** [find_records] *)

Module Rec.

Definition dquote : ascii := ascii_of_nat 34.
Definition squote : ascii := ascii_of_nat 39.

(** [s.strip(chars)] *)
Fixpoint lstrip_chars (chars s : string) : string :=
  match s with
  | EmptyString => EmptyString
  | String c s' => if Str.mem_char c chars then lstrip_chars chars s' else s
  end.

Fixpoint rstrip_chars (chars s : string) : string :=
  match s with
  | EmptyString => EmptyString
  | String c s' =>
      match rstrip_chars chars s' with
      | EmptyString => if Str.mem_char c chars then EmptyString else String c EmptyString
      | r => String c r
      end
  end.

Definition strip_chars (chars s : string) : string :=
  rstrip_chars chars (lstrip_chars chars s).

(** The text before and after the last [c] of [s]. *)
Fixpoint rsplit_char (c : ascii) (s : string) : option (string * string) :=
  match s with
  | EmptyString => None
  | String d s' =>
      match rsplit_char c s' with
      | Some (a, b) => Some (String d a, b)
      | None => if Ascii.eqb d c then Some (EmptyString, s') else None
      end
  end.

(** The dot of a pattern stops at a newline. *)
Fixpoint before_newline (s : string) : string :=
  match s with
  | EmptyString => EmptyString
  | String c s' => if Ascii.eqb c Str.newline then EmptyString else String c (before_newline s')
  end.

Fixpoint drop_prefix (p s : string) : option string :=
  match p with
  | EmptyString => Some s
  | String a p' =>
      match s with
      | String b s' => if Ascii.eqb a b then drop_prefix p' s' else None
      | EmptyString => None
      end
  end.

(** [record_re.match(line).groups()].  The pattern [record_re] is: an
    optional [g], the word [record], any run of whitespace, an opening
    parenthesis, a greedy group, a comma, a second greedy group and a
    closing parenthesis; it is matched at the start of the line and
    need not reach its end.  The groups being greedy, the closing
    parenthesis is the last one of the line and the comma the last one
    before it. *)
Definition record_re_match (line : string) : option (string * string) :=
  let after_word :=
    match drop_prefix "grecord" line with
    | Some r => Some r
    | None => drop_prefix "record" line
    end in
  match after_word with
  | None => None
  | Some r =>
      match Str.lstrip r with
      | String c r' =>
          if Ascii.eqb c "("%char then
            match rsplit_char ")"%char (before_newline r') with
            | Some (inner, _) => rsplit_char ","%char inner
            | None => None
            end
          else None
      | EmptyString => None
      end
  end.

(** The two calls of [strip] that take the quotes off a group: first
    the double quotes at both ends, then the single ones. *)
Definition unquote (s : string) : string :=
  strip_chars (String squote EmptyString) (strip_chars (String dquote EmptyString) s).

(** The body of the loop of [find_records]: what the line yields. *)
Definition record_of_line (raw : string) : option (string * string) :=
  let line := Str.strip raw in
  match record_re_match line with
  | Some (g1, g2) =>
      let rtyp := unquote (Str.strip g1) in
      let record := unquote (Str.strip g2) in
      Some (record, rtyp)
  | None => None
  end.

Fixpoint records_of_lines (lines : list string) : list (string * string) :=
  match lines with
  | [] => []
  | raw :: rest =>
      match record_of_line raw with
      | Some r => r :: records_of_lines rest
      | None => records_of_lines rest
      end
  end.

(** [list(find_records(db_file))] on the text of [db_file]. *)
Definition find_records_text (text : string) : list (string * string) :=
  records_of_lines (Str.readlines text).

End Rec.

(** ** [create_list] *)

Module Listing.

(** [os.path.basename] *)
Definition basename (p : string) : string :=
  match Rec.rsplit_char FS.slash p with
  | Some (_, b) => b
  | None => p
  end.

Fixpoint all_dots (s : string) : bool :=
  match s with
  | EmptyString => true
  | String c s' => Ascii.eqb c "."%char && all_dots s'
  end.

(** [os.path.splitext(p)[1]]: the text from the last dot of the last
    component, unless only dots come before it in that component. *)
Definition splitext_ext (p : string) : string :=
  match Rec.rsplit_char "."%char (basename p) with
  | Some (pre, suf) => if all_dots pre then EmptyString else String "."%char suf
  | None => EmptyString
  end.

(** [os.path.splitext(fn)[1] in ('.db', '.template')] *)
Definition is_db_file (fn : string) : bool :=
  let e := splitext_ext fn in
  String.eqb e ".db" || String.eqb e ".template".

(** [records[record] = rtyp] on a dictionary kept in insertion order: a
    key that is present keeps its place. *)
Fixpoint dict_set (k v : string) (d : list (string * string)) : list (string * string) :=
  match d with
  | [] => [(k, v)]
  | (k', v') :: d' =>
      if String.eqb k' k then (k', v) :: d' else (k', v') :: dict_set k v d'
  end.

(** The inner loop of [create_list] on the records of one file. *)
Definition add_records (found : list (string * string)) (records : list (string * string))
  : list (string * string) :=
  fold_left (fun d r => dict_set (fst r) (snd r) d) found records.

(** [recs.sort(key=len, reverse=True)]: longest first, strings of equal
    length in the order they had. *)
Fixpoint insert_by_len (x : string) (l : list string) : list string :=
  match l with
  | [] => [x]
  | y :: l' =>
      if Nat.ltb (String.length x) (String.length y) then y :: insert_by_len x l'
      else x :: l
  end.

Fixpoint sort_by_len (l : list string) : list string :=
  match l with
  | [] => []
  | x :: l' => insert_by_len x (sort_by_len l')
  end.

(** The loop [for fn in db_files] that fills [records]. *)
Fixpoint collect_records (fns : list string) (records : list (string * string))
  : M (list (string * string)) :=
  match fns with
  | [] => ret records
  | fn :: rest =>
      do text <- open_read fn;
      collect_records rest (add_records (Rec.find_records_text text) records)
  end.

Section WithRe.

Variable re_compile : string -> option (string -> bool).

(** [create_list(path, add_ext)] *)
Definition create_list (path : string) (add_ext : list string) : M unit :=
  do fns <- find_files re_compile path (DEFAULT_EXT ++ add_ext) DefaultIgnore ".gitignore";
  let db_files := filter is_db_file fns in
  modify (print_err ("All database files:"
                       :: map (fun fn => (Conv.tab ++ fn)%string) db_files)) ;;
  do records <- collect_records db_files [];
  modify (print_out (sort_by_len (map fst records))).

End WithRe.

End Listing.

(** ** Notions the further statements refer to *)

Module Txt.

(** Some character of the string is whitespace. *)
Fixpoint has_space (s : string) : bool :=
  match s with
  | EmptyString => false
  | String c s' => Str.is_space c || has_space s'
  end.

(** The first character, if any, is whitespace. *)
Definition starts_with_space (s : string) : bool :=
  match s with
  | EmptyString => false
  | String c _ => Str.is_space c
  end.

(** A function applied to every character. *)
Fixpoint smap (f : ascii -> ascii) (s : string) : string :=
  match s with
  | EmptyString => EmptyString
  | String c s' => String (f c) (smap f s')
  end.

(** Every character replaced by a string. *)
Fixpoint expand (f : ascii -> string) (s : string) : string :=
  match s with
  | EmptyString => EmptyString
  | String c s' => (f c ++ expand f s')%string
  end.

End Txt.

Module Camel.

(** A character that [to_camel] treats as part of a word: not the
    dollar, not a delimiter of either kind. *)
Definition word_char (delims : list string) (caps_delim : string) (c : ascii) : bool :=
  negb (Ascii.eqb c "$"%char) &&
  negb (Conv.in_delims c delims) &&
  negb (Str.mem_char c caps_delim).

Fixpoint word (delims : list string) (caps_delim : string) (s : string) : bool :=
  match s with
  | EmptyString => true
  | String c s' => word_char delims caps_delim c && word delims caps_delim s'
  end.

(** First character in upper case, the others in lower case. *)
Definition capitalize (s : string) : string :=
  match s with
  | EmptyString => EmptyString
  | String c s' => String (Str.upper c) (Txt.smap Str.lower s')
  end.

(** The flags with which the loop of [to_camel] leaves a string. *)
Definition flags_after (in_macro0 last_delim0 : bool)
           (delims : list string) (caps_delim : string) (s : string) : bool * bool :=
  let st := Conv.camel_loop delims caps_delim (Conv.mk_cstate in_macro0 last_delim0 []) s in
  (Conv.in_macro st, Conv.last_delim st).

End Camel.

Module Driver.

(** The line [convert_case] prints for an entry in the camel direction. *)
Definition shown_camel (delims : list string) (caps_delim : string) (l : conv_line) : string :=
  match l with
  | None => EmptyString
  | Some (from_, to) =>
      (from_ ++ Conv.tab ++
       (if String.eqb from_ to then Conv.to_camel delims caps_delim to else to))%string
  end.

(** The line for an entry that is printed as it was read. *)
Definition shown_as_read (l : conv_line) : string :=
  match l with
  | None => EmptyString
  | Some (from_, to) => (from_ ++ Conv.tab ++ to)%string
  end.

(** The entry has equal columns, as a line of one token gives. *)
Definition single_token (l : conv_line) : bool :=
  match l with
  | Some (from_, to) => String.eqb from_ to
  | None => false
  end.

End Driver.

Module Glob.

(** What [load_ignore_file] makes of one character of a glob line. *)
Definition glob_char (c : ascii) : string :=
  if Ascii.eqb c "."%char then "\."
  else if Ascii.eqb c "*"%char then ".*"
  else String c EmptyString.

End Glob.

Module Select.

(** Some compiled pattern is found in the path. *)
Definition ignored (ignores : list (string * (string -> bool))) (fn : string) : bool :=
  existsb (fun ps : string * (string -> bool) => snd ps fn) ignores.

(** The diagnostic of a path that is passed over. *)
Definition skip_message (ignores : list (string * (string -> bool))) (fn : string) : string :=
  match first_match ignores fn with
  | Some pat => ("Skipping " ++ fn ++ " [matches " ++ pat ++ "]")%string
  | None => EmptyString
  end.

End Select.

Module RecSpec.

(** A name as record declarations hold them: no whitespace, no comma
    and no quote. *)
Definition token_char (c : ascii) : bool :=
  negb (Str.is_space c) &&
  negb (Ascii.eqb c ","%char) &&
  negb (Ascii.eqb c Rec.dquote) &&
  negb (Ascii.eqb c Rec.squote).

Fixpoint token (s : string) : bool :=
  match s with
  | EmptyString => true
  | String c s' => token_char c && token s'
  end.

(** The string between double quotes. *)
Definition quoted (s : string) : string :=
  String Rec.dquote (s ++ String Rec.dquote EmptyString).

(** The earlier of two records is at least as long as the later. *)
Definition longer_first (a b : string) : Prop := String.length b <= String.length a.

(** A record declaration in the usual form of a database file. *)
Definition declaration (g : bool) (rtyp name tail : string) : string :=
  ((if g then "grecord(" else "record(") ++ rtyp ++ ", " ++ quoted name ++ ")" ++ tail)%string.

(** [line] is a line of [text]: it holds no newline, what comes before
    it is empty or ends with a newline, and what comes after it is
    empty or begins with one. *)
Definition line_of (line text : string) : Prop :=
  Str.mem_char Str.newline line = false /\
  exists before after,
    text = (before ++ line ++ after)%string /\
    (before = EmptyString \/ exists b, before = (b ++ String Str.newline EmptyString)%string) /\
    (after = EmptyString \/ exists a, after = String Str.newline a).

(** The path [fn] ends with the extension [e]: it is a directory part,
    empty or closed by a slash, then a stem without a slash that holds
    a character other than the dot, then [e]. *)
Definition has_extension (e fn : string) : Prop :=
  exists dir stem c,
    fn = (dir ++ stem ++ e)%string /\
    (dir = EmptyString \/ exists d, dir = (d ++ "/")%string) /\
    Str.mem_char "/"%char stem = false /\
    Str.mem_char c stem = true /\
    Ascii.eqb c "."%char = false.

(** A database file by its name. *)
Definition db_file (fn : string) : Prop :=
  has_extension ".db" fn \/ has_extension ".template" fn.

End RecSpec.

(** ** More trees to run the program on *)

Module Sample2.

(** An ignore file with a line that gives an unterminated set. *)
Definition bad_tree : FS.node :=
  FS.Dir [("bad", FS.Dir [(".gitignore", FS.File "[");
                          ("a.db", FS.File "")]);
          ("good", FS.Dir [("b.db", FS.File "")])].

Definition s_bad : state := mk_state bad_tree [] [] [] initial_ignore_paths [].

(** Two database files that declare three names, one of them twice. *)
Definition a_db : string :=
  ("record(ai, " ++ RecSpec.quoted "TEMP:IN" ++ ") {" ++ Sample.nl
   ++ "  field(DESC, x)" ++ Sample.nl
   ++ "}" ++ Sample.nl
   ++ "record(ao, " ++ RecSpec.quoted "T" ++ ")" ++ Sample.nl)%string.

Definition b_template : string :=
  ("grecord(bi, " ++ RecSpec.quoted "TEMP:IN" ++ ")" ++ Sample.nl
   ++ "record(calc, " ++ RecSpec.quoted "LONG:NAME:X" ++ ")" ++ Sample.nl)%string.

Definition ioc_tree : FS.node :=
  FS.Dir [("ioc", FS.Dir [("a.db", FS.File a_db);
                          ("b.template", FS.File b_template);
                          ("notes.txt", FS.File "record(x, y)");
                          (".db", FS.File "record(hidden, h)")])].

Definition s_ioc : state := mk_state ioc_tree [] [] [] initial_ignore_paths [].

(** The ignore list of the sample project, compiled. *)
Definition proj_sources : list string := initial_ignore_paths ++ [".*\.log$"].

Definition proj_ignores : list (string * (string -> bool)) :=
  match compile_all MiniRe.re_compile proj_sources with
  | Ok l => l
  | Raise _ => []
  end.

Definition changed_candidates : list string :=
  ["proj/a.db"; "proj/sub/b.template"; "proj/sub/c.txt"].

(** A caller that holds two lists of its own. *)
Definition s_own : state :=
  mk_state (Sample.tree Sample.table) [] [] [] initial_ignore_paths
           [(1, ["\.bak$"]); (2, ["/attic/"])].

End Sample2.

(** ** Checks of the transcription on small inputs *)

Example strip_ex : Str.strip "  a b  " = "a b".
Proof. reflexivity. Qed.

Example replace_ex1 : Str.replace "aXbXXc" "X" "yz" = "ayzbyzyzc".
Proof. reflexivity. Qed.

Example replace_ex2 : Str.replace "aaaa" "aa" "b" = "bb".
Proof. reflexivity. Qed.

Example replace_ex3 : Str.replace "abc" "" "-" = "-a-b-c-".
Proof. reflexivity. Qed.

Example conv_line_ex1 : conv_of_line "FOO_BAR" = Some ("FOO_BAR", "FOO_BAR").
Proof. reflexivity. Qed.

Example conv_line_ex2 : conv_of_line "OLD:NAME NEW:NAME" = Some ("OLD:NAME", "NEW:NAME").
Proof. reflexivity. Qed.

Example camel_ex : Conv.to_camel ["_"] DEF_CAPS_DELIM "a_b:c_d" = "aB:CD".
Proof. reflexivity. Qed.

Example readlines_ex :
  Str.readlines ("a" ++ Sample.nl ++ Sample.nl ++ "b") = ["a" ++ Sample.nl; Sample.nl; "b"]%string.
Proof. reflexivity. Qed.

Example conv_line_ex3 : conv_of_line "FOO   BAR" = Some ("FOO  ", "BAR").
Proof. reflexivity. Qed.

Example join_ex :
  map (fun ab => FS.os_path_join (fst ab) (snd ab))
      [("a/", "b"); ("", "b"); ("a", "/b"); ("a", ""); ("a", "b")]
  = ["a/b"; "b"; "/b"; "a/"; "a/b"].
Proof. reflexivity. Qed.

Example normpath_ex :
  map FS.normpath ["//x"; "///x/../.."; "/a/b/../c/./d//e/"; ""] = ["//x"; "/"; "/a/c/d/e"; "."].
Proof. vm_compute. reflexivity. Qed.

Example abspath_ex : FS.abspath ["home"; "u"] "../v/./w" = "/home/v/w".
Proof. vm_compute. reflexivity. Qed.

Example load_ignore_ex :
  load_ignore_text ("# build output" ++ Sample.nl ++ Sample.nl ++ " *.log " ++ Sample.nl ++ "doc/*.pdf")
  = [".*\.log$"; "doc/.*\.pdf$"].
Proof. vm_compute. reflexivity. Qed.

(** The default patterns and a loaded one, each searched in seven paths. *)
Example mini_re_ex :
  map (fun p => match MiniRe.re_compile p with
                | Some search =>
                    map search ["proj/db/x.db"; "a/.git/c"; "x/O.linux/y"; "f.swp"; "f.swpx";
                                "b.log"; ("b.log" ++ Sample.nl)%string]
                | None => []
                end)
      (initial_ignore_paths ++ [".*\.log$"])
  = [[false; true; false; false; false; false; false];
     [false; false; false; false; false; false; false];
     [false; false; true; false; false; false; false];
     [false; false; false; true; false; false; false];
     [true; false; false; false; false; false; false];
     [false; false; false; false; false; true; true]].
Proof. vm_compute. reflexivity. Qed.

(** ** Facts on the text helpers *)

Module StrFacts.
Import Str.

Lemma prefix_split : forall p s, String.prefix p s = true -> exists r, s = (p ++ r)%string.
Proof.
  induction p as [|a p IH]; intros s H.
  - exists s. reflexivity.
  - destruct s as [|b s]; simpl in H; [discriminate|].
    destruct (ascii_dec a b) as [->|]; [|discriminate].
    destruct (IH s H) as [r ->]. exists r. reflexivity.
Qed.

Lemma occurs_tail : forall p c s, occurs p (String c s) = false -> occurs p s = false.
Proof.
  intros p c s H. simpl in H. apply orb_false_iff in H. tauto.
Qed.

Lemma occurs_head : forall p s, occurs p s = false -> String.prefix p s = false.
Proof.
  intros p s H. destruct s; simpl in H; apply orb_false_iff in H; tauto.
Qed.

Lemma replace_scan_absent : forall old new s,
  occurs old s = false -> replace_scan old new s 0 = s.
Proof.
  intros old new s. induction s as [|c s IH]; intros H; [reflexivity|].
  cbn [replace_scan]. rewrite (occurs_head _ _ H).
  rewrite IH; [reflexivity|]. eapply occurs_tail; eauto.
Qed.

(** A [from_] that does not occur in the text leaves it as it is. *)
Lemma replace_absent : forall s old new,
  occurs old s = false -> replace s old new = s.
Proof.
  intros s old new H. destruct old as [|a old].
  - apply occurs_head in H. destruct s; discriminate.
  - apply replace_scan_absent. exact H.
Qed.

Lemma replace_scan_skip : forall old new a r,
  replace_scan old new (a ++ r) (String.length a) = replace_scan old new r 0.
Proof.
  induction a as [|x a IH]; intros r.
  - destruct r; reflexivity.
  - simpl. apply IH.
Qed.

Lemma string_length_app : forall a b, String.length (a ++ b) = String.length a + String.length b.
Proof. induction a; simpl; intros; [reflexivity | rewrite IHa; reflexivity]. Qed.

Lemma replace_scan_same : forall a old n s,
  String.length s <= n ->
  replace_scan (String a old) (String a old) s 0 = s.
Proof.
  intros a old n. induction n as [|n IH]; intros s Hn.
  - destruct s; [reflexivity | simpl in Hn; lia].
  - destruct s as [|c s]; [reflexivity|].
    cbn [replace_scan].
    destruct (String.prefix (String a old) (String c s)) eqn:E.
    + destruct (prefix_split _ _ E) as [r Hr].
      simpl in Hr. injection Hr as -> ->.
      cbn [String.length]. replace (S (String.length old) - 1) with (String.length old) by lia.
      rewrite replace_scan_skip. simpl. f_equal. f_equal.
      apply IH. simpl in Hn. rewrite string_length_app in Hn. lia.
    + f_equal. apply IH. simpl in Hn. lia.
Qed.

Lemma interleave_empty : forall s, interleave "" s = s.
Proof. induction s; simpl; [reflexivity | rewrite IHs; reflexivity]. Qed.

(** An entry whose two columns are equal leaves the text as it is. *)
Lemma replace_same : forall s old, replace s old old = s.
Proof.
  intros s [|a old]; simpl.
  - apply interleave_empty.
  - apply (replace_scan_same a old (String.length s)). lia.
Qed.

End StrFacts.

(** ** Facts on the file system *)

Module FSFacts.
Import FS.

Lemma child_set_child : forall c m es c',
  child c' (set_child c m es) = if String.eqb c c' then Some m else child c' es.
Proof.
  intros c m es c'. induction es as [|[n m0] es IH]; simpl.
  - reflexivity.
  - destruct (String.eqb n c) eqn:Enc; simpl.
    + apply String.eqb_eq in Enc. subst n.
      destruct (String.eqb c c'); reflexivity.
    + rewrite IH. destruct (String.eqb n c') eqn:Enc'; [|reflexivity].
      apply String.eqb_eq in Enc'. rewrite <- Enc'.
      rewrite String.eqb_sym, Enc. reflexivity.
Qed.

(** Rewriting an existing file leaves the shape of the tree as it was. *)
Lemma put_kind : forall p root root' t0 text x,
  lookup root p = Some (File t0) ->
  put root p text = Some root' ->
  kind (lookup root' x) = kind (lookup root x).
Proof.
  induction p as [|c p IH]; intros root root' t0 text x Hl Hp.
  - simpl in Hl. injection Hl as ->. simpl in Hp. injection Hp as <-.
    destruct x; reflexivity.
  - simpl in Hl, Hp. destruct root as [|es]; [discriminate|].
    destruct (child c es) as [m|] eqn:Ec; [|discriminate].
    destruct (put m p text) as [m'|] eqn:Em; [|discriminate].
    injection Hp as <-.
    destruct x as [|c' x]; [reflexivity|].
    simpl. rewrite child_set_child.
    destruct (String.eqb c c') eqn:Ecc.
    + apply String.eqb_eq in Ecc. subst c'. rewrite Ec.
      eapply IH; eauto.
    + reflexivity.
Qed.

Lemma put_lookup_same : forall p root t0 text,
  lookup root p = Some (File t0) ->
  exists root', put root p text = Some root' /\ lookup root' p = Some (File text).
Proof.
  induction p as [|c p IH]; intros root t0 text Hl.
  - simpl in Hl. injection Hl as ->. exists (File text). split; reflexivity.
  - simpl in Hl. destruct root as [|es]; [discriminate|].
    destruct (child c es) as [m|] eqn:Ec; [|discriminate].
    destruct (IH m t0 text Hl) as [m' [Hp Hl']].
    exists (Dir (set_child c m' es)). simpl. rewrite Ec, Hp. split; [reflexivity|].
    rewrite child_set_child, String.eqb_refl. exact Hl'.
Qed.

(** Every other file keeps its text. *)
Lemma put_lookup_other : forall p root root' t0 text x t,
  lookup root p = Some (File t0) ->
  put root p text = Some root' ->
  x <> p ->
  lookup root x = Some (File t) ->
  lookup root' x = Some (File t).
Proof.
  induction p as [|c p IH]; intros root root' t0 text x t Hl Hp Hx Hlx.
  - simpl in Hl. injection Hl as ->. destruct x; [congruence | discriminate].
  - simpl in Hl, Hp. destruct root as [|es]; [discriminate|].
    destruct (child c es) as [m|] eqn:Ec; [|discriminate].
    destruct (put m p text) as [m'|] eqn:Em; [|discriminate].
    injection Hp as <-.
    destruct x as [|c' x]; [discriminate|].
    simpl in Hlx |- *. rewrite child_set_child.
    destruct (String.eqb c c') eqn:Ecc.
    + apply String.eqb_eq in Ecc. subst c'. rewrite Ec in Hlx.
      eapply IH; eauto. congruence.
    + exact Hlx.
Qed.

Lemma kind_is_dir : forall a b, kind a = kind b -> is_dir a = is_dir b.
Proof. intros [[|]|] [[|]|]; simpl; congruence. Qed.

Lemma kind_is_some : forall a b, kind a = kind b -> is_some a = is_some b.
Proof. intros [[|]|] [[|]|]; simpl; congruence. Qed.

Lemma step_same_shape : forall root root',
  (forall x, kind (lookup root' x) = kind (lookup root x)) ->
  forall cur c, step root' cur c = step root cur c.
Proof.
  intros root root' H [p|] c; [|reflexivity]. unfold step.
  rewrite (kind_is_dir _ _ (H p)), (kind_is_some _ _ (H (p ++ [c]))). reflexivity.
Qed.

Lemma fold_step_same_shape : forall root root',
  (forall x, kind (lookup root' x) = kind (lookup root x)) ->
  forall comps cur, fold_left (step root') comps cur = fold_left (step root) comps cur.
Proof.
  intros root root' H. induction comps as [|c comps IH]; intros cur; simpl.
  - reflexivity.
  - rewrite (step_same_shape _ _ H). apply IH.
Qed.

Lemma resolve_same_shape : forall root root' cwd s,
  (forall x, kind (lookup root' x) = kind (lookup root x)) ->
  resolve root' cwd s = resolve root cwd s.
Proof.
  intros root root' cwd s H. unfold resolve. destruct s; [reflexivity|].
  apply fold_step_same_shape. exact H.
Qed.

(** What [open(s).read()] returned names the file that [write] rewrites. *)
Lemma read_inv : forall root cwd s text,
  read root cwd s = Ok text ->
  exists p, resolve root cwd s = Some p /\ lookup root p = Some (File text).
Proof.
  intros root cwd s text H. unfold read, stat in H.
  destruct (resolve root cwd s) as [p|]; [|discriminate].
  destruct (lookup root p) as [[t|es]|] eqn:E; try discriminate.
  injection H as ->. exists p. split; [reflexivity | exact E].
Qed.

Lemma write_existing : forall root cwd s orig text,
  read root cwd s = Ok orig ->
  exists p root',
    resolve root cwd s = Some p /\
    put root p text = Some root' /\
    write root cwd s text = Ok root' /\
    read root' cwd s = Ok text.
Proof.
  intros root cwd s orig text H.
  destruct (read_inv _ _ _ _ H) as [p [Hr Hl]].
  destruct (put_lookup_same p root orig text Hl) as [root' [Hp Hl']].
  exists p, root'. repeat split; try assumption.
  - unfold write. rewrite Hr, Hl, Hp. reflexivity.
  - unfold read, stat.
    rewrite (resolve_same_shape root root' cwd s (fun x => put_kind _ _ _ _ _ x Hl Hp)).
    rewrite Hr, Hl'. reflexivity.
Qed.

End FSFacts.

(** ** Facts on path strings *)

Module PathFacts.
Import FS.

Lemma split_slash_nonempty : forall s, split_slash s <> [].
Proof.
  destruct s as [|c s]; simpl; [discriminate|].
  destruct (Ascii.eqb c slash); [discriminate|].
  destruct (split_slash s); discriminate.
Qed.

Lemma split_slash_app : forall a b,
  split_slash (a ++ String slash b) = split_slash a ++ split_slash b.
Proof.
  induction a as [|c a IH]; intros b; simpl.
  - reflexivity.
  - rewrite IH. destruct (Ascii.eqb c slash); [reflexivity|].
    destruct (split_slash a) eqn:E; [|reflexivity].
    exfalso. exact (split_slash_nonempty a E).
Qed.

Lemma endswith_slash_inv : forall a,
  endswith_slash a = true -> exists q, a = (q ++ String slash EmptyString)%string.
Proof.
  induction a as [|c a IH]; intros H; [discriminate|].
  destruct a as [|d a].
  - simpl in H. apply Ascii.eqb_eq in H. subst c. exists EmptyString. reflexivity.
  - destruct (IH H) as [q Hq]. exists (String c q). simpl. rewrite <- Hq. reflexivity.
Qed.

Lemma string_app_assoc : forall a b c : string, ((a ++ b) ++ c = a ++ (b ++ c))%string.
Proof. induction a; simpl; intros; [reflexivity | rewrite IHa; reflexivity]. Qed.

Lemma fold_step_None : forall root comps, fold_left (step root) comps None = None.
Proof. induction comps; simpl; auto. Qed.

Lemma fold_step_not_dir : forall root comps p,
  is_dir (lookup root p) = false -> comps <> [] ->
  fold_left (step root) comps (Some p) = None.
Proof.
  intros root [|c comps] p H Hne; [congruence|].
  simpl. rewrite H. apply fold_step_None.
Qed.

(** Walking on from a place that is no directory finds nothing. *)
Lemma fold_step_stuck : forall root comps r,
  match r with Some p => is_dir (lookup root p) = false | None => True end ->
  comps <> [] -> fold_left (step root) comps r = None.
Proof.
  intros root comps [p|] H Hne.
  - apply fold_step_not_dir; assumption.
  - apply fold_step_None.
Qed.

Lemma resolve_nonempty : forall root cwd s,
  s <> EmptyString ->
  resolve root cwd s = fold_left (step root) (split_slash s) (Some (start_dir cwd s)).
Proof. intros root cwd [|c s] H; [congruence | reflexivity]. Qed.

Lemma resolve_below : forall root cwd a g,
  match fold_left (step root) (split_slash a) (Some (start_dir cwd (a ++ String slash g))) with
  | Some p => is_dir (lookup root p) = false
  | None => True
  end ->
  resolve root cwd (a ++ String slash g) = None.
Proof.
  intros root cwd a g H.
  rewrite resolve_nonempty by (destruct a; discriminate).
  rewrite split_slash_app, fold_left_app.
  apply fold_step_stuck; [exact H | apply split_slash_nonempty].
Qed.

(** Nothing is found below a path that names no directory. *)
Lemma resolve_join_not_dir : forall root cwd path g,
  path <> EmptyString -> isabs g = false ->
  is_dir (stat root cwd path) = false ->
  resolve root cwd (os_path_join path g) = None.
Proof.
  intros root cwd path g Hne Hg Hd.
  unfold stat in Hd. rewrite resolve_nonempty in Hd by assumption.
  unfold os_path_join. rewrite Hg.
  destruct (endswith_slash path) eqn:Es.
  - destruct (endswith_slash_inv _ Es) as [q Hq].
    assert (Hsp : split_slash path = split_slash q ++ [EmptyString])
      by (rewrite Hq; apply split_slash_app).
    assert (Hstart : start_dir cwd (q ++ String slash g) = start_dir cwd path)
      by (rewrite Hq; unfold start_dir; destruct q; reflexivity).
    assert (Hj : (match path with EmptyString => g | String _ _ => path ++ g end
                  = q ++ String slash g)%string).
    { destruct path; [congruence|]. rewrite Hq, string_app_assoc. reflexivity. }
    rewrite Hj. apply resolve_below. rewrite Hstart.
    rewrite Hsp, fold_left_app in Hd. simpl in Hd.
    destruct (fold_left (step root) (split_slash q) (Some (start_dir cwd path)))
      as [p|]; [|exact I].
    simpl in Hd. destruct (is_dir (lookup root p)) eqn:Ep; [|reflexivity].
    simpl in Hd. rewrite Ep in Hd. discriminate.
  - assert (Hj : (match path with EmptyString => g | String _ _ => path ++ String slash g end
                  = path ++ String slash g)%string)
      by (destruct path; [congruence | reflexivity]).
    rewrite Hj. apply resolve_below.
    assert (Hstart : start_dir cwd (path ++ String slash g) = start_dir cwd path)
      by (unfold start_dir; destruct path; [congruence | reflexivity]).
    rewrite Hstart.
    destruct (fold_left (step root) (split_slash path) (Some (start_dir cwd path)))
      as [p|]; [exact Hd | exact I].
Qed.

End PathFacts.

(** ** Facts on the traversal *)

Module WalkFacts.
Import FS.

Lemma walked_files_app : forall a b,
  walked_files (a ++ b) = walked_files a ++ walked_files b.
Proof. intros. unfold walked_files. apply flat_map_app. Qed.

Lemma walk_dir_files : forall top es,
  Forall (fun e => forall top', Permutation (walked_files (walk_node top' (snd e)))
                                            (files_under top' (snd e))) es ->
  Permutation
    (map (os_path_join top) (filenames es) ++
     walked_files (flat_map (fun e : string * node =>
                               match snd e with
                               | Dir _ => walk_node (os_path_join top (fst e)) (snd e)
                               | File _ => []
                               end) es))
    (flat_map (fun e : string * node =>
                 match snd e with
                 | Dir _ => files_under (os_path_join top (fst e)) (snd e)
                 | File _ => [os_path_join top (fst e)]
                 end) es).
Proof.
  intros top es H. induction H as [|[name m] es Hm Hes IH].
  - constructor.
  - destruct m as [t|sub].
    + simpl. constructor. exact IH.
    + cbn [flat_map snd fst]. rewrite walked_files_app.
      change (filenames ((name, Dir sub) :: es)) with (filenames es).
      eapply Permutation_trans; [apply Permutation_app_swap_app|].
      apply Permutation_app; [apply Hm | exact IH].
Qed.

(** The traversal meets every file of the tree once. *)
Lemma walk_node_files : forall n top,
  Permutation (walked_files (walk_node top n)) (files_under top n).
Proof.
  induction n as [t|es IH] using node_ind2; intros top.
  - constructor.
  - cbn [walk_node files_under]. unfold walked_files at 1. cbn [flat_map].
    apply walk_dir_files. exact IH.
Qed.

Lemma files_under_count : forall n top,
  match n with
  | Dir _ => List.length (files_under top n) = count_files n
  | File _ => True
  end.
Proof.
  induction n as [t|es IH] using node_ind2; intros top; [exact I|].
  cbn [files_under count_files].
  induction IH as [|[name m] es Hm Hes IH]; [reflexivity|].
  cbn [flat_map map list_sum fold_right snd fst]. rewrite length_app, IH.
  f_equal. destruct m; [reflexivity | apply (Hm (os_path_join top name))].
Qed.

Lemma child_In : forall c es m, child c es = Some m -> In (c, m) es.
Proof.
  induction es as [|[n m0] es IH]; intros m H; simpl in H; [discriminate|].
  destruct (String.eqb n c) eqn:E.
  - apply String.eqb_eq in E. injection H as <-. subst n. left. reflexivity.
  - right. apply IH. exact H.
Qed.

(** Every file of the tree is among the enumerated paths. *)
Lemma files_under_complete : forall comps n top t,
  comps <> [] ->
  lookup n comps = Some (File t) ->
  In (path_below top comps) (files_under top n).
Proof.
  induction comps as [|c rest IH]; intros n top t Hne Hl; [congruence|].
  simpl in Hl. destruct n as [|es]; [discriminate|].
  destruct (child c es) as [m|] eqn:Ec; [|discriminate].
  cbn [files_under]. apply in_flat_map. exists (c, m). split; [apply child_In; exact Ec|].
  unfold path_below. cbn [fold_left fst snd].
  destruct rest as [|c' rest'].
  - simpl in Hl. injection Hl as ->. left. reflexivity.
  - destruct m as [t'|es']; [discriminate|].
    apply (IH (Dir es') (os_path_join top c) t); [discriminate | exact Hl].
Qed.

Lemma string_app_inv_head : forall a b c : string, (a ++ b = a ++ c)%string -> b = c.
Proof.
  induction a as [|x a IH]; intros b c H; [exact H|].
  simpl in H. injection H as H. apply IH. exact H.
Qed.

Lemma name_prefix_unique : forall n1 n2 r1 r2,
  Str.mem_char slash n1 = false -> Str.mem_char slash n2 = false ->
  starts_slash_or_empty r1 -> starts_slash_or_empty r2 ->
  (n1 ++ r1 = n2 ++ r2)%string -> n1 = n2.
Proof.
  induction n1 as [|a n1 IH]; intros n2 r1 r2 H1 H2 Hr1 Hr2 E.
  - destruct n2 as [|b n2]; [reflexivity|]. exfalso.
    cbn [append Str.mem_char] in E, H2. apply orb_false_iff in H2. destruct H2 as [Hb _].
    destruct Hr1 as [->|[r' ->]]; [discriminate|].
    injection E as Eb _. apply Ascii.eqb_neq in Hb. congruence.
  - destruct n2 as [|b n2].
    + exfalso. cbn [append Str.mem_char] in E, H1. apply orb_false_iff in H1. destruct H1 as [Ha _].
      destruct Hr2 as [->|[r' ->]]; [discriminate|].
      injection E as Ea _. apply Ascii.eqb_neq in Ha. congruence.
    + cbn [append Str.mem_char] in E, H1, H2. injection E as -> E.
      apply orb_false_iff in H1. apply orb_false_iff in H2.
      f_equal. eapply IH; [| | exact Hr1 | exact Hr2 | exact E]; tauto.
Qed.

Lemma good_name_inv : forall c,
  good_name c = true ->
  c <> EmptyString /\ Str.mem_char slash c = false /\ isabs c = false.
Proof.
  intros c H. unfold good_name in H. apply andb_true_iff in H. destruct H as [H1 H2].
  apply negb_true_iff in H1, H2. apply String.eqb_neq in H1.
  repeat split; try assumption.
  destruct c as [|a c]; [reflexivity|]. cbn [Str.mem_char isabs] in H2 |- *.
  apply orb_false_iff in H2. destruct H2 as [H2 _].
  rewrite Ascii.eqb_sym. exact H2.
Qed.

Lemma join_base : forall top c,
  isabs c = false -> os_path_join top c = (base top ++ c)%string.
Proof.
  intros top c H. unfold os_path_join, base. rewrite H.
  destruct top as [|a top]; [reflexivity|].
  destruct (endswith_slash (String a top)); [reflexivity|].
  rewrite PathFacts.string_app_assoc. reflexivity.
Qed.

Lemma endswith_slash_app_name : forall a c,
  c <> EmptyString -> Str.mem_char slash c = false ->
  endswith_slash (a ++ c) = false.
Proof.
  induction a as [|x a IH]; intros c Hne Hc.
  - simpl. induction c as [|y c IHc]; [congruence|].
    cbn [Str.mem_char] in Hc. apply orb_false_iff in Hc. destruct Hc as [Hy Hc].
    destruct c as [|z c].
    + cbn [append endswith_slash]. rewrite Ascii.eqb_sym. exact Hy.
    + change (endswith_slash (String y (String z c))) with (endswith_slash (String z c)).
      apply IHc; [discriminate | exact Hc].
  - simpl. destruct (a ++ c)%string eqn:E.
    + destruct a; destruct c; try discriminate. congruence.
    + rewrite <- E. apply IH; assumption.
Qed.

(** Below a directory path that does not end in a slash, every
    enumerated path is that path, a slash, and more. *)
Lemma files_under_prefix : forall n top x,
  wf n = true ->
  top <> EmptyString -> endswith_slash top = false ->
  In x (files_under top n) ->
  exists rest, x = (top ++ String slash rest)%string.
Proof.
  induction n as [t|es IH] using node_ind2; intros top x Hwf Hne Hes Hin; [destruct Hin|].
  cbn [files_under] in Hin. apply in_flat_map in Hin. destruct Hin as [[c m] [He Hx]].
  cbn [wf] in Hwf. apply andb_true_iff in Hwf. destruct Hwf as [_ Hall].
  rewrite forallb_forall in Hall. pose proof (Hall _ He) as Hc. cbn [fst snd] in Hc.
  apply andb_true_iff in Hc. destruct Hc as [Hgood Hwfm].
  destruct (good_name_inv _ Hgood) as [Hcne [Hcs Hca]].
  assert (Hj : os_path_join top c = (top ++ String slash c)%string).
  { unfold os_path_join. rewrite Hca, Hes. destruct top; [congruence | reflexivity]. }
  cbn [fst snd] in Hx. destruct m as [t|es'].
  - destruct Hx as [<-|[]]. exists c. exact Hj.
  - rewrite Forall_forall in IH. specialize (IH _ He). cbn [snd] in IH.
    destruct (IH (os_path_join top c) x Hwfm) as [rest Hr].
    + rewrite Hj. destruct top; discriminate.
    + rewrite Hj.
      change (top ++ String slash c)%string
        with (top ++ (String slash EmptyString ++ c))%string.
      rewrite <- PathFacts.string_app_assoc.
      apply endswith_slash_app_name; assumption.
    + exact Hx.
    + exists (c ++ String slash rest)%string. rewrite Hr, Hj.
      rewrite !PathFacts.string_app_assoc. reflexivity.
Qed.

(** The paths enumerated for an entry begin with the joined name of
    the entry, and go on, if at all, with a slash. *)
Lemma entry_paths_shape : forall top c m x,
  good_name c = true -> wf m = true ->
  In x (match m with
        | Dir _ => files_under (os_path_join top c) m
        | File _ => [os_path_join top c]
        end) ->
  exists r, x = (base top ++ c ++ r)%string /\ starts_slash_or_empty r.
Proof.
  intros top c m x Hgood Hwf Hx.
  destruct (good_name_inv _ Hgood) as [Hcne [Hcs Hca]].
  destruct m as [t|es].
  - destruct Hx as [<-|[]]. exists EmptyString. split; [|left; reflexivity].
    rewrite join_base by assumption. f_equal.
    clear. induction c; simpl; congruence.
  - destruct (files_under_prefix (Dir es) (os_path_join top c) x Hwf) as [rest Hr].
    + rewrite join_base by assumption.
      destruct c; [congruence|]. destruct (base top); discriminate.
    + rewrite join_base by assumption. apply endswith_slash_app_name; assumption.
    + exact Hx.
    + exists (String slash rest). split; [|right; eauto].
      rewrite Hr, join_base by assumption. rewrite PathFacts.string_app_assoc. reflexivity.
Qed.

Lemma distinct_cons : forall x l,
  distinct (x :: l) = true -> ~ In x l /\ distinct l = true.
Proof.
  intros x l H. simpl in H. apply andb_true_iff in H. destruct H as [H1 H2].
  split; [|exact H2]. intros Hin. apply negb_true_iff in H1.
  assert (existsb (String.eqb x) l = true)
    by (apply existsb_exists; exists x; split; [exact Hin | apply String.eqb_refl]).
  congruence.
Qed.

(** In a tree whose directories list each name once, no path is
    enumerated twice. *)
Lemma files_under_NoDup : forall n top,
  wf n = true -> NoDup (files_under top n).
Proof.
  induction n as [t|es IH] using node_ind2; intros top Hwf; [constructor|].
  cbn [files_under]. cbn [wf] in Hwf. apply andb_true_iff in Hwf.
  destruct Hwf as [Hdist Hall].
  induction es as [|[c m] es IHes]; [constructor|].
  cbn [flat_map fst snd].
  cbn [map fst] in Hdist. destruct (distinct_cons _ _ Hdist) as [Hnotin Hdist'].
  cbn [forallb fst snd] in Hall. apply andb_true_iff in Hall. destruct Hall as [Hcm Hall'].
  apply andb_true_iff in Hcm. destruct Hcm as [Hgood Hwfm].
  inversion IH as [|e l Hm Hrest]; subst. cbn [snd] in Hm.
  apply NoDup_app.
  - destruct m as [t|es']; [repeat constructor; intros [] | apply Hm; exact Hwfm].
  - apply IHes; assumption.
  - intros x Hx Hx'. apply in_flat_map in Hx'. destruct Hx' as [[c' m'] [He' Hx']].
    rewrite forallb_forall in Hall'. pose proof (Hall' _ He') as Hc'. cbn [fst snd] in Hc'.
    apply andb_true_iff in Hc'. destruct Hc' as [Hgood' Hwfm'].
    destruct (entry_paths_shape top c m x Hgood Hwfm Hx) as [r [Er Hr]].
    destruct (entry_paths_shape top c' m' x Hgood' Hwfm' Hx') as [r' [Er' Hr']].
    rewrite Er in Er'. apply string_app_inv_head in Er'.
    destruct (good_name_inv _ Hgood) as [_ [Hs _]].
    destruct (good_name_inv _ Hgood') as [_ [Hs' _]].
    pose proof (name_prefix_unique c c' r r' Hs Hs' Hr Hr' Er') as Heq. subst c'.
    apply Hnotin. apply in_map_iff. exists (c, m'). split; [reflexivity | exact He'].
Qed.

End WalkFacts.

(** ** The program *)

Lemma print_out_nil : forall st, print_out [] st = st.
Proof. intros [d w o e i ls]. unfold print_out. simpl. rewrite app_nil_r. reflexivity. Qed.

Lemma print_out_print_out : forall a b st,
  print_out b (print_out a st) = print_out (a ++ b) st.
Proof. intros a b st. unfold print_out. simpl. rewrite app_assoc. reflexivity. Qed.

Lemma print_err_nil : forall st, print_err [] st = st.
Proof. intros [d w o e i ls]. unfold print_err. simpl. rewrite app_nil_r. reflexivity. Qed.

Lemma apply_replacements_blank : forall replace text,
  In None replace -> apply_replacements replace text = Raise ValueError.
Proof.
  induction replace as [|[[from_ to]|] rest IH]; intros text H.
  - destruct H.
  - simpl. apply IH. destruct H as [H|H]; [discriminate | exact H].
  - reflexivity.
Qed.

Lemma apply_replacements_total : forall replace text,
  ~ In None replace -> exists out, apply_replacements replace text = Ok out.
Proof.
  induction replace as [|[[from_ to]|] rest IH]; intros text H.
  - exists text. reflexivity.
  - simpl. apply IH. intros Hin. apply H. right. exact Hin.
  - exfalso. apply H. left. reflexivity.
Qed.

Lemma apply_replacements_fixed : forall replace text,
  ~ In None replace ->
  (forall from_ to, In (Some (from_, to)) replace -> Str.replace text from_ to = text) ->
  apply_replacements replace text = Ok text.
Proof.
  induction replace as [|[[from_ to]|] rest IH]; intros text Hb H.
  - reflexivity.
  - simpl. rewrite (H from_ to) by (left; reflexivity).
    apply IH.
    + intros Hin. apply Hb. right. exact Hin.
    + intros f t Hin. apply H. right. exact Hin.
  - exfalso. apply Hb. left. reflexivity.
Qed.

Lemma apply_replacements_ok_no_blank : forall replace text out,
  apply_replacements replace text = Ok out -> ~ In None replace.
Proof.
  intros replace text out H Hin.
  rewrite (apply_replacements_blank _ _ Hin) in H. discriminate.
Qed.

Section Correctness.

Variable re_compile : string -> option (string -> bool).
Variable spawn : list string -> string -> FS.node -> proc_outcome.
Variable tempf_name : string.


Lemma first_match_none : forall ignores fn,
  (forall pat search, In (pat, search) ignores -> search fn = false) ->
  first_match ignores fn = None.
Proof.
  induction ignores as [|[pat search] rest IH]; intros fn H; simpl.
  - reflexivity.
  - rewrite (H pat search) by (left; reflexivity).
    apply IH. intros p s Hin. apply (H p s). right. exact Hin.
Qed.

Lemma select_files_all : forall ignores fns,
  (forall fn, In fn fns -> first_match ignores fn = None) ->
  select_files ignores fns = ([], fns).
Proof.
  induction fns as [|fn rest IH]; intros H; simpl.
  - reflexivity.
  - rewrite IH by (intros f Hin; apply H; right; exact Hin).
    rewrite (H fn) by (left; reflexivity). reflexivity.
Qed.

(** What the first lines of [find_files] do, by the state of the ignore file. *)
Lemma gather_found : forall path ign g st text,
  FS.read (disk st) (cwd st) (FS.os_path_join path g) = Ok text ->
  gather_ignore_paths path ign g st = extend_ignore_paths ign (load_ignore_text text) st.
Proof.
  intros path ign g st text H.
  assert (He : FS.exists_ (disk st) (cwd st) (FS.os_path_join path g) = true).
  { unfold FS.exists_. unfold FS.read in H.
    destruct (FS.stat (disk st) (cwd st) (FS.os_path_join path g)); [reflexivity | discriminate]. }
  unfold gather_ignore_paths, bind, os_path_exists, open_read.
  rewrite He, H. reflexivity.
Qed.

Lemma gather_not_found : forall path ign g st,
  FS.exists_ (disk st) (cwd st) (FS.os_path_join path g) = false ->
  gather_ignore_paths path ign g st = (st, Ok (ignore_paths_at_entry ign st)).
Proof.
  intros path ign g st H. unfold gather_ignore_paths, bind, os_path_exists.
  rewrite H. reflexivity.
Qed.

Lemma gather_frame : forall path ign g st st0 r,
  gather_ignore_paths path ign g st = (st0, r) ->
  disk st0 = disk st /\ cwd st0 = cwd st /\ stdout st0 = stdout st /\ stderr st0 = stderr st.
Proof.
  intros path ign g st st0 r H.
  unfold gather_ignore_paths, bind, os_path_exists, open_read, extend_ignore_paths in H.
  destruct (FS.exists_ (disk st) (cwd st) (FS.os_path_join path g)).
  - destruct (FS.read (disk st) (cwd st) (FS.os_path_join path g)).
    + destruct ign; injection H as <- <-; repeat split.
    + injection H as <- <-. repeat split.
  - injection H as <- <-. repeat split.
Qed.

(** After [find_files] the default list is as its first lines left it. *)
Lemma find_files_ignore_paths_kept : forall path exts ign g st st0 r0 st1 r1,
  gather_ignore_paths path ign g st = (st0, r0) ->
  find_files re_compile path exts ign g st = (st1, r1) ->
  find_files_ignore_paths st1 = find_files_ignore_paths st0.
Proof.
  intros path exts ign g st st0 r0 st1 r1 Hg H.
  unfold find_files, bind in H. rewrite Hg in H.
  destruct r0 as [sources|e]; [|injection H as <- _; reflexivity].
  unfold lift in H. destruct (compile_all re_compile sources) as [ignores|e];
    [|injection H as <- _; reflexivity].
  unfold os_walk, modify, ret in H.
  destruct (select_files ignores (walked_files (FS.walk (disk st0) (cwd st0) path))) as [msgs yielded].
  injection H as <- _. reflexivity.
Qed.

(** C10.  When the ignore file under the root can be read, [find_files]
    called without [ignore_paths] appends the patterns loaded from it to
    the default list object itself: after the call the default list is
    the one at entry followed by those patterns, and the list of pattern
    sources that any later call without [ignore_paths] compiles begins
    with them; it is not rebuilt from the five patterns of the [def]. *)
Theorem find_files_default_ignore_accumulates :
  forall path exts g st text st1 r1,
    FS.read (disk st) (cwd st) (FS.os_path_join path g) = Ok text ->
    find_files re_compile path exts DefaultIgnore g st = (st1, r1) ->
    find_files_ignore_paths st1 = find_files_ignore_paths st ++ load_ignore_text text /\
    forall path2 g2 st2 sources2,
      gather_ignore_paths path2 DefaultIgnore g2 st1 = (st2, Ok sources2) ->
      exists extra,
        sources2 = (find_files_ignore_paths st ++ load_ignore_text text) ++ extra.
Proof.
  intros path exts g st text st1 r1 Hread Hff.
  assert (Hkept : find_files_ignore_paths st1
                  = find_files_ignore_paths st ++ load_ignore_text text).
  { rewrite (find_files_ignore_paths_kept _ _ _ _ _ _ _ _ _
               (gather_found path DefaultIgnore g st text Hread) Hff).
    reflexivity. }
  split; [exact Hkept|].
  intros path2 g2 st2 sources2 Hg.
  destruct (FS.read (disk st1) (cwd st1) (FS.os_path_join path2 g2)) as [text2|e] eqn:Er.
  - rewrite (gather_found _ _ _ _ _ Er) in Hg.
    unfold extend_ignore_paths in Hg. injection Hg as _ <-.
    exists (load_ignore_text text2). simpl. rewrite Hkept. reflexivity.
  - unfold gather_ignore_paths, bind, os_path_exists, open_read in Hg.
    destruct (FS.exists_ (disk st1) (cwd st1) (FS.os_path_join path2 g2)).
    + rewrite Er in Hg. discriminate.
    + injection Hg as _ <-. exists []. simpl. rewrite Hkept, app_nil_r. reflexivity.
Qed.

(** C7.  When the root is a directory, the ignore list is gathered and
    compiled, and no compiled pattern is found in the path of any file
    below the root, [find_files] yields each file of the tree once: what
    it yields is a rearrangement of the paths of the files of the tree
    and has as many elements as the tree has files; the path of every
    file that can be reached from the root is among them, whatever its
    name ends in, and in a tree whose directories list each name once no
    path comes twice.  Nothing is printed, and the outcome is the same
    for every [extensions] argument, which takes no part in the
    traversal. *)
Theorem find_files_yields_every_file :
  forall path exts ign g st st0 sources ignores es,
    gather_ignore_paths path ign g st = (st0, Ok sources) ->
    compile_all re_compile sources = Ok ignores ->
    FS.stat (disk st) (cwd st) path = Some (FS.Dir es) ->
    (forall fn pat search,
        In fn (FS.files_under path (FS.Dir es)) ->
        In (pat, search) ignores -> search fn = false) ->
    exists yielded,
      find_files re_compile path exts ign g st = (st0, Ok yielded) /\
      Permutation yielded (FS.files_under path (FS.Dir es)) /\
      List.length yielded = FS.count_files (FS.Dir es) /\
      (forall comps t,
          comps <> [] ->
          FS.lookup (FS.Dir es) comps = Some (FS.File t) ->
          In (FS.path_below path comps) yielded) /\
      (FS.wf (FS.Dir es) = true -> NoDup yielded) /\
      forall exts',
        find_files re_compile path exts' ign g st = find_files re_compile path exts ign g st.
Proof.
  intros path exts ign g st st0 sources ignores es Hg Hc Hstat Hno.
  destruct (gather_frame _ _ _ _ _ _ Hg) as [Hd [Hw _]].
  pose proof (WalkFacts.walk_node_files (FS.Dir es) path) as Hperm.
  exists (walked_files (FS.walk_node path (FS.Dir es))).
  split; [|split; [exact Hperm | split; [|split; [|split]]]].
  - unfold find_files, bind. rewrite Hg. unfold lift. rewrite Hc.
    unfold os_walk, FS.walk. rewrite Hd, Hw, Hstat.
    rewrite select_files_all.
    + unfold modify, ret. rewrite print_err_nil. reflexivity.
    + intros fn Hin. apply first_match_none. intros pat search Hp.
      apply (Hno fn pat search); [|exact Hp].
      eapply Permutation_in; [exact Hperm | exact Hin].
  - rewrite (Permutation_length Hperm).
    apply (WalkFacts.files_under_count (FS.Dir es) path).
  - intros comps t Hne Hl.
    eapply Permutation_in; [apply Permutation_sym; exact Hperm|].
    eapply WalkFacts.files_under_complete; eauto.
  - intros Hwf.
    eapply Permutation_NoDup; [apply Permutation_sym; exact Hperm|].
    apply WalkFacts.files_under_NoDup. exact Hwf.
  - intros exts'. reflexivity.
Qed.

(** C4 (as the code has it).  For a non-empty root path that names no
    directory (it is missing, or it names a file), an ignore-file name
    that is relative, and an ignore list that compiles, [find_files]
    raises nothing: it yields the empty sequence and leaves the state,
    the diagnostics included, as it was. *)
Theorem find_files_missing_root_yields_nothing :
  forall path exts ign g st ignores,
    path <> EmptyString ->
    FS.isabs g = false ->
    FS.is_dir (FS.stat (disk st) (cwd st) path) = false ->
    compile_all re_compile (ignore_paths_at_entry ign st) = Ok ignores ->
    find_files re_compile path exts ign g st = (st, Ok []).
Proof.
  intros path exts ign g st ignores Hne Hg Hd Hc.
  assert (He : FS.exists_ (disk st) (cwd st) (FS.os_path_join path g) = false).
  { unfold FS.exists_, FS.stat.
    rewrite (PathFacts.resolve_join_not_dir _ _ _ _ Hne Hg Hd). reflexivity. }
  unfold find_files, bind. rewrite (gather_not_found _ _ _ _ He).
  unfold lift. rewrite Hc. unfold os_walk, FS.walk.
  destruct (FS.stat (disk st) (cwd st) path) as [[t|es]|]; try discriminate;
    simpl; unfold modify, ret; rewrite print_err_nil; reflexivity.
Qed.

(** One pass of the loop of [rename] on a candidate that is read and
    substituted without error. *)
Lemma rename_file_candidate :
  forall ren_fn replace dryrun diff diff_args fn st orig text,
    FS.abspath (cwd st) fn <> ren_fn ->
    FS.read (disk st) (cwd st) fn = Ok orig ->
    apply_replacements replace orig = Ok text ->
    rename_file spawn tempf_name ren_fn replace dryrun diff diff_args fn st =
    if negb (String.eqb text orig) then
      if dryrun then
        match spawn ([diff; fn; tempf_name] ++ diff_args) text (disk st) with
        | Exited _ output => (print_out output (print_out [dry_run_notice fn] st), Ok tt)
        | NotStarted => (print_out [dry_run_notice fn] st, Raise OSError)
        end
      else open_write fn text st
    else (st, Ok tt).
Proof.
  intros ren_fn replace dryrun diff diff_args fn st orig text Ha Hr Hs.
  unfold rename_file, bind, os_path_abspath.
  apply String.eqb_neq in Ha. rewrite Ha.
  unfold open_read. rewrite Hr. unfold lift. rewrite Hs.
  destruct (negb (String.eqb text orig)); [|reflexivity].
  destruct dryrun; [|reflexivity].
  unfold modify, subprocess_call, ret. simpl.
  destruct (spawn (diff :: fn :: tempf_name :: diff_args) text (disk st)); reflexivity.
Qed.

Lemma rename_file_table_itself :
  forall ren_fn replace dryrun diff diff_args fn st,
    FS.abspath (cwd st) fn = ren_fn ->
    rename_file spawn tempf_name ren_fn replace dryrun diff diff_args fn st = (st, Ok tt).
Proof.
  intros ren_fn replace dryrun diff diff_args fn st Ha.
  unfold rename_file, bind, os_path_abspath.
  apply String.eqb_eq in Ha. rewrite Ha. reflexivity.
Qed.

(** C8.  For a candidate file that is read and substituted: when the
    text is unchanged, nothing is written and nothing printed, in
    either mode.  When it differs, a dry run leaves the disk as it was,
    so that the file still reads as its original text, and prints the
    line [[dry run] Would change: ] followed by the name of the file,
    before whatever [diff] prints; a commit run prints nothing and
    rewrites the file in place: on the disk it leaves, the file reads
    as the substituted text and every other file keeps its text. *)
Theorem rename_file_effect :
  forall ren_fn replace diff diff_args fn st orig text,
    FS.abspath (cwd st) fn <> ren_fn ->
    FS.read (disk st) (cwd st) fn = Ok orig ->
    apply_replacements replace orig = Ok text ->
    (text = orig ->
     forall dryrun,
       rename_file spawn tempf_name ren_fn replace dryrun diff diff_args fn st = (st, Ok tt))
    /\
    (text <> orig ->
     (exists st' r output,
         rename_file spawn tempf_name ren_fn replace true diff diff_args fn st = (st', r) /\
         disk st' = disk st /\
         FS.read (disk st') (cwd st') fn = Ok orig /\
         stdout st' = stdout st ++ ("[dry run] Would change: " ++ fn)%string :: output /\
         stderr st' = stderr st)
     /\
     (exists st',
         rename_file spawn tempf_name ren_fn replace false diff diff_args fn st
         = (st', Ok tt) /\
         FS.read (disk st') (cwd st') fn = Ok text /\
         cwd st' = cwd st /\ stdout st' = stdout st /\ stderr st' = stderr st /\
         forall p x t,
           FS.resolve (disk st) (cwd st) fn = Some p ->
           x <> p ->
           FS.lookup (disk st) x = Some (FS.File t) ->
           FS.lookup (disk st') x = Some (FS.File t))).
Proof.
  intros ren_fn replace diff diff_args fn st orig text Ha Hr Hs. split.
  - intros -> dryrun.
    rewrite (rename_file_candidate _ _ _ _ _ _ _ _ _ Ha Hr Hs).
    rewrite String.eqb_refl. reflexivity.
  - intros Hne. apply String.eqb_neq in Hne. split.
    + rewrite (rename_file_candidate _ _ _ _ _ _ _ _ _ Ha Hr Hs). rewrite Hne. simpl.
      destruct (spawn (diff :: fn :: tempf_name :: diff_args) text (disk st)) as [status output|].
      * exists (print_out output (print_out [dry_run_notice fn] st)), (Ok tt), output.
        split; [reflexivity | split; [reflexivity | split; [exact Hr | split]]].
        -- simpl. rewrite <- app_assoc. reflexivity.
        -- reflexivity.
      * exists (print_out [dry_run_notice fn] st), (Raise OSError), [].
        split; [reflexivity | split; [reflexivity | split; [exact Hr | split; reflexivity]]].
    + destruct (FSFacts.write_existing (disk st) (cwd st) fn orig text Hr)
        as [p [d [Hres [Hput [Hw Hrd]]]]].
      exists (set_disk d st). split; [|split; [|split; [|split; [|split]]]].
      * rewrite (rename_file_candidate _ _ _ _ _ _ _ _ _ Ha Hr Hs). rewrite Hne. simpl.
        unfold open_write. rewrite Hw. reflexivity.
      * exact Hrd.
      * reflexivity.
      * reflexivity.
      * reflexivity.
      * intros p' x t Hres' Hx Hlx. rewrite Hres in Hres'. injection Hres' as <-.
        destruct (FSFacts.read_inv _ _ _ _ Hr) as [p0 [Hres0 Hl0]].
        rewrite Hres in Hres0. injection Hres0 as <-.
        cbn [set_disk disk]. eapply FSFacts.put_lookup_other; eauto.
Qed.

(** C3 (as the code has it).  In a dry run over candidates that can be
    read, with a table free of blank lines: when [diff] is started for
    every changed file, whatever status it exits with, the loop ends
    without an exception, the disk is as before and every changed file
    has its notice printed; when [diff] cannot be started for the first
    file of the list and that file is changed, the [OSError] ends the
    loop there, after that file's notice, and the remaining files are
    not looked at. *)
Theorem rename_dryrun_diff_outcome :
  forall ren_fn replace diff diff_args fns st,
    ~ In None replace ->
    (forall fn, In fn fns -> FS.abspath (cwd st) fn <> ren_fn ->
                is_ok (FS.read (disk st) (cwd st) fn) = true) ->
    ((forall argv scratch d, spawn argv scratch d <> NotStarted) ->
     exists st',
       rename_loop spawn tempf_name ren_fn replace true diff diff_args fns st = (st', Ok tt) /\
       disk st' = disk st /\
       forall fn, In fn fns ->
                  would_change ren_fn replace (disk st) (cwd st) fn ->
                  In (dry_run_notice fn) (stdout st'))
    /\
    (forall fn rest orig text,
        fns = fn :: rest ->
        FS.abspath (cwd st) fn <> ren_fn ->
        FS.read (disk st) (cwd st) fn = Ok orig ->
        apply_replacements replace orig = Ok text ->
        text <> orig ->
        spawn ([diff; fn; tempf_name] ++ diff_args) text (disk st) = NotStarted ->
        rename_loop spawn tempf_name ren_fn replace true diff diff_args fns st
        = (print_out [dry_run_notice fn] st, Raise OSError)).
Proof.
  intros ren_fn replace diff diff_args fns st Hb Hread. split.
  - intros Hspawn.
    assert (Hgen : forall l st1,
               disk st1 = disk st -> cwd st1 = cwd st ->
               (forall fn, In fn l -> FS.abspath (cwd st) fn <> ren_fn ->
                           is_ok (FS.read (disk st) (cwd st) fn) = true) ->
               exists more,
                 rename_loop spawn tempf_name ren_fn replace true diff diff_args l st1
                 = (print_out more st1, Ok tt) /\
                 forall fn, In fn l ->
                            would_change ren_fn replace (disk st) (cwd st) fn ->
                            In (dry_run_notice fn) more).
    { clear fns Hread. induction l as [|fn rest IH]; intros st1 Hd Hw Hread.
      - exists []. split; [rewrite print_out_nil; reflexivity | intros fn []].
      - assert (Hrest : forall f, In f rest -> FS.abspath (cwd st) f <> ren_fn ->
                                  is_ok (FS.read (disk st) (cwd st) f) = true)
          by (intros f Hin; apply Hread; right; exact Hin).
        cbn [rename_loop]. unfold bind at 1.
        destruct (string_dec (FS.abspath (cwd st) fn) ren_fn) as [Ha|Ha].
        + rewrite rename_file_table_itself by (rewrite Hw; exact Ha).
          destruct (IH st1 Hd Hw Hrest) as [more [Hloop Hin]].
          exists more. split; [exact Hloop|].
          intros f [<-|Hf] Hch; [destruct Hch as [Hch _]; contradiction | auto].
        + pose proof (Hread fn (or_introl eq_refl) Ha) as Hok.
          destruct (FS.read (disk st) (cwd st) fn) as [orig|] eqn:Hr; [|discriminate].
          destruct (apply_replacements_total replace orig Hb) as [text Hs].
          rewrite (rename_file_candidate ren_fn replace true diff diff_args fn st1 orig text)
            by (rewrite ?Hd, ?Hw; assumption).
          destruct (String.eqb text orig) eqn:Ete; cbn [negb].
          * apply String.eqb_eq in Ete.
            destruct (IH st1 Hd Hw Hrest) as [more [Hloop Hin]].
            exists more. split; [exact Hloop|].
            intros f [<-|Hf] Hch; [|auto].
            destruct Hch as [_ [o [t [Ho [Ht Hne]]]]].
            rewrite Hr in Ho. injection Ho as <-. rewrite Hs in Ht. injection Ht as <-.
            contradiction.
          * destruct (spawn ([diff; fn; tempf_name] ++ diff_args) text (disk st1))
              as [status output|] eqn:Hsp; [|exfalso; exact (Hspawn _ _ _ Hsp)].
            destruct (IH (print_out output (print_out [dry_run_notice fn] st1)) Hd Hw Hrest)
              as [more [Hloop Hin]].
            exists (dry_run_notice fn :: output ++ more). split.
            -- rewrite Hloop. rewrite !print_out_print_out. reflexivity.
            -- intros f [<-|Hf] Hch; [left; reflexivity|].
               right. apply in_or_app. right. auto. }
    destruct (Hgen fns st eq_refl eq_refl Hread) as [more [Hloop Hin]].
    exists (print_out more st). split; [exact Hloop | split; [reflexivity|]].
    intros fn Hf Hch. simpl. apply in_or_app. right. auto.
  - intros fn rest orig text -> Ha Hr Hs Hne Hsp.
    cbn [rename_loop]. unfold bind at 1.
    rewrite (rename_file_candidate _ _ _ _ _ _ _ _ _ Ha Hr Hs).
    apply String.eqb_neq in Hne. rewrite Hne. simpl negb. cbv iota.
    rewrite Hsp. reflexivity.
Qed.

End Correctness.

(** ** The case converter on the documented examples *)

Lemma join_chars_snoc : forall l c,
  Conv.join_chars (l ++ [c]) = String c (Conv.join_chars l).
Proof. intros l c. unfold Conv.join_chars. rewrite fold_left_app. reflexivity. Qed.

Lemma camel_loop_ret : forall delims caps s st,
  exists more, Conv.ret (Conv.camel_loop delims caps st s) = more ++ Conv.ret st.
Proof.
  induction s as [|c s IH]; intros st.
  - exists []. reflexivity.
  - simpl. destruct (IH (Conv.camel_step delims caps st c)) as [more Hm].
    assert (Hstep : Conv.ret (Conv.camel_step delims caps st c) = Conv.ret st \/
                    exists x, Conv.ret (Conv.camel_step delims caps st c) = x :: Conv.ret st).
    { unfold Conv.camel_step.
      repeat match goal with
             | |- context [if ?b then _ else _] => destruct b
             end; simpl; eauto. }
    destruct Hstep as [E|[x E]]; rewrite E in Hm.
    + exists more. exact Hm.
    + exists (more ++ [x]). rewrite Hm, <- app_assoc. reflexivity.
Qed.

(** The first character of an identifier, when it is neither the dollar
    nor a delimiter of either kind, comes out in lower case. *)
Lemma to_camel_first_lower : forall delims caps c s,
  Ascii.eqb c "$"%char = false ->
  Conv.in_delims c delims = false ->
  Str.mem_char c caps = false ->
  exists rest, Conv.to_camel delims caps (String c s) = String (Str.lower c) rest.
Proof.
  intros delims caps c s H1 H2 H3.
  unfold Conv.to_camel, Conv.camel_from. cbn [Conv.camel_loop].
  unfold Conv.camel_step. cbn [Conv.in_macro Conv.last_delim Conv.ret].
  rewrite H1, H2, H3.
  destruct (camel_loop_ret delims caps s (Conv.mk_cstate false false [Str.lower c]))
    as [more Hm].
  rewrite Hm. cbn [Conv.ret]. rewrite join_chars_snoc. eauto.
Qed.

(** C1.  On [CAP_MEAS_INPUT], with the underscore as the only delimiter
    and the default caps-delimiters, [to_camel] returns [capMeasInput]:
    both flags start false, so the first letter takes the lower-case
    branch.  The same loop entered with [last_delim] set returns the
    [CapMeasInput] of the module's docstring. *)
Theorem to_camel_CAP_MEAS_INPUT :
  Conv.to_camel ["_"] DEF_CAPS_DELIM "CAP_MEAS_INPUT" = "capMeasInput" /\
  Conv.camel_from false true ["_"] DEF_CAPS_DELIM "CAP_MEAS_INPUT" = "CapMeasInput".
Proof. split; reflexivity. Qed.

(** C6.  On [VAL_$(MACRO:C)] the macro span is passed through as it is,
    and the part before it comes out as [val], not [Val]: [to_camel]
    returns [val$(MACRO:C)]. *)
Theorem to_camel_VAL_MACRO :
  Conv.to_camel ["_"] DEF_CAPS_DELIM "VAL_$(MACRO:C)" = "val$(MACRO:C)" /\
  Conv.camel_from false true ["_"] DEF_CAPS_DELIM "VAL_$(MACRO:C)" = "Val$(MACRO:C)".
Proof. split; reflexivity. Qed.

(** C9.  [to_caps] raises [NotImplementedError] on every input and
    returns no string. *)
Theorem to_caps_not_implemented : forall s,
  Conv.to_caps s = Raise NotImplementedError /\ is_ok (Conv.to_caps s) = false.
Proof. intros s. split; reflexivity. Qed.

(** In the CAPS direction the driver stops at the first line that has a
    single token, with what was printed before it. *)
Lemma convert_lines_caps_single_token : forall delims caps token rest printed,
  Conv.convert_lines false delims caps (Some (token, token) :: rest) printed
  = (printed, Raise NotImplementedError).
Proof.
  intros. simpl. rewrite String.eqb_refl. reflexivity.
Qed.

(** ** The rename pass on tables *)

(** On a table without blank lines the pass applies every entry once,
    in the order of the table. *)
Lemma apply_replacements_pairs : forall pairs text,
  apply_replacements (map Some pairs) text
  = Ok (fold_left (fun t p => Str.replace t (fst p) (snd p)) pairs text).
Proof.
  induction pairs as [|[from_ to] rest IH]; intros text; simpl.
  - reflexivity.
  - apply IH.
Qed.

(** A line of the table is kept as the blank entry exactly when nothing
    is left of it once stripped. *)
Lemma conv_of_line_blank : forall raw,
  conv_of_line raw = None <-> Str.strip raw = EmptyString.
Proof.
  intros raw. unfold conv_of_line. destruct (Str.strip raw) as [|c s] eqn:E.
  - split; reflexivity.
  - split; [|discriminate].
    destruct (line_re_match (String c s)) as [[a b]|]; discriminate.
Qed.

(** C2.  A table with a blank line is read with the blank line kept as
    an entry, and the rename pass, in either mode, stops with a
    [ValueError] at the first candidate file, leaving the disk as it
    was. *)
Theorem rename_blank_line_raises :
  read_conv_lines Sample.table_with_blank
  = [Some ("OLD:NAME", "NEW:NAME"); None; Some ("FOO", "BAR")] /\
  forall dryrun,
    snd (rename MiniRe.re_compile Sample.diff_exits_1 Sample.tempf
                "proj/names.txt" "proj" None dryrun "diff" [] Sample.s_blank)
    = Raise ValueError /\
    disk (fst (rename MiniRe.re_compile Sample.diff_exits_1 Sample.tempf
                      "proj/names.txt" "proj" None dryrun "diff" [] Sample.s_blank))
    = disk Sample.s_blank.
Proof.
  split; [reflexivity|].
  intros [|]; split; vm_compute; reflexivity.
Qed.

(** C5 (as stated) fails: the one-entry table that turns [ab] into [b]
    has no later entry at all, yet a second pass changes [ab], the
    output of the first pass on [aab], into [b]. *)
Lemma second_pass_changes_text :
  ~ (forall text table out,
        chain_free table = true ->
        apply_replacements table text = Ok out ->
        apply_replacements table out = Ok out).
Proof.
  intros H.
  specialize (H "aab" [Some ("ab", "b")] "ab" eq_refl eq_refl).
  discriminate H.
Qed.

Module OverlapFacts.
Import Str.

Lemma prefix_nil : forall u, String.prefix "" u = true.
Proof. destruct u; reflexivity. Qed.

Lemma prefix_app_cases : forall g u x,
  String.prefix g (u ++ x) = true -> String.prefix g u = true \/ String.prefix u g = true.
Proof.
  induction g as [|b g IH]; intros u x H; [left; apply prefix_nil|].
  destruct u as [|c u]; [right; reflexivity|].
  cbn [append String.prefix] in *.
  destruct (ascii_dec b c) as [->|]; [|discriminate H].
  destruct (ascii_dec c c) as [_|Hn]; [|exfalso; apply Hn; reflexivity].
  apply (IH u x H).
Qed.

Lemma apart_prefix_app : forall g u x,
  apart g u = true -> String.prefix g (u ++ x) = false.
Proof.
  intros g u x H. unfold apart in H. apply andb_true_iff in H. destruct H as [H1 H2].
  apply negb_true_iff in H1. apply negb_true_iff in H2.
  destruct (String.prefix g (u ++ x)) eqn:E; [|reflexivity].
  destruct (prefix_app_cases _ _ _ E); congruence.
Qed.

(** A [to] that is put before a text brings no occurrence of [g]. *)
Lemma occurs_app_apart : forall g t x,
  all_ends (apart g) t = true -> occurs g (t ++ x) = occurs g x.
Proof.
  intros g t x. induction t as [|c t IH]; intros H; [reflexivity|].
  cbn [all_ends] in H. apply andb_true_iff in H. destruct H as [Ha Ht].
  change (occurs g (String c t ++ x))
    with (String.prefix g (String c t ++ x) || occurs g (t ++ x)).
  rewrite (apart_prefix_app _ _ x Ha). apply (IH Ht).
Qed.

Lemma replace_scan_match : forall a f t r,
  replace_scan (String a f) t (String a f ++ r) 0 = (t ++ replace_scan (String a f) t r 0)%string.
Proof.
  intros a f t r.
  assert (Hp : String.prefix (String a f) (String a f ++ r) = true).
  { generalize (String a f). induction s as [|c s IH]; [apply prefix_nil|].
    cbn [append String.prefix].
    destruct (ascii_dec c c) as [_|Hn]; [exact IH | exfalso; apply Hn; reflexivity]. }
  change (String a f ++ r)%string with (String a (f ++ r)) in *.
  cbn [replace_scan]. rewrite Hp. cbn [String.length].
  replace (S (String.length f) - 1) with (String.length f) by lia.
  rewrite StrFacts.replace_scan_skip. reflexivity.
Qed.

(** [g] begins the text after the replacement only where it began the
    text before. *)
Lemma prefix_replace_scan : forall a f t s g,
  all_ends (fun g' => apart g' t) g = true ->
  String.prefix g (replace_scan (String a f) t s 0) = true ->
  String.prefix g s = true.
Proof.
  intros a f t. induction s as [|c s IH]; intros g Hg H.
  - exact H.
  - destruct g as [|b g]; [apply prefix_nil|].
    cbn [all_ends] in Hg. apply andb_true_iff in Hg. destruct Hg as [Ha Hg].
    destruct (String.prefix (String a f) (String c s)) eqn:E.
    + destruct (StrFacts.prefix_split _ _ E) as [r Hr]. rewrite Hr in H.
      rewrite replace_scan_match in H.
      rewrite (apart_prefix_app _ _ _ Ha) in H. discriminate H.
    + cbn [replace_scan] in H. rewrite E in H.
      cbn [String.prefix] in *. destruct (ascii_dec b c); [|discriminate H].
      apply (IH g Hg H).
Qed.

Lemma quiet_tail : forall g f c s, quiet g f (String c s) = true -> quiet g f s = true.
Proof.
  intros g f c s H. cbn [quiet] in H. apply andb_true_iff in H. tauto.
Qed.

Lemma quiet_app : forall g f a s, quiet g f (a ++ s) = true -> quiet g f s = true.
Proof.
  induction a as [|c a IH]; intros s H; [exact H|].
  apply IH. apply (quiet_tail _ _ c). exact H.
Qed.

Lemma quiet_self : forall f s, quiet f f s = true.
Proof.
  intros f. induction s as [|c s IH]; cbn [quiet].
  - destruct (String.prefix f ""); reflexivity.
  - rewrite IH. destruct (String.prefix f (String c s)); reflexivity.
Qed.

Lemma quiet_absent : forall g f s, occurs g s = false -> quiet g f s = true.
Proof.
  intros g f. induction s as [|c s IH]; intros H; cbn [quiet].
  - rewrite (StrFacts.occurs_head _ _ H). rewrite orb_true_r. reflexivity.
  - rewrite (StrFacts.occurs_head _ _ H), (IH (StrFacts.occurs_tail _ _ _ H)).
    rewrite orb_true_r. reflexivity.
Qed.

(** One replacement leaves no occurrence of [g], when [g] began only
    where [from_] began and does not overlap [to]. *)
Lemma replace_scan_clears : forall a f t g n s,
  String.length s <= n ->
  g <> "" ->
  no_overlap g t = true ->
  quiet g (String a f) s = true ->
  occurs g (replace_scan (String a f) t s 0) = false.
Proof.
  intros a f t g n. induction n as [|n IH]; intros s Hn Hg Hno Hq.
  - destruct s; [|simpl in Hn; lia].
    destruct g; [congruence | reflexivity].
  - destruct s as [|c s]; [destruct g; [congruence | reflexivity]|].
    unfold no_overlap in Hno. apply andb_true_iff in Hno. destruct Hno as [Ht Hgt].
    destruct (String.prefix (String a f) (String c s)) eqn:E.
    + destruct (StrFacts.prefix_split _ _ E) as [r Hr]. rewrite Hr in *.
      rewrite replace_scan_match, (occurs_app_apart _ _ _ Ht).
      apply IH.
      * rewrite StrFacts.string_length_app in Hn. simpl in Hn. lia.
      * exact Hg.
      * unfold no_overlap. rewrite Ht, Hgt. reflexivity.
      * apply (quiet_app _ _ _ _ Hq).
    + assert (Hrest : occurs g (replace_scan (String a f) t s 0) = false).
      { apply IH.
        - simpl in Hn. lia.
        - exact Hg.
        - unfold no_overlap. rewrite Ht, Hgt. reflexivity.
        - apply (quiet_tail _ _ _ _ Hq). }
      assert (Hhead : String.prefix g (replace_scan (String a f) t (String c s) 0) = false).
      { destruct (String.prefix g (replace_scan (String a f) t (String c s) 0)) eqn:Ep;
          [|reflexivity].
        apply (prefix_replace_scan _ _ _ _ _ Hgt) in Ep.
        cbn [quiet] in Hq. apply andb_true_iff in Hq. destruct Hq as [Hq _].
        rewrite E, Ep in Hq. discriminate Hq. }
      cbn [replace_scan] in *. rewrite E in *.
      cbn [occurs]. rewrite Hhead, Hrest. reflexivity.
Qed.

(** An entry whose columns differ and do not overlap has both filled. *)
Lemma no_overlap_nonempty : forall f t,
  f <> t -> no_overlap f t = true -> f <> "".
Proof.
  intros f t Hne H ->. unfold no_overlap in H. apply andb_true_iff in H. destruct H as [H _].
  destruct t as [|c t]; [congruence|].
  cbn [all_ends apart String.prefix negb andb] in H. discriminate H.
Qed.

(** After the first pass no [from_] of an entry whose columns differ
    occurs in the text. *)
Lemma first_pass_clears : forall table earlier text out,
  settled earlier table = true ->
  (forall g, In g earlier -> g <> "" /\ occurs g text = false) ->
  apply_replacements table text = Ok out ->
  (forall g, In g earlier -> occurs g out = false) /\
  (forall from_ to, In (Some (from_, to)) table -> from_ = to \/ occurs from_ out = false).
Proof.
  induction table as [|[[f t]|] rest IH]; intros earlier text out Hs He H.
  - injection H as <-. split; [intros g Hg; apply (He g Hg) | intros ? ? []].
  - cbn [settled apply_replacements] in *.
    destruct (String.eqb f t) eqn:Eft.
    + apply String.eqb_eq in Eft. subst t. rewrite StrFacts.replace_same in H.
      destruct (IH earlier text out Hs He H) as [H1 H2]. split; [exact H1|].
      intros from_ to [Hin|Hin]; [left; congruence | apply H2; exact Hin].
    + apply String.eqb_neq in Eft.
      apply andb_true_iff in Hs. destruct Hs as [Hover Hs].
      assert (Hall : forall g, In g (f :: earlier) -> no_overlap g t = true)
        by (apply forallb_forall; exact Hover).
      assert (Hf : f <> "")
        by (apply (no_overlap_nonempty f t Eft); apply Hall; left; reflexivity).
      destruct f as [|a f]; [congruence|].
      cbn [replace] in H.
      assert (He' : forall g, In g (String a f :: earlier) ->
                              g <> "" /\ occurs g (replace_scan (String a f) t text 0) = false).
      { intros g Hg. 
        assert (Hgne : g <> "") by (destruct Hg as [<-|Hg]; [exact Hf | apply (He g Hg)]).
        split; [exact Hgne|].
        apply (replace_scan_clears a f t g (String.length text)); [lia | exact Hgne | |].
        - apply Hall. exact Hg.
        - destruct Hg as [<-|Hg]; [apply quiet_self | apply quiet_absent; apply (He g Hg)]. }
      destruct (IH (String a f :: earlier) _ out Hs He' H) as [H1 H2]. split.
      * intros g Hg. apply H1. right. exact Hg.
      * intros from_ to [Hin|Hin]; [|apply H2; exact Hin].
        injection Hin as <- <-. right. apply H1. left. reflexivity.
  - discriminate H.
Qed.

End OverlapFacts.

(** C5 (as the code has it).  When, among the entries of the table
    whose two columns differ, no [to] overlaps the [from_] of its own
    entry or of an earlier one (neither string occurs in the other and
    no non-empty end of one is a beginning of the other), a second
    pass over the text that the first pass produced returns that text
    unchanged.  A [to] that holds the [from_] of a later entry does no
    harm. *)
Theorem second_pass_unchanged_without_overlap :
  forall text table out,
    settled [] table = true ->
    apply_replacements table text = Ok out ->
    apply_replacements table out = Ok out.
Proof.
  intros text table out Hs H1.
  destruct (OverlapFacts.first_pass_clears table [] text out Hs
              (fun g (Hg : In g []) => match Hg with end) H1) as [_ H2].
  apply apply_replacements_fixed.
  - eapply apply_replacements_ok_no_blank; eauto.
  - intros from_ to Hin. destruct (H2 from_ to Hin) as [<-|Habs].
    + apply StrFacts.replace_same.
    + apply StrFacts.replace_absent. exact Habs.
Qed.

(** A table whose first [to] is the [from_] of its last entry, and with
    an entry of equal columns, run twice on a record declaration. *)
Lemma second_pass_unchanged_without_overlap_witness :
  settled [] [Some ("OLD:NAME", "NEW:NAME"); Some ("same", "same"); Some ("NEW:NAME", "PV:X")]
  = true /\
  apply_replacements
    [Some ("OLD:NAME", "NEW:NAME"); Some ("same", "same"); Some ("NEW:NAME", "PV:X")]
    "record(ai, OLD:NAME) same NEW:NAME"
  = Ok "record(ai, PV:X) same PV:X" /\
  apply_replacements
    [Some ("OLD:NAME", "NEW:NAME"); Some ("same", "same"); Some ("NEW:NAME", "PV:X")]
    "record(ai, PV:X) same PV:X"
  = Ok "record(ai, PV:X) same PV:X".
Proof.
  split; [reflexivity | split; [reflexivity|]].
  apply (second_pass_unchanged_without_overlap "record(ai, OLD:NAME) same NEW:NAME");
    reflexivity.
Defined.

(** The table of the counterexample is not of this kind: the end [b] of
    its [from_] is its [to]. *)
Example settled_rejects_ab_b : settled [] [Some ("ab", "b")] = false.
Proof. reflexivity. Qed.

(** ** The program on the sample tree *)

Example find_files_proj :
  snd (find_files MiniRe.re_compile "proj" DEFAULT_EXT DefaultIgnore ".gitignore" Sample.s0)
  = Ok Sample.candidates.
Proof. vm_compute. reflexivity. Qed.

Example rename_commit_proj :
  FS.read (disk (fst (rename MiniRe.re_compile Sample.diff_missing Sample.tempf
                             "proj/names.txt" "proj" None false "diff" [] Sample.s0)))
          [] "proj/a.db"
  = Ok "record(ai, NEW:NAME)".
Proof. vm_compute. reflexivity. Qed.

Lemma sample_table_no_blank : ~ In None (read_conv_lines Sample.table).
Proof. intros [H|[]]; discriminate H. Defined.

Lemma sample_candidates_readable : forall fn,
  In fn Sample.candidates ->
  FS.abspath (cwd Sample.s0) fn <> Sample.ren_fn ->
  is_ok (FS.read (disk Sample.s0) (cwd Sample.s0) fn) = true.
Proof.
  intros fn Hin _. unfold Sample.candidates in Hin. simpl in Hin.
  repeat (destruct Hin as [<-|Hin]; [vm_compute; reflexivity|]).
  destruct Hin.
Defined.

(** C4 (as stated) fails: for a root that is missing, [find_files]
    raises no [OSError]. *)
Lemma missing_root_is_not_an_error :
  ~ (forall path st,
        FS.is_dir (FS.stat (disk st) (cwd st) path) = false ->
        exists st',
          find_files MiniRe.re_compile path DEFAULT_EXT DefaultIgnore ".gitignore" st
          = (st', Raise OSError)).
Proof.
  intros H.
  destruct (H "nope" Sample.s0 eq_refl) as [st' E].
  vm_compute in E. discriminate E.
Qed.

(** [find_files] on a path that names a file of the sample tree. *)
Lemma find_files_missing_root_witness :
  FS.is_dir (FS.stat (disk Sample.s0) (cwd Sample.s0) "proj/a.db") = false /\
  find_files MiniRe.re_compile "proj/a.db" DEFAULT_EXT DefaultIgnore ".gitignore" Sample.s0
  = (Sample.s0, Ok []).
Proof.
  split; [reflexivity|].
  apply (find_files_missing_root_yields_nothing
           MiniRe.re_compile "proj/a.db" DEFAULT_EXT DefaultIgnore ".gitignore"
           Sample.s0 Sample.default_ignores).
  - discriminate.
  - reflexivity.
  - reflexivity.
  - vm_compute. reflexivity.
Defined.

(** C3 (as stated) fails: with no [diff] to start, the dry run over the
    candidates of the sample project ends with an exception. *)
Lemma diff_not_started_aborts_batch :
  ~ (forall (spawn : list string -> string -> FS.node -> proc_outcome)
            tempf_name ren_fn replace diff diff_args fns st,
        ~ In None replace ->
        (forall fn, In fn fns -> FS.abspath (cwd st) fn <> ren_fn ->
                    is_ok (FS.read (disk st) (cwd st) fn) = true) ->
        exists st',
          rename_loop spawn tempf_name ren_fn replace true diff diff_args fns st
          = (st', Ok tt)).
Proof.
  intros H.
  destruct (H Sample.diff_missing Sample.tempf Sample.ren_fn
              (read_conv_lines Sample.table) "diff" ["-y"] Sample.candidates Sample.s0
              sample_table_no_blank sample_candidates_readable) as [st' E].
  vm_compute in E. discriminate E.
Qed.

(** The dry run on the sample project with a [diff] that exits with 1. *)
Lemma rename_dryrun_diff_outcome_witness :
  (forall argv scratch d, Sample.diff_exits_1 argv scratch d <> NotStarted) /\
  exists st',
    rename_loop Sample.diff_exits_1 Sample.tempf Sample.ren_fn
                (read_conv_lines Sample.table) true "diff" ["-y"] Sample.candidates Sample.s0
    = (st', Ok tt) /\
    disk st' = disk Sample.s0 /\
    forall fn, In fn Sample.candidates ->
               would_change Sample.ren_fn (read_conv_lines Sample.table)
                            (disk Sample.s0) (cwd Sample.s0) fn ->
               In (dry_run_notice fn) (stdout st').
Proof.
  assert (Hexit : forall argv scratch d, Sample.diff_exits_1 argv scratch d <> NotStarted)
    by (intros argv scratch d; discriminate).
  split; [exact Hexit|].
  exact (proj1 (rename_dryrun_diff_outcome
                  Sample.diff_exits_1 Sample.tempf Sample.ren_fn
                  (read_conv_lines Sample.table) "diff" ["-y"] Sample.candidates Sample.s0
                  sample_table_no_blank sample_candidates_readable) Hexit).
Defined.

(** [find_files] below [plain], where no default pattern applies. *)
Lemma find_files_yields_every_file_witness :
  FS.stat (disk Sample.s0) (cwd Sample.s0) "plain"
  = Some (FS.Dir [("m.db", FS.File "record(ao, FOO)");
                  ("n.xyz", FS.File "FOO");
                  ("deep", FS.Dir [("o", FS.File "")])]) /\
  exists yielded,
    find_files MiniRe.re_compile "plain" [".db"] DefaultIgnore ".gitignore" Sample.s0
    = (Sample.s0, Ok yielded) /\
    Permutation yielded ["plain/m.db"; "plain/n.xyz"; "plain/deep/o"] /\
    NoDup yielded.
Proof.
  split; [reflexivity|].
  destruct (find_files_yields_every_file
              MiniRe.re_compile "plain" [".db"] DefaultIgnore ".gitignore"
              Sample.s0 Sample.s0 initial_ignore_paths Sample.default_ignores
              [("m.db", FS.File "record(ao, FOO)");
               ("n.xyz", FS.File "FOO");
               ("deep", FS.Dir [("o", FS.File "")])])
    as [yielded [Hff [Hperm [_ [_ [Hnodup _]]]]]].
  - reflexivity.
  - vm_compute. reflexivity.
  - reflexivity.
  - intros fn pat search Hfn Hpat.
    assert (Hall : forallb (fun f => forallb (fun ps : string * (string -> bool) => negb (snd ps f))
                                             Sample.default_ignores)
                           ["plain/m.db"; "plain/n.xyz"; "plain/deep/o"] = true)
      by (vm_compute; reflexivity).
    rewrite forallb_forall in Hall. specialize (Hall fn Hfn).
    rewrite forallb_forall in Hall. specialize (Hall (pat, search) Hpat).
    simpl in Hall. destruct (search fn); [discriminate Hall | reflexivity].
  - exists yielded. split; [exact Hff | split; [exact Hperm | apply Hnodup; reflexivity]].
Defined.

(** The default list after one call below [proj]. *)
Lemma find_files_default_ignore_accumulates_witness :
  FS.read (disk Sample.s0) (cwd Sample.s0) (FS.os_path_join "proj" ".gitignore")
  = Ok ("# build output" ++ Sample.nl ++ "*.log" ++ Sample.nl)%string /\
  find_files_ignore_paths
    (fst (find_files MiniRe.re_compile "proj" DEFAULT_EXT DefaultIgnore ".gitignore" Sample.s0))
  = initial_ignore_paths ++ [".*\.log$"].
Proof.
  split; [reflexivity|].
  exact (proj1 (find_files_default_ignore_accumulates
                  MiniRe.re_compile "proj" DEFAULT_EXT ".gitignore" Sample.s0
                  ("# build output" ++ Sample.nl ++ "*.log" ++ Sample.nl)%string
                  (fst (find_files MiniRe.re_compile "proj" DEFAULT_EXT DefaultIgnore
                                   ".gitignore" Sample.s0))
                  (snd (find_files MiniRe.re_compile "proj" DEFAULT_EXT DefaultIgnore
                                   ".gitignore" Sample.s0))
                  eq_refl (surjective_pairing _))).
Defined.

(** The patterns the first call left behind hide a file from a later
    call on a root that has no ignore file of its own. *)
Example leftover_pattern_hides_file :
  snd (find_files MiniRe.re_compile "other" DEFAULT_EXT DefaultIgnore ".gitignore" Sample.s0)
  = Ok ["other/y.log"] /\
  snd ((do _ <- find_files MiniRe.re_compile "proj" DEFAULT_EXT DefaultIgnore ".gitignore";
        find_files MiniRe.re_compile "other" DEFAULT_EXT DefaultIgnore ".gitignore")
         Sample.s0)
  = Ok [].
Proof. split; vm_compute; reflexivity. Qed.

(** The rename scenario on [proj/a.db], in both modes. *)
Lemma rename_file_effect_witness :
  FS.read (disk Sample.s0) (cwd Sample.s0) "proj/a.db" = Ok "record(ai, OLD:NAME)" /\
  apply_replacements (read_conv_lines Sample.table) "record(ai, OLD:NAME)"
  = Ok "record(ai, NEW:NAME)" /\
  (exists st' r output,
      rename_file Sample.diff_exits_1 Sample.tempf Sample.ren_fn
                  (read_conv_lines Sample.table) true "diff" ["-y"] "proj/a.db" Sample.s0
      = (st', r) /\
      FS.read (disk st') (cwd st') "proj/a.db" = Ok "record(ai, OLD:NAME)" /\
      stdout st' = "[dry run] Would change: proj/a.db" :: output) /\
  (exists st',
      rename_file Sample.diff_exits_1 Sample.tempf Sample.ren_fn
                  (read_conv_lines Sample.table) false "diff" ["-y"] "proj/a.db" Sample.s0
      = (st', Ok tt) /\
      FS.read (disk st') (cwd st') "proj/a.db" = Ok "record(ai, NEW:NAME)" /\
      FS.lookup (disk st') ["proj"; "sub"; "b.template"]
      = Some (FS.File "OLD:NAME and OLD:NAME") /\
      stdout st' = []).
Proof.
  split; [reflexivity | split; [reflexivity|]].
  destruct (rename_file_effect
              Sample.diff_exits_1 Sample.tempf Sample.ren_fn
              (read_conv_lines Sample.table) "diff" ["-y"] "proj/a.db" Sample.s0
              "record(ai, OLD:NAME)" "record(ai, NEW:NAME)") as [_ Hchanged].
  - vm_compute. discriminate.
  - reflexivity.
  - reflexivity.
  - destruct Hchanged as [[st1 [r [output [Hd [_ [Hr1 [Ho1 _]]]]]]]
                          [st2 [Hc [Hr2 [Hw2 [Ho2 [_ Hrest]]]]]]].
    + discriminate.
    + split.
      * exists st1, r, output. split; [exact Hd | split; [exact Hr1 | exact Ho1]].
      * exists st2. split; [exact Hc | split; [exact Hr2 | split; [|exact Ho2]]].
        apply (Hrest ["proj"; "a.db"] ["proj"; "sub"; "b.template"]);
          [reflexivity | discriminate | reflexivity].
Defined.

(** ** Further facts on the table reader *)

Module ConvFacts.
Import Str Txt.

Lemma lstrip_no_leading_space : forall s, starts_with_space (lstrip s) = false.
Proof.
  induction s as [|c s IH]; [reflexivity|].
  cbn [lstrip]. destruct (is_space c) eqn:E; [exact IH|]. cbn [starts_with_space]. exact E.
Qed.

Lemma rstrip_head : forall s, starts_with_space s = false -> starts_with_space (rstrip s) = false.
Proof.
  intros [|c s] H; [reflexivity|].
  cbn [rstrip]. cbn [starts_with_space] in H.
  destruct (rstrip s); [rewrite H; cbn [starts_with_space]; exact H | exact H].
Qed.

(** The stripped line does not end in whitespace. *)
Lemma rstrip_no_trailing_space : forall s a c,
  rstrip s = (a ++ String c EmptyString)%string -> is_space c = false.
Proof.
  induction s as [|d s IH]; intros a c H.
  - destruct a; discriminate H.
  - cbn [rstrip] in H. destruct (rstrip s) as [|e r] eqn:Er.
    + destruct (is_space d) eqn:Ed; [destruct a; discriminate H|].
      destruct a as [|x a]; [injection H as <-; exact Ed|].
      injection H as _ H. destruct a; discriminate H.
    + destruct a as [|x a]; [discriminate H|].
      injection H as _ H. exact (IH a c H).
Qed.

Lemma line_re_match_some : forall line a b,
  line_re_match line = Some (a, b) ->
  has_space b = false /\
  exists c, is_space c = true /\ line = (a ++ String c b)%string.
Proof.
  induction line as [|d line IH]; intros a b H; [discriminate H|].
  cbn [line_re_match] in H.
  destruct (line_re_match line) as [[a' b']|] eqn:E.
  - injection H as <- <-. destruct (IH a' b' eq_refl) as [Hb [c [Hc ->]]].
    split; [exact Hb|]. exists c. split; [exact Hc | reflexivity].
  - destruct (is_space d) eqn:Ed; [|discriminate H]. injection H as <- <-.
    split; [|exists d; split; [exact Ed | reflexivity]].
    clear -E. induction line as [|x line IHl]; [reflexivity|].
    cbn [line_re_match] in E. cbn [has_space].
    destruct (line_re_match line) as [[? ?]|]; [discriminate E|].
    destruct (is_space x); [discriminate E|]. apply IHl. reflexivity.
Qed.

Lemma line_re_match_none : forall line,
  has_space line = false -> line_re_match line = None.
Proof.
  induction line as [|d line IH]; intros H; [reflexivity|].
  cbn [has_space] in H. apply orb_false_iff in H. destruct H as [Hd Hl].
  cbn [line_re_match]. rewrite (IH Hl), Hd. reflexivity.
Qed.

Lemma line_re_match_last : forall a c b,
  is_space c = true -> has_space b = false ->
  line_re_match (a ++ String c b) = Some (a, b).
Proof.
  induction a as [|x a IH]; intros c b Hc Hb.
  - cbn [append line_re_match]. rewrite (line_re_match_none b Hb), Hc. reflexivity.
  - cbn [append line_re_match]. rewrite (IH c b Hc Hb). reflexivity.
Qed.

Lemma lstrip_id : forall s, starts_with_space s = false -> lstrip s = s.
Proof. intros [|c s] H; [reflexivity|]. cbn in H |- *. rewrite H. reflexivity. Qed.

Lemma rstrip_id_token : forall b, has_space b = false -> rstrip b = b.
Proof.
  induction b as [|c b IH]; intros H; [reflexivity|].
  cbn [has_space] in H. apply orb_false_iff in H. destruct H as [Hc Hb].
  cbn [rstrip]. rewrite (IH Hb). destruct b; [rewrite Hc|]; reflexivity.
Qed.

(** Text that ends in a non-empty token loses nothing on the right. *)
Lemma rstrip_id_app : forall a b,
  b <> EmptyString -> has_space b = false -> rstrip (a ++ b) = (a ++ b)%string.
Proof.
  induction a as [|x a IH]; intros b Hne Hb.
  - apply rstrip_id_token. exact Hb.
  - cbn [append rstrip]. rewrite (IH b Hne Hb).
    destruct (a ++ b)%string eqn:E; [|reflexivity].
    destruct a; destruct b; try discriminate E. congruence.
Qed.

End ConvFacts.

(** X1.  Whatever the line, the two columns that [read_conv_file] makes
    of it are not empty and the second holds no whitespace; either
    both are the stripped line (a line of one token), or the stripped
    line is the first column, one whitespace character and the second
    column. *)
Theorem conv_of_line_columns : forall raw from_ to,
  conv_of_line raw = Some (from_, to) ->
  from_ <> EmptyString /\ to <> EmptyString /\ Txt.has_space to = false /\
  ((from_ = Str.strip raw /\ to = Str.strip raw) \/
   exists c, Str.is_space c = true /\ Str.strip raw = (from_ ++ String c to)%string).
Proof.
  intros raw from_ to H. unfold conv_of_line in H.
  pose proof (ConvFacts.rstrip_head _ (ConvFacts.lstrip_no_leading_space raw)) as Hhead.
  fold (Str.strip raw) in Hhead.
  pose proof (ConvFacts.rstrip_no_trailing_space (Str.lstrip raw)) as Hlast.
  fold (Str.strip raw) in Hlast.
  destruct (Str.strip raw) as [|x line] eqn:Es; [discriminate H|].
  destruct (line_re_match (String x line)) as [[a b]|] eqn:Em.
  - injection H as <- <-.
    destruct (ConvFacts.line_re_match_some _ _ _ Em) as [Hb [c [Hc Hl]]].
    assert (Ha : a <> EmptyString).
    { intros ->. cbn [append] in Hl. injection Hl as -> _.
      cbn [Txt.starts_with_space] in Hhead. congruence. }
    assert (Hbne : b <> EmptyString).
    { intros ->. rewrite (Hlast a c Hl) in Hc. discriminate Hc. }
    repeat split; try assumption. right. exists c. split; assumption.
  - injection H as <- <-.
    assert (Hns : Txt.has_space (String x line) = false).
    { clear -Em. revert Em. generalize (String x line). intros s.
      induction s as [|d s IH]; intros Em; [reflexivity|].
      cbn [line_re_match] in Em. cbn [Txt.has_space].
      destruct (line_re_match s) as [[? ?]|]; [discriminate Em|].
      destruct (Str.is_space d); [discriminate Em|]. apply IH. reflexivity. }
    repeat split; try discriminate; try assumption. left. split; reflexivity.
Qed.

(** X2.  A line made of a first column that does not begin with
    whitespace, one whitespace character and a non-empty token is read
    as these two columns: the second column is the last token, and the
    first keeps whatever precedes the last whitespace character, inner
    and trailing blanks included. *)
Theorem conv_of_line_two_columns : forall from_ c to,
  from_ <> EmptyString ->
  Txt.starts_with_space from_ = false ->
  Str.is_space c = true ->
  to <> EmptyString ->
  Txt.has_space to = false ->
  conv_of_line (from_ ++ String c to) = Some (from_, to).
Proof.
  intros from_ c to Hf Hs Hc Ht Hns. unfold conv_of_line, Str.strip.
  assert (Hl : Str.lstrip (from_ ++ String c to) = (from_ ++ String c to)%string).
  { apply ConvFacts.lstrip_id. destruct from_; [congruence | exact Hs]. }
  rewrite Hl.
  change (from_ ++ String c to)%string with (from_ ++ (String c EmptyString ++ to))%string.
  rewrite <- PathFacts.string_app_assoc.
  rewrite (ConvFacts.rstrip_id_app _ _ Ht Hns).
  rewrite PathFacts.string_app_assoc. cbn [append].
  rewrite (ConvFacts.line_re_match_last from_ c to Hc Hns).
  destruct (from_ ++ String c to)%string eqn:E; [|reflexivity].
  destruct from_; discriminate E.
Qed.

(** ** Further facts on the case converter *)

Module CamelFacts.
Import Conv Camel.

Lemma camel_loop_app : forall delims caps a b st,
  camel_loop delims caps st (a ++ b) = camel_loop delims caps (camel_loop delims caps st a) b.
Proof. induction a as [|c a IH]; intros b st; [reflexivity | apply IH]. Qed.

Lemma camel_step_ret : forall delims caps im ld r c,
  camel_step delims caps (mk_cstate im ld r) c =
  let e := camel_step delims caps (mk_cstate im ld []) c in
  mk_cstate (in_macro e) (last_delim e) (ret e ++ r).
Proof.
  intros. unfold camel_step. cbn [in_macro last_delim ret].
  repeat match goal with
         | |- context [if ?b then _ else _] => destruct b
         end; reflexivity.
Qed.

(** What is appended does not depend on what was appended before. *)
Lemma camel_loop_ret_acc : forall delims caps s im ld r,
  camel_loop delims caps (mk_cstate im ld r) s =
  let e := camel_loop delims caps (mk_cstate im ld []) s in
  mk_cstate (in_macro e) (last_delim e) (ret e ++ r).
Proof.
  induction s as [|c s IH]; intros im ld r; [reflexivity|].
  cbn [camel_loop]. rewrite camel_step_ret. cbn zeta.
  destruct (camel_step delims caps (mk_cstate im ld []) c) as [im1 ld1 r1].
  cbn [in_macro last_delim ret].
  rewrite (IH im1 ld1 (r1 ++ r)), (IH im1 ld1 r1). cbn zeta.
  cbn [in_macro last_delim ret]. rewrite app_assoc. reflexivity.
Qed.

Lemma join_chars_rev : forall l acc,
  fold_left (fun a c => String c a) l acc = (join_chars l ++ acc)%string.
Proof.
  unfold join_chars. induction l as [|c l IH]; intros acc; [reflexivity|].
  cbn [fold_left]. rewrite (IH (String c acc)), (IH (String c EmptyString)).
  rewrite PathFacts.string_app_assoc. reflexivity.
Qed.

Lemma join_chars_app : forall a b,
  join_chars (a ++ b) = (join_chars b ++ join_chars a)%string.
Proof.
  intros a b. unfold join_chars at 1. rewrite fold_left_app.
  fold (join_chars a). apply join_chars_rev.
Qed.

(** The conversion of a concatenation: the conversion of the first part,
    then that of the second started from the flags the first leaves. *)
Lemma camel_from_app : forall delims caps a b im ld,
  camel_from im ld delims caps (a ++ b) =
  (camel_from im ld delims caps a ++
   camel_from (fst (flags_after im ld delims caps a)) (snd (flags_after im ld delims caps a))
              delims caps b)%string.
Proof.
  intros. unfold camel_from, flags_after. rewrite camel_loop_app. cbn [fst snd].
  destruct (camel_loop delims caps (mk_cstate im ld []) a) as [im1 ld1 r1].
  cbn [in_macro last_delim ret].
  rewrite camel_loop_ret_acc. cbn zeta. cbn [ret].
  apply join_chars_app.
Qed.

Lemma camel_from_cons : forall delims caps c s im ld,
  camel_from im ld delims caps (String c s) =
  (camel_from im ld delims caps (String c EmptyString) ++
   camel_from (fst (flags_after im ld delims caps (String c EmptyString)))
              (snd (flags_after im ld delims caps (String c EmptyString)))
              delims caps s)%string.
Proof. intros. apply (camel_from_app delims caps (String c EmptyString) s). Qed.

Lemma word_char_inv : forall delims caps c,
  word_char delims caps c = true ->
  Ascii.eqb c "$"%char = false /\ in_delims c delims = false /\ Str.mem_char c caps = false.
Proof.
  intros delims caps c H. unfold word_char in H.
  apply andb_true_iff in H. destruct H as [H H3].
  apply andb_true_iff in H. destruct H as [H1 H2].
  apply negb_true_iff in H1, H2, H3. auto.
Qed.

(** A word outside a macro: lower case, but for the first letter when
    a delimiter came just before. *)
Lemma camel_from_word : forall delims caps w ld,
  word delims caps w = true ->
  camel_from false ld delims caps w = (if ld then capitalize w else Txt.smap Str.lower w) /\
  flags_after false ld delims caps w
  = (false, match w with EmptyString => ld | _ => false end).
Proof.
  induction w as [|c w IH]; intros ld Hw.
  - split; [destruct ld; reflexivity | reflexivity].
  - cbn [word] in Hw. apply andb_true_iff in Hw. destruct Hw as [Hc Hw].
    destruct (word_char_inv _ _ _ Hc) as [H1 [H2 H3]].
    assert (Hone : camel_from false ld delims caps (String c EmptyString)
                   = String (if ld then Str.upper c else Str.lower c) EmptyString /\
                   flags_after false ld delims caps (String c EmptyString) = (false, false)).
    { unfold camel_from, flags_after. cbn [camel_loop]. unfold camel_step.
      cbn [in_macro last_delim ret]. rewrite H1, H2, H3.
      destruct ld; split; reflexivity. }
    destruct Hone as [Ho Hf].
    destruct (IH false Hw) as [IHo IHf].
    split.
    + rewrite camel_from_cons, Ho, Hf. cbn [fst snd]. rewrite IHo.
      destruct ld; reflexivity.
    + unfold flags_after in *. change (String c w) with (String c EmptyString ++ w)%string.
      rewrite camel_loop_app.
      destruct (camel_loop delims caps (mk_cstate false ld []) (String c EmptyString))
        as [im1 ld1 r1] eqn:E1.
      cbn [in_macro last_delim] in Hf. injection Hf as -> ->.
      rewrite camel_loop_ret_acc. cbn zeta. cbn [in_macro last_delim].
      rewrite IHf. destruct w; reflexivity.
Qed.

Lemma camel_from_delim : forall delims caps c s ld,
  Ascii.eqb c "$"%char = false -> in_delims c delims = true ->
  camel_from false ld delims caps (String c s) = camel_from false true delims caps s.
Proof.
  intros delims caps c s ld H1 H2. unfold camel_from. cbn [camel_loop].
  unfold camel_step at 1. cbn [in_macro last_delim ret]. rewrite H1, H2. reflexivity.
Qed.

(** Inside a macro everything up to the closing parenthesis is copied. *)
Lemma camel_from_in_macro : forall delims caps body rest ld,
  Str.mem_char ")"%char body = false ->
  camel_from true ld delims caps (body ++ String ")"%char rest) =
  (body ++ String ")"%char
     (camel_from false (if Str.mem_char ")"%char caps then true else ld) delims caps rest))%string.
Proof.
  induction body as [|c body IH]; intros rest ld Hb.
  - cbn [append]. rewrite camel_from_cons.
    assert (Hone : camel_from true ld delims caps (String ")"%char EmptyString)
                   = String ")"%char EmptyString /\
                   flags_after true ld delims caps (String ")"%char EmptyString)
                   = (false, if Str.mem_char ")"%char caps then true else ld)).
    { unfold camel_from, flags_after. cbn [camel_loop]. unfold camel_step.
      cbn [in_macro last_delim ret]. rewrite Ascii.eqb_refl. split; reflexivity. }
    destruct Hone as [-> ->]. reflexivity.
  - cbn [Str.mem_char] in Hb. apply orb_false_iff in Hb. destruct Hb as [Hc Hb].
    cbn [append]. rewrite camel_from_cons.
    assert (Hone : camel_from true ld delims caps (String c EmptyString)
                   = String c EmptyString /\
                   flags_after true ld delims caps (String c EmptyString) = (true, ld)).
    { unfold camel_from, flags_after. cbn [camel_loop]. unfold camel_step.
      cbn [in_macro last_delim ret]. rewrite Ascii.eqb_sym, Hc. split; reflexivity. }
    destruct Hone as [-> ->]. cbn [fst snd]. rewrite (IH rest ld Hb). reflexivity.
Qed.

Lemma camel_from_dollar : forall delims caps s ld,
  camel_from false ld delims caps (String "$"%char s)
  = String "$"%char (camel_from true ld delims caps s).
Proof.
  intros. rewrite camel_from_cons.
  assert (Hone : camel_from false ld delims caps (String "$"%char EmptyString)
                 = String "$"%char EmptyString /\
                 flags_after false ld delims caps (String "$"%char EmptyString) = (true, ld)).
  { unfold camel_from, flags_after. cbn [camel_loop]. unfold camel_step.
    cbn [in_macro last_delim ret]. rewrite Ascii.eqb_refl. split; reflexivity. }
  destruct Hone as [-> ->]. reflexivity.
Qed.

(** Without a dollar the scan stays outside macros. *)
Lemma flags_after_no_dollar : forall delims caps s ld,
  Str.mem_char "$"%char s = false ->
  fst (flags_after false ld delims caps s) = false.
Proof.
  induction s as [|c s IH]; intros ld H; [reflexivity|].
  cbn [Str.mem_char] in H. apply orb_false_iff in H. destruct H as [Hc Hs].
  unfold flags_after in *. cbn [camel_loop]. unfold camel_step at 1.
  cbn [in_macro last_delim ret]. rewrite Ascii.eqb_sym, Hc.
  repeat match goal with
         | |- context [if ?b then _ else _] => destruct b
         end;
    rewrite camel_loop_ret_acc; cbn zeta; cbn [in_macro fst]; apply IH; exact Hs.
Qed.

End CamelFacts.

(** X3.  A word, that is a string without dollar and without delimiter
    of either kind, is returned by [to_camel] in lower case throughout:
    its first letter is not capitalised. *)
Theorem to_camel_word_lower : forall delims caps w,
  Camel.word delims caps w = true ->
  Conv.to_camel delims caps w = Txt.smap Str.lower w.
Proof.
  intros delims caps w Hw.
  exact (proj1 (CamelFacts.camel_from_word delims caps w false Hw)).
Qed.

(** X4.  Two words joined by a delimiter come out as the first in lower
    case followed by the second capitalised, the delimiter dropped. *)
Theorem to_camel_two_words : forall delims caps w1 c w2,
  Camel.word delims caps w1 = true ->
  Camel.word delims caps w2 = true ->
  Ascii.eqb c "$"%char = false ->
  Conv.in_delims c delims = true ->
  Conv.to_camel delims caps (w1 ++ String c w2)
  = (Txt.smap Str.lower w1 ++ Camel.capitalize w2)%string.
Proof.
  intros delims caps w1 c w2 H1 H2 Hc Hd. unfold Conv.to_camel.
  rewrite CamelFacts.camel_from_app.
  destruct (CamelFacts.camel_from_word delims caps w1 false H1) as [-> ->].
  cbn [fst snd]. rewrite (CamelFacts.camel_from_delim delims caps c w2 _ Hc Hd).
  rewrite (proj1 (CamelFacts.camel_from_word delims caps w2 true H2)). reflexivity.
Qed.

(** X5.  A macro reference is copied as it stands: when the text before
    it holds no dollar, the text between the dollar and the first
    closing parenthesis goes to the output unchanged, delimiters and
    capitals included, and, the closing parenthesis being a
    caps-delimiter, the scan goes on after it as after a delimiter. *)
Theorem to_camel_macro_verbatim : forall delims caps pre body rest,
  Str.mem_char "$"%char pre = false ->
  Str.mem_char ")"%char body = false ->
  Str.mem_char ")"%char caps = true ->
  Conv.to_camel delims caps (pre ++ String "$"%char (body ++ String ")"%char rest))
  = (Conv.to_camel delims caps pre ++
     String "$"%char (body ++ String ")"%char (Conv.camel_from false true delims caps rest)))%string.
Proof.
  intros delims caps pre body rest Hpre Hbody Hcaps. unfold Conv.to_camel.
  rewrite CamelFacts.camel_from_app. f_equal.
  pose proof (CamelFacts.flags_after_no_dollar delims caps pre false Hpre) as Him.
  destruct (Camel.flags_after false false delims caps pre) as [im ld].
  cbn [fst snd] in *. subst im.
  rewrite CamelFacts.camel_from_dollar, (CamelFacts.camel_from_in_macro _ _ _ _ _ Hbody).
  rewrite Hcaps. reflexivity.
Qed.

(** ** Further facts on the conversion driver *)

(** X6.  In the camel direction [convert_case] never raises and prints
    one line for every line of the table, in order: an empty line for a
    blank one, the two columns unchanged when they differ, and the
    first column with its conversion when the line held one token. *)
Theorem convert_case_camel_lines : forall text delims caps,
  Conv.convert_case_text text true delims caps
  = (map (Driver.shown_camel (Conv.effective_delims delims) caps) (read_conv_lines text),
     Ok tt).
Proof.
  intros text delims caps. unfold Conv.convert_case_text.
  generalize (Conv.effective_delims delims) as d.
  generalize (read_conv_lines text) as lines. intros lines d.
  change (map (Driver.shown_camel d caps) lines)
    with ([] ++ map (Driver.shown_camel d caps) lines).
  generalize (@nil string) as printed.
  induction lines as [|[[from_ to]|] lines IH]; intros printed.
  - cbn [Conv.convert_lines map]. rewrite app_nil_r. reflexivity.
  - cbn [Conv.convert_lines map Driver.shown_camel].
    destruct (String.eqb from_ to); rewrite IH, <- app_assoc; reflexivity.
  - cbn [Conv.convert_lines map Driver.shown_camel].
    rewrite IH, <- app_assoc. reflexivity.
Qed.

Lemma convert_lines_caps_prefix : forall delims caps pre rest printed,
  existsb Driver.single_token pre = false ->
  Conv.convert_lines false delims caps (pre ++ rest) printed
  = Conv.convert_lines false delims caps rest (printed ++ map Driver.shown_as_read pre).
Proof.
  induction pre as [|[[from_ to]|] pre IH]; intros rest printed H.
  - cbn [map app]. rewrite app_nil_r. reflexivity.
  - cbn [existsb Driver.single_token] in H. apply orb_false_iff in H. destruct H as [Hne H].
    cbn [app Conv.convert_lines map Driver.shown_as_read]. rewrite Hne.
    rewrite (IH rest _ H), <- app_assoc. reflexivity.
  - cbn [existsb Driver.single_token] in H. cbn [orb] in H.
    cbn [app Conv.convert_lines map Driver.shown_as_read].
    rewrite (IH rest _ H), <- app_assoc. reflexivity.
Qed.

(** X7.  In the CAPS direction the driver goes through exactly the
    tables without a one-token line, printing every line as it was
    read; at the first line of one token it stops with
    [NotImplementedError], the lines before it printed. *)
Theorem convert_lines_caps_outcome : forall delims caps lines printed,
  (existsb Driver.single_token lines = false ->
   Conv.convert_lines false delims caps lines printed
   = (printed ++ map Driver.shown_as_read lines, Ok tt))
  /\
  (forall pre l post,
      lines = pre ++ l :: post ->
      existsb Driver.single_token pre = false ->
      Driver.single_token l = true ->
      Conv.convert_lines false delims caps lines printed
      = (printed ++ map Driver.shown_as_read pre, Raise NotImplementedError)).
Proof.
  intros delims caps lines printed. split.
  - intros H. rewrite <- (app_nil_r lines) at 1.
    rewrite (convert_lines_caps_prefix _ _ _ _ _ H). reflexivity.
  - intros pre l post -> Hpre Hl.
    rewrite (convert_lines_caps_prefix _ _ _ _ _ Hpre).
    destruct l as [[from_ to]|]; [|discriminate Hl].
    cbn [Driver.single_token] in Hl. cbn [Conv.convert_lines]. rewrite Hl. reflexivity.
Qed.

(** ** Further facts on the ignore file *)

Module GlobFacts.
Import Str Txt.

Lemma string_app_nil_r : forall s : string, (s ++ EmptyString)%string = s.
Proof. induction s as [|c s IH]; [reflexivity | cbn [append]; rewrite IH; reflexivity]. Qed.

Lemma prefix_single : forall a c s,
  String.prefix (String a EmptyString) (String c s) = Ascii.eqb c a.
Proof.
  intros a c s. cbn [String.prefix].
  destruct (ascii_dec a c) as [->|Hne].
  - rewrite Ascii.eqb_refl. destruct s; reflexivity.
  - symmetry. apply Ascii.eqb_neq. congruence.
Qed.

(** Replacing a character is done character by character. *)
Lemma replace_single : forall s a new,
  replace s (String a EmptyString) new
  = expand (fun c => if Ascii.eqb c a then new else String c EmptyString) s.
Proof.
  intros s a new. unfold replace.
  induction s as [|c s IH]; [reflexivity|].
  cbn [replace_scan expand]. rewrite prefix_single.
  cbn [String.length Nat.sub]. destruct (Ascii.eqb c a); rewrite IH; reflexivity.
Qed.

Lemma expand_app : forall f a b, expand f (a ++ b) = (expand f a ++ expand f b)%string.
Proof.
  induction a as [|c a IH]; intros b; [reflexivity|].
  cbn [append expand]. rewrite IH, PathFacts.string_app_assoc. reflexivity.
Qed.

Lemma expand_expand : forall f g s,
  expand g (expand f s) = expand (fun c => expand g (f c)) s.
Proof.
  induction s as [|c s IH]; [reflexivity|].
  cbn [expand]. rewrite expand_app, IH. reflexivity.
Qed.

Lemma expand_ext : forall f g s, (forall c, f c = g c) -> expand f s = expand g s.
Proof.
  intros f g s H. induction s as [|c s IH]; [reflexivity|].
  cbn [expand]. rewrite H, IH. reflexivity.
Qed.

Lemma two_replaces : forall line,
  replace (replace line "." "\.") "*" ".*" = expand Glob.glob_char line.
Proof.
  intros line. rewrite !replace_single, expand_expand. apply expand_ext.
  intros c. unfold Glob.glob_char.
  destruct (Ascii.eqb c "."%char) eqn:E1; [reflexivity|].
  cbn [expand]. rewrite string_app_nil_r. reflexivity.
Qed.

End GlobFacts.

(** X8.  [load_ignore_file] passes over a line that is blank or begins
    with the hash sign once stripped; of any other line it makes the
    pattern in which every dot is backslash-dot, every star dot-star,
    every other character, the other pattern operators among them,
    itself, and which ends with a dollar. *)
Theorem ignore_of_line_translation : forall raw,
  ignore_of_line raw =
  match Str.strip raw with
  | EmptyString => None
  | String c rest =>
      if Ascii.eqb c "#"%char then None
      else Some (Txt.expand Glob.glob_char (String c rest) ++ "$")%string
  end.
Proof.
  intros raw. unfold ignore_of_line.
  destruct (Str.strip raw) as [|c rest]; [reflexivity|].
  unfold Str.startswith. rewrite GlobFacts.prefix_single.
  destruct (Ascii.eqb c "#"%char); [reflexivity|].
  rewrite GlobFacts.two_replaces. reflexivity.
Qed.

(** ** Further facts on file discovery *)

Lemma first_match_ignored : forall ignores fn,
  first_match ignores fn = None <-> Select.ignored ignores fn = false.
Proof.
  induction ignores as [|[pat search] rest IH]; intros fn; cbn [first_match Select.ignored existsb snd].
  - tauto.
  - destruct (search fn); cbn [orb]; [split; discriminate | apply IH].
Qed.

(** The loop of [find_files] as two filters of the walked paths. *)
Lemma select_files_filters : forall ignores fns,
  select_files ignores fns
  = (map (Select.skip_message ignores) (filter (Select.ignored ignores) fns),
     filter (fun fn => negb (Select.ignored ignores fn)) fns).
Proof.
  induction fns as [|fn rest IH]; [reflexivity|].
  cbn [select_files filter]. rewrite IH.
  destruct (first_match ignores fn) as [pat|] eqn:E.
  - assert (Hi : Select.ignored ignores fn = true).
    { destruct (Select.ignored ignores fn) eqn:Ei; [reflexivity|].
      apply first_match_ignored in Ei. congruence. }
    rewrite Hi. cbn [negb map]. unfold Select.skip_message. rewrite E. reflexivity.
  - apply first_match_ignored in E. rewrite E. reflexivity.
Qed.

Lemma read_raises_OSError : forall d w s e, FS.read d w s = Raise e -> e = OSError.
Proof.
  intros d w s e H. unfold FS.read in H.
  destruct (FS.stat d w s) as [[t|es]|]; congruence.
Qed.

(** What the first lines of [find_files] return and leave behind. *)
Lemma gather_outcome : forall path ign g st st0 r,
  gather_ignore_paths path ign g st = (st0, r) ->
  (exists extra, find_files_ignore_paths st0 = find_files_ignore_paths st ++ extra) /\
  (forall l, ign = GivenIgnore l -> find_files_ignore_paths st0 = find_files_ignore_paths st) /\
  match r with
  | Ok sources => ign = DefaultIgnore -> sources = find_files_ignore_paths st0
  | Raise e => e = OSError
  end.
Proof.
  intros path ign g st st0 r H.
  unfold gather_ignore_paths, bind, os_path_exists, open_read, extend_ignore_paths in H.
  destruct (FS.exists_ (disk st) (cwd st) (FS.os_path_join path g)).
  - destruct (FS.read (disk st) (cwd st) (FS.os_path_join path g)) as [text|e] eqn:Er.
    + destruct ign as [|l]; injection H as <- <-.
      * split; [eexists; reflexivity | split; [discriminate | reflexivity]].
      * split; [exists []; rewrite app_nil_r; reflexivity | split; [reflexivity | discriminate]].
    + injection H as <- <-.
      split; [exists []; rewrite app_nil_r; reflexivity | split; [reflexivity|]].
      eapply read_raises_OSError; eauto.
  - injection H as <- <-.
    split; [exists []; rewrite app_nil_r; reflexivity | split; [reflexivity|]].
    intros ->. reflexivity.
Qed.

Section MoreDiscovery.

Variable re_compile : string -> option (string -> bool).

Lemma compile_all_raises : forall pats e,
  compile_all re_compile pats = Raise e -> e = ReError.
Proof.
  induction pats as [|p rest IH]; intros e H; [discriminate H|].
  cbn [compile_all] in H. destruct (re_compile p); [|congruence].
  destruct (compile_all re_compile rest) as [l|e']; [discriminate H|].
  injection H as <-. apply IH. reflexivity.
Qed.

(** A pattern that is refused is refused in every longer list. *)
Lemma compile_all_app_raises : forall a b e,
  compile_all re_compile a = Raise e -> compile_all re_compile (a ++ b) = Raise e.
Proof.
  induction a as [|p a IH]; intros b e H; [discriminate H|].
  cbn [compile_all app] in *. destruct (re_compile p); [|exact H].
  destruct (compile_all re_compile a) as [l|e']; [discriminate H|].
  injection H as <-. rewrite (IH b e' eq_refl). reflexivity.
Qed.

(** [find_files] by what its first lines and the compilation give. *)
Lemma find_files_unfold : forall path exts ign g st,
  find_files re_compile path exts ign g st =
  match gather_ignore_paths path ign g st with
  | (st0, Ok sources) =>
      match compile_all re_compile sources with
      | Ok ignores =>
          let walked := walked_files (FS.walk (disk st0) (cwd st0) path) in
          (print_err (fst (select_files ignores walked)) st0,
           Ok (snd (select_files ignores walked)))
      | Raise e => (st0, Raise e)
      end
  | (st0, Raise e) => (st0, Raise e)
  end.
Proof.
  intros. unfold find_files, bind.
  destruct (gather_ignore_paths path ign g st) as [st0 [sources|e]]; [|reflexivity].
  unfold lift. destruct (compile_all re_compile sources) as [ignores|e]; [|reflexivity].
  unfold os_walk, modify, ret. cbn zeta.
  destruct (select_files ignores (walked_files (FS.walk (disk st0) (cwd st0) path)));
    reflexivity.
Qed.

(** [find_files] keeps the disk, the working directory and the standard
    output. *)
Lemma find_files_keeps : forall path exts ign g st st' r,
  find_files re_compile path exts ign g st = (st', r) ->
  disk st' = disk st /\ cwd st' = cwd st /\ stdout st' = stdout st.
Proof.
  intros path exts ign g st st' r H. rewrite find_files_unfold in H.
  destruct (gather_ignore_paths path ign g st) as [st0 r0] eqn:Hg.
  destruct (gather_frame _ _ _ _ _ _ Hg) as [Hd [Hw [Ho _]]].
  destruct r0 as [sources|e]; [|injection H as <- _; auto].
  destruct (compile_all re_compile sources) as [ignores|e]; [|injection H as <- _; auto].
  cbn zeta in H. injection H as <- _. auto.
Qed.

(** What the first lines of [find_files] do to the list objects: the
    one bound to [ignore_paths] grows by the patterns of the ignore file
    when that file is read, and stays as it is otherwise; no other list
    object changes. *)
Lemma gather_lists : forall path ign g st st0 r,
  gather_ignore_paths path ign g st = (st0, r) ->
  ignore_paths_at_entry ign st0
  = ignore_paths_at_entry ign st
    ++ match FS.read (disk st) (cwd st) (FS.os_path_join path g) with
       | Ok text => load_ignore_text text
       | Raise _ => []
       end /\
  match ign with
  | DefaultIgnore => lists st0 = lists st
  | GivenIgnore obj =>
      find_files_ignore_paths st0 = find_files_ignore_paths st /\
      forall other, other <> obj -> list_at other (lists st0) = list_at other (lists st)
  end.
Proof.
  intros path ign g st st0 r H.
  unfold gather_ignore_paths, bind, os_path_exists, open_read, extend_ignore_paths in H.
  destruct (FS.exists_ (disk st) (cwd st) (FS.os_path_join path g)) eqn:Ex.
  - destruct (FS.read (disk st) (cwd st) (FS.os_path_join path g)) as [text|e] eqn:Er.
    + destruct ign as [|obj]; injection H as <- _.
      * split; reflexivity.
      * cbn [ignore_paths_at_entry set_list lists list_at find_files_ignore_paths].
        rewrite Nat.eqb_refl. split; [reflexivity | split; [reflexivity|]].
        intros other Hne. destruct (Nat.eqb obj other) eqn:E; [|reflexivity].
        apply Nat.eqb_eq in E. congruence.
    + injection H as <- _. rewrite app_nil_r.
      split; [reflexivity | destruct ign; [reflexivity | split; reflexivity]].
  - injection H as <- _.
    assert (Er : exists e, FS.read (disk st) (cwd st) (FS.os_path_join path g) = Raise e).
    { unfold FS.exists_ in Ex. unfold FS.read.
      destruct (FS.stat (disk st) (cwd st) (FS.os_path_join path g)); [discriminate Ex|].
      eexists; reflexivity. }
    destruct Er as [e ->]. rewrite app_nil_r.
    split; [reflexivity | destruct ign; [reflexivity | split; reflexivity]].
Qed.

(** X9.  [find_files] writes no file, does not move the working
    directory and prints nothing on the standard output.  Whatever its
    outcome, it only adds lines to the diagnostics and patterns to the
    list object bound to [ignore_paths]: that object, the default one or
    the caller's own, holds afterwards what it held at entry followed by
    the patterns of the ignore file when that file could be read, and
    is as it was otherwise.  With a list of the caller's the default
    list and every other list object are as they were; with the
    default one no list object of a caller changes. *)
Theorem find_files_frame : forall path exts ign g st st' r,
  find_files re_compile path exts ign g st = (st', r) ->
  disk st' = disk st /\ cwd st' = cwd st /\ stdout st' = stdout st /\
  (exists msgs, stderr st' = stderr st ++ msgs) /\
  ignore_paths_at_entry ign st'
  = ignore_paths_at_entry ign st
    ++ match FS.read (disk st) (cwd st) (FS.os_path_join path g) with
       | Ok text => load_ignore_text text
       | Raise _ => []
       end /\
  match ign with
  | DefaultIgnore => lists st' = lists st
  | GivenIgnore obj =>
      find_files_ignore_paths st' = find_files_ignore_paths st /\
      forall other, other <> obj -> list_at other (lists st') = list_at other (lists st)
  end.
Proof.
  intros path exts ign g st st' r H. rewrite find_files_unfold in H.
  destruct (gather_ignore_paths path ign g st) as [st0 r0] eqn:Hg.
  destruct (gather_frame _ _ _ _ _ _ Hg) as [Hd [Hw [Ho He]]].
  destruct (gather_lists _ _ _ _ _ _ Hg) as [Hobj Hrest].
  assert (Hsame : find_files_ignore_paths st' = find_files_ignore_paths st0 ->
                  lists st' = lists st0 ->
                  ignore_paths_at_entry ign st'
                  = ignore_paths_at_entry ign st
                    ++ match FS.read (disk st) (cwd st) (FS.os_path_join path g) with
                       | Ok text => load_ignore_text text
                       | Raise _ => []
                       end /\
                  match ign with
                  | DefaultIgnore => lists st' = lists st
                  | GivenIgnore obj =>
                      find_files_ignore_paths st' = find_files_ignore_paths st /\
                      forall other, other <> obj ->
                                    list_at other (lists st') = list_at other (lists st)
                  end).
  { intros Hi Hl. split.
    - rewrite <- Hobj. destruct ign; cbn [ignore_paths_at_entry]; congruence.
    - destruct ign as [|obj]; [congruence|].
      destruct Hrest as [Hdef Hoth]. split; [congruence|].
      intros other Hne. rewrite Hl. apply Hoth. exact Hne. }
  destruct r0 as [sources|e].
  - destruct (compile_all re_compile sources) as [ignores|e].
    + cbn zeta in H. injection H as <- _.
      cbn [print_err disk cwd stdout stderr find_files_ignore_paths lists] in *.
      split; [exact Hd | split; [exact Hw | split; [exact Ho | split]]].
      * eexists. rewrite He. reflexivity.
      * apply Hsame; reflexivity.
    + injection H as <- _.
      split; [exact Hd | split; [exact Hw | split; [exact Ho | split]]].
      * exists []. rewrite app_nil_r. exact He.
      * apply Hsame; reflexivity.
  - injection H as <- _.
    split; [exact Hd | split; [exact Hw | split; [exact Ho | split]]].
    + exists []. rewrite app_nil_r. exact He.
    + apply Hsame; reflexivity.
Qed.

(** X10.  Once the ignore list is gathered and compiled, [find_files]
    yields, in the order of the walk, exactly the walked paths in which
    no compiled pattern is found, and prints one diagnostic, naming the
    first pattern found, for each of the others; so no yielded path is
    matched by any pattern. *)
Theorem find_files_selection : forall path exts ign g st st0 sources ignores,
  gather_ignore_paths path ign g st = (st0, Ok sources) ->
  compile_all re_compile sources = Ok ignores ->
  let walked := walked_files (FS.walk (disk st) (cwd st) path) in
  find_files re_compile path exts ign g st
  = (print_err (map (Select.skip_message ignores) (filter (Select.ignored ignores) walked)) st0,
     Ok (filter (fun fn => negb (Select.ignored ignores fn)) walked)) /\
  forall fn pat search,
    In fn (filter (fun fn => negb (Select.ignored ignores fn)) walked) ->
    In (pat, search) ignores -> search fn = false.
Proof.
  intros path exts ign g st st0 sources ignores Hg Hc walked. split.
  - rewrite find_files_unfold, Hg, Hc. cbn zeta.
    destruct (gather_frame _ _ _ _ _ _ Hg) as [Hd [Hw _]]. rewrite Hd, Hw.
    fold walked. rewrite select_files_filters. reflexivity.
  - intros fn pat search Hin Hp. apply filter_In in Hin. destruct Hin as [_ Hn].
    apply negb_true_iff in Hn. unfold Select.ignored in Hn.
    destruct (search fn) eqn:Es; [|reflexivity].
    assert (existsb (fun ps : string * (string -> bool) => snd ps fn) ignores = true)
      by (apply existsb_exists; exists (pat, search); split; [exact Hp | exact Es]).
    congruence.
Qed.

(** X11.  A refused pattern stays: when a call of [find_files] without
    [ignore_paths] has raised [re.error], the default list holds the
    refused pattern, and every later call without [ignore_paths], on
    any root, raises as well and yields nothing. *)
Theorem find_files_refused_pattern_stays : forall path exts g st st1,
  find_files re_compile path exts DefaultIgnore g st = (st1, Raise ReError) ->
  forall path2 exts2 g2 st2,
    find_files_ignore_paths st2 = find_files_ignore_paths st1 ->
    exists st3 e, find_files re_compile path2 exts2 DefaultIgnore g2 st2 = (st3, Raise e).
Proof.
  intros path exts g st st1 H path2 exts2 g2 st2 Hsame.
  assert (Hbad : compile_all re_compile (find_files_ignore_paths st1) = Raise ReError).
  { rewrite find_files_unfold in H.
    destruct (gather_ignore_paths path DefaultIgnore g st) as [st0 r0] eqn:Hg.
    destruct (gather_outcome _ _ _ _ _ _ Hg) as [_ [_ Hr]].
    destruct r0 as [sources|e]; [|injection H as _ He; congruence].
    destruct (compile_all re_compile sources) as [ignores|e] eqn:Hc;
      [cbn zeta in H; discriminate H|].
    injection H as <- ->. rewrite <- (Hr eq_refl). exact Hc. }
  rewrite find_files_unfold.
  destruct (gather_ignore_paths path2 DefaultIgnore g2 st2) as [st3 r3] eqn:Hg2.
  destruct (gather_outcome _ _ _ _ _ _ Hg2) as [[extra Hex] [_ Hr]].
  destruct r3 as [sources2|e]; [|eauto].
  rewrite (Hr eq_refl), Hex, Hsame.
  rewrite (compile_all_app_raises _ extra _ Hbad). eauto.
Qed.

End MoreDiscovery.

(** ** Further facts on the rename pass *)

(** X12.  A table that is the concatenation of two tables acts as the
    first followed by the second: the pass with the second table is run
    on the text the first produced, and an error of the first is the
    error of the whole. *)
Theorem apply_replacements_app : forall t1 t2 text,
  apply_replacements (t1 ++ t2) text =
  match apply_replacements t1 text with
  | Ok mid => apply_replacements t2 mid
  | Raise e => Raise e
  end.
Proof.
  induction t1 as [|[[from_ to]|] t1 IH]; intros t2 text.
  - reflexivity.
  - cbn [app apply_replacements]. apply IH.
  - reflexivity.
Qed.

(** One pass of the loop of [rename], case by case. *)
Lemma rename_file_unfold :
  forall (spawn : list string -> string -> FS.node -> proc_outcome) tempf_name
         ren_fn replace dryrun diff diff_args fn st,
  rename_file spawn tempf_name ren_fn replace dryrun diff diff_args fn st =
  if String.eqb (FS.abspath (cwd st) fn) ren_fn then (st, Ok tt)
  else
    match FS.read (disk st) (cwd st) fn with
    | Raise e => (st, Raise e)
    | Ok orig =>
        match apply_replacements replace orig with
        | Raise e => (st, Raise e)
        | Ok text =>
            if String.eqb text orig then (st, Ok tt)
            else if dryrun then
              match spawn ([diff; fn; tempf_name] ++ diff_args) text (disk st) with
              | Exited _ output =>
                  (print_out output (print_out [dry_run_notice fn] st), Ok tt)
              | NotStarted => (print_out [dry_run_notice fn] st, Raise OSError)
              end
            else open_write fn text st
        end
    end.
Proof.
  intros. unfold rename_file, bind, os_path_abspath.
  destruct (String.eqb (FS.abspath (cwd st) fn) ren_fn); [reflexivity|].
  unfold open_read. destruct (FS.read (disk st) (cwd st) fn) as [orig|e]; [|reflexivity].
  unfold lift. destruct (apply_replacements replace orig) as [text|e]; [|reflexivity].
  destruct (String.eqb text orig); [reflexivity|]. cbn [negb].
  destruct dryrun; [|reflexivity].
  unfold modify, subprocess_call, ret. cbn [disk print_out].
  destruct (spawn ([diff; fn; tempf_name] ++ diff_args) text (disk st)); reflexivity.
Qed.

Section MoreRename.

Variable re_compile : string -> option (string -> bool).
Variable spawn : list string -> string -> FS.node -> proc_outcome.
Variable tempf_name : string.

Lemma rename_file_dry_frame : forall ren_fn replace diff diff_args fn st,
  disk (fst (rename_file spawn tempf_name ren_fn replace true diff diff_args fn st)) = disk st /\
  cwd (fst (rename_file spawn tempf_name ren_fn replace true diff diff_args fn st)) = cwd st.
Proof.
  intros. rewrite rename_file_unfold.
  destruct (String.eqb (FS.abspath (cwd st) fn) ren_fn); [split; reflexivity|].
  destruct (FS.read (disk st) (cwd st) fn) as [orig|e]; [|split; reflexivity].
  destruct (apply_replacements replace orig) as [text|e]; [|split; reflexivity].
  destruct (String.eqb text orig); [split; reflexivity|].
  destruct (spawn ([diff; fn; tempf_name] ++ diff_args) text (disk st)); split; reflexivity.
Qed.

Lemma rename_loop_dry_frame : forall ren_fn replace diff diff_args fns st,
  disk (fst (rename_loop spawn tempf_name ren_fn replace true diff diff_args fns st)) = disk st /\
  cwd (fst (rename_loop spawn tempf_name ren_fn replace true diff diff_args fns st)) = cwd st.
Proof.
  induction fns as [|fn rest IH]; intros st; [split; reflexivity|].
  cbn [rename_loop]. unfold bind.
  destruct (rename_file_dry_frame ren_fn replace diff diff_args fn st) as [Hd Hw].
  destruct (rename_file spawn tempf_name ren_fn replace true diff diff_args fn st)
    as [st1 [[]|e]]; cbn [fst] in Hd, Hw.
  - destruct (IH st1) as [Hd' Hw']. rewrite Hd', Hw'. split; assumption.
  - split; assumption.
Qed.

(** X13.  A dry run writes nothing: however [rename] ends, with
    whatever table, tree and [diff], the disk after it is the disk
    before it. *)
Theorem rename_dryrun_writes_nothing : forall ren_fn path add_ext diff diff_args st,
  disk (fst (rename re_compile spawn tempf_name ren_fn path add_ext true diff diff_args st))
  = disk st.
Proof.
  intros. unfold rename. unfold bind at 1. unfold os_path_abspath at 1.
  unfold bind at 1. unfold open_read at 1.
  destruct (FS.read (disk st) (cwd st) (FS.abspath (cwd st) ren_fn)) as [table|e];
    [|reflexivity].
  unfold bind at 1.
  destruct (find_files re_compile path
                       (DEFAULT_EXT ++ match add_ext with Some l => l | None => [] end)
                       DefaultIgnore ".gitignore" st) as [st1 r] eqn:Hff.
  destruct (find_files_keeps _ _ _ _ _ _ _ _ Hff) as [Hd _].
  destruct r as [fns|e]; [|exact Hd].
  rewrite (proj1 (rename_loop_dry_frame _ _ _ _ fns st1)). exact Hd.
Qed.

Lemma rename_file_commit_any_diff :
  forall spawn2 tempf2 ren_fn replace diff diff2 diff_args diff_args2 fn st,
    rename_file spawn tempf_name ren_fn replace false diff diff_args fn st
    = rename_file spawn2 tempf2 ren_fn replace false diff2 diff_args2 fn st /\
    stdout (fst (rename_file spawn tempf_name ren_fn replace false diff diff_args fn st))
    = stdout st.
Proof.
  intros. rewrite !rename_file_unfold.
  destruct (String.eqb (FS.abspath (cwd st) fn) ren_fn); [split; reflexivity|].
  destruct (FS.read (disk st) (cwd st) fn) as [orig|e]; [|split; reflexivity].
  destruct (apply_replacements replace orig) as [text|e]; [|split; reflexivity].
  destruct (String.eqb text orig); [split; reflexivity|].
  split; [reflexivity|]. unfold open_write.
  destruct (FS.write (disk st) (cwd st) fn text); reflexivity.
Qed.

Lemma rename_loop_commit_any_diff :
  forall spawn2 tempf2 ren_fn replace diff diff2 diff_args diff_args2 fns st,
    rename_loop spawn tempf_name ren_fn replace false diff diff_args fns st
    = rename_loop spawn2 tempf2 ren_fn replace false diff2 diff_args2 fns st /\
    stdout (fst (rename_loop spawn tempf_name ren_fn replace false diff diff_args fns st))
    = stdout st.
Proof.
  intros spawn2 tempf2 ren_fn replace diff diff2 diff_args diff_args2.
  induction fns as [|fn rest IH]; intros st; [split; reflexivity|].
  cbn [rename_loop]. unfold bind.
  destruct (rename_file_commit_any_diff spawn2 tempf2 ren_fn replace diff diff2
                                         diff_args diff_args2 fn st) as [<- Ho].
  destruct (rename_file spawn tempf_name ren_fn replace false diff diff_args fn st)
    as [st1 [[]|e]]; cbn [fst] in Ho.
  - destruct (IH st1) as [<- Ho']. split; [reflexivity|]. rewrite Ho'. exact Ho.
  - split; [reflexivity | exact Ho].
Qed.

(** X14.  In commit mode [rename] starts no [diff] and prints nothing
    on the standard output: its outcome is the same for every [diff]
    command, argument list and scratch name, and for every list of
    added extensions. *)
Theorem rename_commit_ignores_diff :
  forall spawn2 tempf2 ren_fn path add_ext add_ext2 diff diff2 diff_args diff_args2 st,
    rename re_compile spawn tempf_name ren_fn path add_ext false diff diff_args st
    = rename re_compile spawn2 tempf2 ren_fn path add_ext2 false diff2 diff_args2 st /\
    stdout (fst (rename re_compile spawn tempf_name ren_fn path add_ext false diff diff_args st))
    = stdout st.
Proof.
  intros. unfold rename. unfold bind, os_path_abspath, open_read.
  destruct (FS.read (disk st) (cwd st) (FS.abspath (cwd st) ren_fn)) as [table|e];
    [|split; reflexivity].
  change (find_files re_compile path
                     (DEFAULT_EXT ++ match add_ext2 with Some l => l | None => [] end)
                     DefaultIgnore ".gitignore" st)
    with (find_files re_compile path
                     (DEFAULT_EXT ++ match add_ext with Some l => l | None => [] end)
                     DefaultIgnore ".gitignore" st).
  destruct (find_files re_compile path
                       (DEFAULT_EXT ++ match add_ext with Some l => l | None => [] end)
                       DefaultIgnore ".gitignore" st) as [st1 r] eqn:Hff.
  destruct (find_files_keeps _ _ _ _ _ _ _ _ Hff) as [_ [_ Ho]].
  destruct r as [fns|e]; [|split; [reflexivity | exact Ho]].
  destruct (rename_loop_commit_any_diff spawn2 tempf2 (FS.abspath (cwd st) ren_fn)
              (read_conv_lines table) diff diff2
              (remove_empty diff_args) (remove_empty diff_args2) fns st1) as [<- Ho'].
  split; [reflexivity|]. rewrite Ho'. exact Ho.
Qed.

(** X15.  With a table that holds a blank line the loop of [rename]
    changes nothing in either mode, no file and no output; and when
    the candidates can be read and one of them is not the table itself,
    it ends with [ValueError]. *)
Theorem rename_loop_blank_line : forall ren_fn replace dryrun diff diff_args fns st,
  In None replace ->
  fst (rename_loop spawn tempf_name ren_fn replace dryrun diff diff_args fns st) = st /\
  ((forall fn, In fn fns -> FS.abspath (cwd st) fn <> ren_fn ->
               is_ok (FS.read (disk st) (cwd st) fn) = true) ->
   (exists fn, In fn fns /\ FS.abspath (cwd st) fn <> ren_fn) ->
   snd (rename_loop spawn tempf_name ren_fn replace dryrun diff diff_args fns st)
   = Raise ValueError).
Proof.
  intros ren_fn replace dryrun diff diff_args fns st Hb.
  induction fns as [|fn rest IH].
  - split; [reflexivity|]. intros _ [fn [[] _]].
  - cbn [rename_loop]. unfold bind. rewrite rename_file_unfold.
    destruct (String.eqb (FS.abspath (cwd st) fn) ren_fn) eqn:Ea.
    + destruct IH as [IH1 IH2]. split; [exact IH1|].
      intros Hread [f [[<-|Hin] Hne]].
      * apply String.eqb_eq in Ea. contradiction.
      * apply IH2; [intros f' Hf'; apply Hread; right; exact Hf' | eauto].
    + destruct (FS.read (disk st) (cwd st) fn) as [orig|e] eqn:Er.
      * rewrite (apply_replacements_blank replace orig Hb). split; reflexivity.
      * split; [reflexivity|]. intros Hread _.
        apply String.eqb_neq in Ea.
        pose proof (Hread fn (or_introl eq_refl) Ea) as Hok.
        rewrite Er in Hok. discriminate Hok.
Qed.

(** X16.  Files that mention none of the names are left alone: when
    every candidate can be read and each entry of the table has equal
    columns or a first column that does not occur in its text, the loop
    of [rename] ends without error and changes nothing, neither a file
    nor, in a dry run, the output. *)
Theorem rename_loop_nothing_to_rename : forall ren_fn replace dryrun diff diff_args fns st,
  ~ In None replace ->
  (forall fn, In fn fns -> FS.abspath (cwd st) fn <> ren_fn ->
     exists orig,
       FS.read (disk st) (cwd st) fn = Ok orig /\
       forall from_ to, In (Some (from_, to)) replace ->
                        from_ = to \/ Str.occurs from_ orig = false) ->
  rename_loop spawn tempf_name ren_fn replace dryrun diff diff_args fns st = (st, Ok tt).
Proof.
  intros ren_fn replace dryrun diff diff_args fns st Hb.
  induction fns as [|fn rest IH]; intros H; [reflexivity|].
  cbn [rename_loop]. unfold bind. rewrite rename_file_unfold.
  assert (IH' : rename_loop spawn tempf_name ren_fn replace dryrun diff diff_args rest st
                = (st, Ok tt))
    by (apply IH; intros f Hf; apply H; right; exact Hf).
  destruct (String.eqb (FS.abspath (cwd st) fn) ren_fn) eqn:Ea; [exact IH'|].
  apply String.eqb_neq in Ea.
  destruct (H fn (or_introl eq_refl) Ea) as [orig [Hr Hno]].
  rewrite Hr.
  rewrite (apply_replacements_fixed replace orig Hb).
  - rewrite String.eqb_refl. exact IH'.
  - intros from_ to Hin. destruct (Hno from_ to Hin) as [<-|Habs].
    + apply StrFacts.replace_same.
    + apply StrFacts.replace_absent. exact Habs.
Qed.

End MoreRename.

(** ** Further facts on the record listing *)

Module RecFacts.
Import Str Txt Rec RecSpec.

Lemma rsplit_char_none : forall c b, mem_char c b = false -> rsplit_char c b = None.
Proof.
  induction b as [|d b IH]; intros H; [reflexivity|].
  cbn [mem_char] in H. apply orb_false_iff in H. destruct H as [Hd Hb].
  cbn [rsplit_char]. rewrite (IH Hb), Ascii.eqb_sym, Hd. reflexivity.
Qed.

(** The split is at the last occurrence. *)
Lemma rsplit_char_last : forall c a b,
  mem_char c b = false -> rsplit_char c (a ++ String c b) = Some (a, b).
Proof.
  induction a as [|x a IH]; intros b Hb.
  - cbn [append rsplit_char]. rewrite (rsplit_char_none c b Hb), Ascii.eqb_refl. reflexivity.
  - cbn [append rsplit_char]. rewrite (IH b Hb). reflexivity.
Qed.

Lemma mem_char_app : forall c a b, mem_char c (a ++ b) = mem_char c a || mem_char c b.
Proof.
  induction a as [|x a IH]; intros b; [reflexivity|].
  cbn [append mem_char]. rewrite IH, orb_assoc. reflexivity.
Qed.

Lemma before_newline_id : forall s, mem_char newline s = false -> before_newline s = s.
Proof.
  induction s as [|c s IH]; intros H; [reflexivity|].
  cbn [mem_char] in H. apply orb_false_iff in H. destruct H as [Hc Hs].
  cbn [before_newline]. rewrite Ascii.eqb_sym, Hc, (IH Hs). reflexivity.
Qed.

Lemma token_inv : forall s,
  token s = true ->
  has_space s = false /\ mem_char ","%char s = false /\
  mem_char dquote s = false /\ mem_char squote s = false /\ mem_char newline s = false.
Proof.
  induction s as [|c s IH]; intros H; [repeat split|].
  cbn [token] in H. apply andb_true_iff in H. destruct H as [Hc Hs].
  destruct (IH Hs) as [I1 [I2 [I3 [I4 I5]]]].
  unfold token_char in Hc.
  apply andb_true_iff in Hc. destruct Hc as [Hc H4].
  apply andb_true_iff in Hc. destruct Hc as [Hc H3].
  apply andb_true_iff in Hc. destruct Hc as [H1 H2].
  apply negb_true_iff in H1, H2, H3, H4.
  cbn [has_space mem_char]. rewrite H1, I1, I2, I3, I4, I5.
  rewrite (Ascii.eqb_sym _ c), H2, (Ascii.eqb_sym _ c), H3, (Ascii.eqb_sym _ c), H4.
  repeat split.
  destruct (Ascii.eqb newline c) eqn:E; [|reflexivity].
  apply Ascii.eqb_eq in E. subst c. discriminate H1.
Qed.

Lemma lstrip_chars_id : forall chars s,
  match s with String c _ => mem_char c chars = false | EmptyString => True end ->
  lstrip_chars chars s = s.
Proof. intros chars [|c s] H; [reflexivity|]. cbn [lstrip_chars]. rewrite H. reflexivity. Qed.

Lemma rstrip_chars_id : forall q s,
  mem_char q s = false -> rstrip_chars (String q EmptyString) s = s.
Proof.
  induction s as [|c s IH]; intros H; [reflexivity|].
  cbn [mem_char] in H. apply orb_false_iff in H. destruct H as [Hc Hs].
  cbn [rstrip_chars]. rewrite (IH Hs). cbn [mem_char]. rewrite Ascii.eqb_sym, Hc.
  destruct s; reflexivity.
Qed.

Lemma strip_chars_id : forall q s,
  mem_char q s = false -> strip_chars (String q EmptyString) s = s.
Proof.
  intros q s H. unfold strip_chars.
  rewrite lstrip_chars_id; [apply rstrip_chars_id; exact H|].
  destruct s as [|c s]; [exact I|].
  cbn [mem_char] in H |- *. apply orb_false_iff in H. destruct H as [Hc _].
  rewrite Ascii.eqb_sym, Hc. reflexivity.
Qed.

Lemma rstrip_chars_quote : forall q s,
  mem_char q s = false ->
  rstrip_chars (String q EmptyString) (s ++ String q EmptyString) = s.
Proof.
  induction s as [|c s IH]; intros H.
  - cbn. rewrite Ascii.eqb_refl. reflexivity.
  - cbn [mem_char] in H. apply orb_false_iff in H. destruct H as [Hc Hs].
    cbn [append rstrip_chars]. rewrite (IH Hs). cbn [mem_char].
    rewrite Ascii.eqb_sym, Hc. destruct s; reflexivity.
Qed.

(** The quotes around a name that holds none are taken off. *)
Lemma unquote_quoted : forall s,
  mem_char dquote s = false -> mem_char squote s = false -> unquote (quoted s) = s.
Proof.
  intros s Hd Hs. unfold unquote, quoted.
  assert (H1 : strip_chars (String dquote EmptyString)
                           (String dquote (s ++ String dquote EmptyString)) = s).
  { destruct s as [|c s]; [vm_compute; reflexivity|].
    unfold strip_chars. cbn [lstrip_chars mem_char]. rewrite Ascii.eqb_refl. cbn [orb].
    rewrite lstrip_chars_id; [apply rstrip_chars_quote; exact Hd|].
    cbn [append]. cbn [mem_char] in Hd |- *. apply orb_false_iff in Hd. destruct Hd as [Hc _].
    rewrite Ascii.eqb_sym, Hc. reflexivity. }
  rewrite H1. apply strip_chars_id. exact Hs.
Qed.

Lemma unquote_token : forall s,
  mem_char dquote s = false -> mem_char squote s = false -> unquote s = s.
Proof.
  intros s Hd Hs. unfold unquote. rewrite (strip_chars_id dquote s Hd).
  apply strip_chars_id. exact Hs.
Qed.

Lemma has_space_app : forall a b, has_space (a ++ b) = has_space a || has_space b.
Proof.
  induction a as [|x a IH]; intros b; [reflexivity|].
  cbn [append has_space]. rewrite IH, orb_assoc. reflexivity.
Qed.

Lemma strip_token : forall s, has_space s = false -> strip s = s.
Proof.
  intros s H. unfold strip. rewrite ConvFacts.lstrip_id.
  - apply ConvFacts.rstrip_id_token. exact H.
  - destruct s as [|c s]; [reflexivity|]. cbn [has_space] in H.
    apply orb_false_iff in H. destruct H as [Hc _]. exact Hc.
Qed.

(** What is stripped on the right is a beginning of the text. *)
Lemma rstrip_prefix : forall s, exists x, s = (rstrip s ++ x)%string.
Proof.
  induction s as [|c s [x IH]].
  - exists EmptyString. reflexivity.
  - cbn [rstrip]. destruct (rstrip s) as [|d r] eqn:E.
    + destruct (is_space c).
      * exists (String c s). reflexivity.
      * exists s. reflexivity.
    + exists x. rewrite IH at 1. reflexivity.
Qed.

Lemma mem_char_rstrip : forall c s, mem_char c s = false -> mem_char c (rstrip s) = false.
Proof.
  intros c s H. destruct (rstrip_prefix s) as [x Hx]. rewrite Hx in H.
  rewrite mem_char_app in H. apply orb_false_iff in H. tauto.
Qed.

(** Text after something that does not end in whitespace is stripped on
    its own. *)
Lemma rstrip_after : forall a c b,
  is_space c = false ->
  rstrip (a ++ String c b) = (a ++ String c (rstrip b))%string.
Proof.
  induction a as [|x a IH]; intros c b Hc.
  - cbn [append rstrip]. destruct (rstrip b); [rewrite Hc|]; reflexivity.
  - cbn [append rstrip]. rewrite (IH c b Hc).
    destruct (a ++ String c (rstrip b))%string eqn:E; [|reflexivity].
    destruct a; discriminate E.
Qed.

(** What the loop of [find_records] makes of a declaration in the
    usual form. *)
Lemma usual_declaration : forall (g : bool) rtyp name tail,
  RecSpec.token rtyp = true ->
  RecSpec.token name = true ->
  Str.mem_char ")"%char tail = false ->
  Str.mem_char Str.newline tail = false ->
  Rec.record_of_line
    ((if g then "grecord(" else "record(") ++ rtyp ++ ", " ++ RecSpec.quoted name ++ ")" ++ tail)%string
  = Some (name, rtyp).
Proof.
  intros g rtyp name tail Hr Hn Htp Htn.
  destruct (token_inv _ Hr) as [R1 [R2 [R3 [R4 R5]]]].
  destruct (token_inv _ Hn) as [N1 [N2 [N3 [N4 N5]]]].
  set (inner := (rtyp ++ ", " ++ RecSpec.quoted name)%string).
  set (body := (inner ++ String ")"%char (Str.rstrip tail))%string).
  assert (Hline : Str.strip ((if g then "grecord(" else "record(") ++ rtyp ++ ", "
                               ++ RecSpec.quoted name ++ ")" ++ tail)%string
                  = ((if g then "grecord(" else "record(") ++ body)%string).
  { unfold Str.strip. rewrite ConvFacts.lstrip_id by (destruct g; reflexivity).
    unfold body, inner.
    replace ((if g then "grecord(" else "record(") ++ rtyp ++ ", "
               ++ RecSpec.quoted name ++ ")" ++ tail)%string
      with (((if g then "grecord(" else "record(") ++ rtyp ++ ", " ++ RecSpec.quoted name)
              ++ String ")"%char tail)%string
      by (rewrite !PathFacts.string_app_assoc; reflexivity).
    rewrite (rstrip_after _ ")"%char tail eq_refl).
    rewrite !PathFacts.string_app_assoc. reflexivity. }
  unfold Rec.record_of_line. rewrite Hline.
  assert (Hmatch : Rec.record_re_match ((if g then "grecord(" else "record(") ++ body)%string
                   = Some (rtyp, (" " ++ RecSpec.quoted name)%string)).
  { assert (Hbody : Rec.rsplit_char ")"%char (Rec.before_newline body)
                    = Some (inner, Str.rstrip tail)).
    { rewrite before_newline_id.
      - unfold body. apply rsplit_char_last.
        apply mem_char_rstrip. exact Htp.
      - unfold body, inner, RecSpec.quoted.
        rewrite !mem_char_app. cbn [Str.mem_char].
        rewrite !mem_char_app. cbn [Str.mem_char].
        rewrite R5, N5, (mem_char_rstrip _ _ Htn). reflexivity. }
    assert (Hinner : Rec.rsplit_char ","%char inner
                     = Some (rtyp, (" " ++ RecSpec.quoted name)%string)).
    { unfold inner. cbn [append].
      apply rsplit_char_last. unfold RecSpec.quoted.
      cbn [Str.mem_char]. rewrite mem_char_app. cbn [Str.mem_char].
      rewrite N2. reflexivity. }
    destruct g; unfold Rec.record_re_match; cbn [Rec.drop_prefix append Ascii.eqb Bool.eqb];
      cbn [Str.lstrip]; change (Str.is_space "("%char) with false; cbn iota;
      rewrite Ascii.eqb_refl, Hbody; exact Hinner. }
  rewrite Hmatch.
  rewrite (strip_token rtyp R1), (unquote_token rtyp R3 R4).
  assert (Hs : Str.strip (" " ++ RecSpec.quoted name)%string = RecSpec.quoted name).
  { unfold Str.strip. cbn [append Str.lstrip]. change (Str.is_space " "%char) with true.
    cbn iota. rewrite ConvFacts.lstrip_id by reflexivity.
    apply ConvFacts.rstrip_id_token. unfold RecSpec.quoted.
    cbn [Txt.has_space]. rewrite has_space_app. cbn [Txt.has_space].
    rewrite N1. reflexivity. }
  rewrite Hs, (unquote_quoted name N3 N4). reflexivity.
Qed.

(** A newline at its end does not change what a line yields. *)
Lemma rstrip_newline : forall a, rstrip (a ++ String newline EmptyString) = rstrip a.
Proof.
  induction a as [|x a IH]; [reflexivity|].
  cbn [append rstrip]. rewrite IH. reflexivity.
Qed.

Lemma record_of_line_newline : forall c l,
  is_space c = false ->
  record_of_line (String c l ++ String newline EmptyString) = record_of_line (String c l).
Proof.
  intros c l H. unfold record_of_line, strip.
  rewrite (ConvFacts.lstrip_id (String c l) H).
  rewrite ConvFacts.lstrip_id by exact H.
  rewrite rstrip_newline. reflexivity.
Qed.

Lemma records_of_lines_in : forall lines raw r,
  In raw lines -> record_of_line raw = Some r -> In r (records_of_lines lines).
Proof.
  induction lines as [|x lines IH]; intros raw r Hin Hr; [destruct Hin|].
  cbn [records_of_lines]. destruct Hin as [->|Hin].
  - rewrite Hr. left. reflexivity.
  - destruct (record_of_line x); [right|]; apply (IH raw r Hin Hr).
Qed.

Lemma readlines_nonempty : forall c s, readlines (String c s) <> [].
Proof.
  intros c s. cbn [readlines]. destruct (Ascii.eqb c newline); [discriminate|].
  destruct (readlines s); discriminate.
Qed.

(** A line that a newline ends is a line of its own. *)
Lemma readlines_line : forall l a,
  mem_char newline l = false ->
  readlines (l ++ String newline a) = (l ++ String newline EmptyString)%string :: readlines a.
Proof.
  induction l as [|c l IH]; intros a H.
  - cbn [append readlines]. rewrite Ascii.eqb_refl. reflexivity.
  - cbn [mem_char] in H. apply orb_false_iff in H. destruct H as [Hc Hl].
    cbn [append readlines]. rewrite Ascii.eqb_sym, Hc, (IH a Hl). reflexivity.
Qed.

(** The last line needs no newline. *)
Lemma readlines_last : forall c l,
  mem_char newline (String c l) = false -> readlines (String c l) = [String c l].
Proof.
  intros c l. revert c. induction l as [|d l IH]; intros c H.
  - cbn [mem_char] in H. apply orb_false_iff in H. destruct H as [Hc _].
    cbn [readlines]. rewrite Ascii.eqb_sym, Hc. reflexivity.
  - cbn [mem_char] in H. apply orb_false_iff in H. destruct H as [Hc Hl].
    change (readlines (String c (String d l)))
      with (if Ascii.eqb c newline then String c EmptyString :: readlines (String d l)
            else match readlines (String d l) with
                 | [] => [String c EmptyString]
                 | x :: xs => String c x :: xs
                 end).
    rewrite Ascii.eqb_sym, Hc, (IH d Hl). reflexivity.
Qed.

(** What follows a newline is read on its own. *)
Lemma readlines_app : forall b rest,
  readlines ((b ++ String newline EmptyString) ++ rest)
  = (readlines (b ++ String newline EmptyString) ++ readlines rest)%list.
Proof.
  induction b as [|c b IH]; intros rest.
  - cbn [append readlines]. rewrite Ascii.eqb_refl. reflexivity.
  - cbn [append readlines]. rewrite IH.
    destruct (Ascii.eqb c newline); [reflexivity|].
    destruct (readlines (b ++ String newline EmptyString)) as [|x xs] eqn:E; [|reflexivity].
    exfalso. destruct b; cbn [append] in E; exact (readlines_nonempty _ _ E).
Qed.

(** A line of the text is among the lines read, with or without its
    newline. *)
Lemma line_of_readlines : forall c l text,
  line_of (String c l) text ->
  In (String c l) (readlines text) \/
  In (String c l ++ String newline EmptyString)%string (readlines text).
Proof.
  intros c l text [Hn [before [after [-> [Hb Ha]]]]].
  assert (Hline : In (String c l) (readlines (String c l ++ after)) \/
                  In (String c l ++ String newline EmptyString)%string
                     (readlines (String c l ++ after))).
  { destruct Ha as [->|[a ->]].
    - left. rewrite GlobFacts.string_app_nil_r, (readlines_last c l Hn). left. reflexivity.
    - right. rewrite (readlines_line _ a Hn). left. reflexivity. }
  destruct Hb as [->|[b ->]]; [exact Hline|].
  rewrite readlines_app.
  destruct Hline as [H|H]; [left | right]; apply in_or_app; right; exact H.
Qed.

(** A declaration in the usual form on a line of a file is among the
    records found in it. *)
Lemma find_records_declaration : forall text g rtyp name tail,
  token rtyp = true ->
  token name = true ->
  mem_char ")"%char tail = false ->
  line_of (declaration g rtyp name tail) text ->
  In (name, rtyp) (find_records_text text).
Proof.
  intros text g rtyp name tail Hr Hn Htp Hline.
  assert (Htn : mem_char newline tail = false).
  { destruct Hline as [Hnl _]. unfold declaration in Hnl.
    rewrite !mem_char_app in Hnl. repeat (apply orb_false_iff in Hnl; destruct Hnl as [_ Hnl]).
    exact Hnl. }
  pose proof (usual_declaration g rtyp name tail Hr Hn Htp Htn) as Hrec.
  fold (declaration g rtyp name tail) in Hrec.
  assert (Hshape : exists c l, declaration g rtyp name tail = String c l /\ is_space c = false).
  { destruct g; [exists "g"%char | exists "r"%char]; eexists; split; reflexivity. }
  destruct Hshape as [c [l [Hcl Hc]]]. rewrite Hcl in *.
  unfold find_records_text.
  destruct (line_of_readlines c l text Hline) as [Hin|Hin].
  - apply (records_of_lines_in _ _ _ Hin Hrec).
  - apply (records_of_lines_in _ _ _ Hin).
    rewrite record_of_line_newline; [exact Hrec | exact Hc].
Qed.

(** The inverse of [rsplit_char]. *)
Lemma rsplit_char_none_inv : forall c s, rsplit_char c s = None -> mem_char c s = false.
Proof.
  induction s as [|d s IH]; intros H; [reflexivity|].
  cbn [rsplit_char] in H. destruct (rsplit_char c s) as [[a b]|]; [discriminate H|].
  destruct (Ascii.eqb d c) eqn:E; [discriminate H|].
  cbn [mem_char]. rewrite Ascii.eqb_sym, E, (IH eq_refl). reflexivity.
Qed.

Lemma rsplit_char_some : forall c s a b,
  rsplit_char c s = Some (a, b) -> s = (a ++ String c b)%string /\ mem_char c b = false.
Proof.
  induction s as [|d s IH]; intros a b H; [discriminate H|].
  cbn [rsplit_char] in H. destruct (rsplit_char c s) as [[a' b']|] eqn:E.
  - injection H as <- <-. destruct (IH a' b' eq_refl) as [-> Hb].
    split; [reflexivity | exact Hb].
  - destruct (Ascii.eqb d c) eqn:Ed; [|discriminate H]. injection H as <- <-.
    apply Ascii.eqb_eq in Ed. subst d.
    split; [reflexivity | apply rsplit_char_none_inv; exact E].
Qed.

End RecFacts.

(** X17.  A record declaration in the usual form of a database file,
    the word [record] or [grecord], the type and the quoted name in
    parentheses, then anything that holds neither a closing parenthesis
    nor a newline, is read by [find_records] as that name with that
    type. *)
Theorem record_of_line_declaration : forall (g : bool) rtyp name tail,
  RecSpec.token rtyp = true ->
  RecSpec.token name = true ->
  Str.mem_char ")"%char tail = false ->
  Str.mem_char Str.newline tail = false ->
  Rec.record_of_line
    ((if g then "grecord(" else "record(") ++ rtyp ++ ", " ++ RecSpec.quoted name ++ ")" ++ tail)%string
  = Some (name, rtyp).
Proof. exact RecFacts.usual_declaration. Qed.

Module ListingFacts.
Import Listing RecSpec.

Lemma dict_set_keys : forall k v d k',
  In k' (map fst (dict_set k v d)) <-> k' = k \/ In k' (map fst d).
Proof.
  induction d as [|[k0 v0] d IH]; intros k'; cbn [dict_set map fst In].
  - split; [intros [H|[]]; left; congruence | intros [H|[]]; left; congruence].
  - destruct (String.eqb k0 k) eqn:E; cbn [map fst In].
    + apply String.eqb_eq in E. subst k0. intuition congruence.
    + rewrite IH. intuition congruence.
Qed.

(** No key comes twice into the dictionary. *)
Lemma dict_set_NoDup : forall k v d,
  NoDup (map fst d) -> NoDup (map fst (dict_set k v d)).
Proof.
  induction d as [|[k0 v0] d IH]; intros H; cbn [dict_set map fst].
  - repeat constructor. intros [].
  - destruct (String.eqb k0 k) eqn:E; cbn [map fst]; [exact H|].
    cbn [map fst] in H. apply NoDup_cons_iff in H. destruct H as [Hnot Hd].
    constructor; [|apply IH; exact Hd].
    intros Hin. apply dict_set_keys in Hin. destruct Hin as [->|Hin]; [|contradiction].
    rewrite String.eqb_refl in E. discriminate E.
Qed.

Lemma add_records_keys : forall found d k,
  In k (map fst (add_records found d)) <->
  In k (map fst d) \/ exists v, In (k, v) found.
Proof.
  unfold add_records. induction found as [|[k0 v0] found IH]; intros d k; cbn [fold_left fst snd].
  - split; [tauto | intros [H|[v []]]; exact H].
  - rewrite IH, dict_set_keys. split.
    + intros [[->|H]|[v H]]; [right; exists v0; left; reflexivity | tauto
                              | right; exists v; right; exact H].
    + intros [H|[v [H|H]]]; [tauto | injection H as -> ->; tauto | right; eauto].
Qed.

Lemma add_records_NoDup : forall found d,
  NoDup (map fst d) -> NoDup (map fst (add_records found d)).
Proof.
  unfold add_records. induction found as [|[k0 v0] found IH]; intros d H; [exact H|].
  cbn [fold_left fst snd]. apply IH, dict_set_NoDup, H.
Qed.

Lemma insert_by_len_perm : forall x l, Permutation (insert_by_len x l) (x :: l).
Proof.
  induction l as [|y l IH]; cbn [insert_by_len]; [reflexivity|].
  destruct (Nat.ltb (String.length x) (String.length y)); [|reflexivity].
  rewrite IH. apply perm_swap.
Qed.

Lemma sort_by_len_perm : forall l, Permutation (sort_by_len l) l.
Proof.
  induction l as [|x l IH]; cbn [sort_by_len]; [reflexivity|].
  rewrite insert_by_len_perm, IH. reflexivity.
Qed.

Lemma insert_by_len_sorted : forall x l,
  StronglySorted longer_first l -> StronglySorted longer_first (insert_by_len x l).
Proof.
  induction l as [|y l IH]; intros H; cbn [insert_by_len].
  - repeat constructor.
  - apply StronglySorted_inv in H. destruct H as [Hl Hy].
    destruct (Nat.ltb (String.length x) (String.length y)) eqn:E.
    + apply Nat.ltb_lt in E. constructor; [apply IH; exact Hl|].
      rewrite Forall_forall in *. intros z Hz.
      apply (Permutation_in _ (insert_by_len_perm x l)) in Hz. destruct Hz as [<-|Hz].
      * unfold longer_first. lia.
      * apply Hy. exact Hz.
    + apply Nat.ltb_ge in E. constructor; [constructor; assumption|].
      constructor; [exact E|].
      rewrite Forall_forall in *. intros z Hz. specialize (Hy z Hz).
      unfold longer_first in *. lia.
Qed.

(** The sort puts the longest first. *)
Lemma sort_by_len_sorted : forall l, StronglySorted longer_first (sort_by_len l).
Proof.
  induction l as [|x l IH]; cbn [sort_by_len]; [constructor|].
  apply insert_by_len_sorted. exact IH.
Qed.

(** The loop that fills the dictionary, when every file can be read. *)
Lemma collect_records_outcome : forall fns d0 st,
  (forall fn, In fn fns -> is_ok (FS.read (disk st) (cwd st) fn) = true) ->
  exists d',
    collect_records fns d0 st = (st, Ok d') /\
    (NoDup (map fst d0) -> NoDup (map fst d')) /\
    forall k, In k (map fst d') <->
              In k (map fst d0) \/
              exists fn text v,
                In fn fns /\ FS.read (disk st) (cwd st) fn = Ok text /\
                In (k, v) (Rec.find_records_text text).
Proof.
  induction fns as [|fn rest IH]; intros d0 st H.
  - exists d0. split; [reflexivity | split; [tauto|]].
    intros k. split; [tauto | intros [Hk|[f [t [v [[] _]]]]]; exact Hk].
  - pose proof (H fn (or_introl eq_refl)) as Hok.
    destruct (FS.read (disk st) (cwd st) fn) as [text|e] eqn:Er; [|discriminate Hok].
    destruct (IH (add_records (Rec.find_records_text text) d0) st) as [d' [Hc [Hn Hk]]].
    { intros f Hf. apply H. right. exact Hf. }
    exists d'. split; [|split].
    + cbn [collect_records]. unfold bind, open_read. rewrite Er. exact Hc.
    + intros Hd0. apply Hn, add_records_NoDup, Hd0.
    + intros k. rewrite Hk, add_records_keys. split.
      * intros [[Hk0|[v Hv]]|[f [t [v [Hf [Hr Hv]]]]]].
        -- left. exact Hk0.
        -- right. exists fn, text, v. repeat split; [left; reflexivity | exact Er | exact Hv].
        -- right. exists f, t, v. repeat split; [right; exact Hf | exact Hr | exact Hv].
      * intros [Hk0|[f [t [v [[<-|Hf] [Hr Hv]]]]]].
        -- left. left. exact Hk0.
        -- rewrite Er in Hr. injection Hr as <-. left. right. exists v. exact Hv.
        -- right. exists f, t, v. repeat split; assumption.
Qed.

Lemma all_dots_false : forall s,
  all_dots s = false -> exists c, Str.mem_char c s = true /\ Ascii.eqb c "."%char = false.
Proof.
  induction s as [|x s IH]; intros H; [discriminate H|].
  cbn [all_dots] in H. destruct (Ascii.eqb x "."%char) eqn:E.
  - destruct (IH H) as [c [Hc Hne]]. exists c. split; [|exact Hne].
    cbn [Str.mem_char]. rewrite Hc. apply orb_true_r.
  - exists x. split; [|exact E]. cbn [Str.mem_char]. rewrite Ascii.eqb_refl. reflexivity.
Qed.

Lemma all_dots_mem : forall c s,
  Str.mem_char c s = true -> Ascii.eqb c "."%char = false -> all_dots s = false.
Proof.
  induction s as [|x s IH]; intros H Hne; [discriminate H|].
  cbn [Str.mem_char] in H. cbn [all_dots].
  destruct (Ascii.eqb c x) eqn:E.
  - apply Ascii.eqb_eq in E. subst x. rewrite Hne. reflexivity.
  - rewrite (IH H Hne). apply andb_false_r.
Qed.

(** [os.path.splitext] gives an extension exactly to the paths that end
    with it after a stem that is not made of dots. *)
Lemma splitext_ext_spec : forall suf fn,
  Str.mem_char "."%char suf = false ->
  Str.mem_char "/"%char suf = false ->
  splitext_ext fn = String "."%char suf <-> has_extension (String "."%char suf) fn.
Proof.
  intros suf fn Hdot Hsl. split.
  - unfold splitext_ext. intros H.
    destruct (Rec.rsplit_char "."%char (basename fn)) as [[pre s]|] eqn:E; [|discriminate H].
    destruct (all_dots pre) eqn:Ed; [discriminate H|]. injection H as ->.
    destruct (RecFacts.rsplit_char_some _ _ _ _ E) as [Hb _].
    destruct (all_dots_false pre Ed) as [c [Hc Hne]].
    unfold basename, FS.slash in Hb.
    destruct (Rec.rsplit_char "/"%char fn) as [[d b]|] eqn:Es.
    + destruct (RecFacts.rsplit_char_some _ _ _ _ Es) as [Hfn Hnb]. subst b.
      rewrite RecFacts.mem_char_app in Hnb. apply orb_false_iff in Hnb. destruct Hnb as [Hnp _].
      exists (d ++ "/")%string, pre, c.
      split; [|split; [right; exists d; reflexivity | split; [exact Hnp | split; assumption]]].
      rewrite Hfn, PathFacts.string_app_assoc. reflexivity.
    + apply RecFacts.rsplit_char_none_inv in Es. subst fn.
      rewrite RecFacts.mem_char_app in Es. apply orb_false_iff in Es. destruct Es as [Hnp _].
      exists EmptyString, pre, c.
      split; [reflexivity | split; [left; reflexivity | split; [exact Hnp | split; assumption]]].
  - intros [dir [stem [c [-> [Hdir [Hs [Hc Hne]]]]]]].
    assert (Hrest : Str.mem_char "/"%char (stem ++ String "."%char suf) = false).
    { rewrite RecFacts.mem_char_app, Hs. cbn [Str.mem_char]. rewrite Hsl. reflexivity. }
    assert (Hbase : basename (dir ++ stem ++ String "."%char suf)
                    = (stem ++ String "."%char suf)%string).
    { unfold basename, FS.slash. destruct Hdir as [->|[d ->]].
      - cbn [append]. rewrite (RecFacts.rsplit_char_none _ _ Hrest). reflexivity.
      - rewrite PathFacts.string_app_assoc. cbn [append].
        rewrite (RecFacts.rsplit_char_last _ d _ Hrest). reflexivity. }
    unfold splitext_ext. rewrite Hbase, (RecFacts.rsplit_char_last _ stem _ Hdot).
    rewrite (all_dots_mem c stem Hc Hne). reflexivity.
Qed.

(** The test of [create_list] on a file name. *)
Lemma is_db_file_spec : forall fn, is_db_file fn = true <-> db_file fn.
Proof.
  intros fn. unfold is_db_file, db_file.
  rewrite orb_true_iff, !String.eqb_eq.
  rewrite (splitext_ext_spec "db" fn eq_refl eq_refl).
  rewrite (splitext_ext_spec "template" fn eq_refl eq_refl).
  reflexivity.
Qed.

End ListingFacts.

Section MoreListing.

Variable re_compile : string -> option (string -> bool).

(** X18.  When the found files whose name ends with [.db] or
    [.template] (after a stem that is not made of dots) can be read,
    [create_list] prints on the diagnostics the heading and, in the
    order in which they were found, exactly these files, each after a
    tabulator; then it prints, on the standard output, the record
    names found in them and nothing else, each name once and no name
    before a longer one.  Among them is the name of every declaration
    in the usual form that stands on a line of one of these files. *)
Theorem create_list_output : forall path add_ext st st0 fns,
  find_files re_compile path (DEFAULT_EXT ++ add_ext) DefaultIgnore ".gitignore" st
  = (st0, Ok fns) ->
  (forall fn, In fn fns -> RecSpec.db_file fn ->
              is_ok (FS.read (disk st) (cwd st) fn) = true) ->
  exists db_files recs,
    Listing.create_list re_compile path add_ext st
    = (print_out recs
         (print_err ("All database files:"
                       :: map (fun fn => (Conv.tab ++ fn)%string) db_files) st0),
       Ok tt) /\
    db_files = filter Listing.is_db_file fns /\
    (forall fn, In fn db_files <-> In fn fns /\ RecSpec.db_file fn) /\
    StronglySorted RecSpec.longer_first recs /\
    NoDup recs /\
    (forall r, In r recs <->
               exists fn text rtyp,
                 In fn db_files /\
                 FS.read (disk st) (cwd st) fn = Ok text /\
                 In (r, rtyp) (Rec.find_records_text text)) /\
    (forall fn text g rtyp name tail,
        In fn fns -> RecSpec.db_file fn ->
        FS.read (disk st) (cwd st) fn = Ok text ->
        RecSpec.token rtyp = true ->
        RecSpec.token name = true ->
        Str.mem_char ")"%char tail = false ->
        RecSpec.line_of (RecSpec.declaration g rtyp name tail) text ->
        In name recs).
Proof.
  intros path add_ext st st0 fns Hff Hread.
  destruct (find_files_keeps _ _ _ _ _ _ _ _ Hff) as [Hd [Hw _]].
  assert (Hdb : forall fn, In fn (filter Listing.is_db_file fns)
                           <-> In fn fns /\ RecSpec.db_file fn).
  { intros fn. rewrite filter_In, ListingFacts.is_db_file_spec. reflexivity. }
  set (st1 := print_err ("All database files:"
                           :: map (fun fn => (Conv.tab ++ fn)%string)
                                  (filter Listing.is_db_file fns)) st0).
  destruct (ListingFacts.collect_records_outcome (filter Listing.is_db_file fns) [] st1)
    as [d' [Hc [Hn Hk]]].
  { intros fn Hfn. change (disk st1) with (disk st0). change (cwd st1) with (cwd st0).
    rewrite Hd, Hw. apply Hdb in Hfn. apply Hread; tauto. }
  change (disk st1) with (disk st0) in Hk. change (cwd st1) with (cwd st0) in Hk.
  rewrite Hd, Hw in Hk.
  assert (Hrecs : forall r, In r (Listing.sort_by_len (map fst d')) <->
                            exists fn text rtyp,
                              In fn (filter Listing.is_db_file fns) /\
                              FS.read (disk st) (cwd st) fn = Ok text /\
                              In (r, rtyp) (Rec.find_records_text text)).
  { intros r. split.
    - intros Hin. apply (Permutation_in _ (ListingFacts.sort_by_len_perm _)) in Hin.
      apply Hk in Hin. destruct Hin as [[]|Hin]. exact Hin.
    - intros Hex.
      apply (Permutation_in _ (Permutation_sym (ListingFacts.sort_by_len_perm _))).
      apply Hk. right. exact Hex. }
  exists (filter Listing.is_db_file fns), (Listing.sort_by_len (map fst d')).
  split; [|split; [reflexivity | split; [exact Hdb | split; [|split; [|split; [exact Hrecs|]]]]]].
  - unfold Listing.create_list, bind. rewrite Hff. unfold modify at 1.
    fold st1. rewrite Hc. reflexivity.
  - apply ListingFacts.sort_by_len_sorted.
  - eapply Permutation_NoDup; [apply Permutation_sym, ListingFacts.sort_by_len_perm|].
    apply Hn. constructor.
  - intros fn text g rtyp name tail Hfn Hdbf Hr Ht Hnm Htail Hline.
    apply Hrecs. exists fn, text, rtyp.
    split; [apply Hdb; split; assumption | split; [exact Hr|]].
    apply (RecFacts.find_records_declaration text g rtyp name tail); assumption.
Qed.

End MoreListing.

(** ** The commit run as a whole *)

Module CommitFacts.
Import FS.

(** What a pass of the loop in commit mode does to the disk, for a
    candidate that is read and substituted. *)
Lemma write_candidate : forall d w fn orig text,
  read d w fn = Ok orig ->
  exists p d',
    resolve d w fn = Some p /\
    write d w fn text = Ok d' /\
    read d' w fn = Ok text /\
    (forall x, kind (lookup d' x) = kind (lookup d x)) /\
    (forall x t, x <> p -> lookup d x = Some (File t) -> lookup d' x = Some (File t)).
Proof.
  intros d w fn orig text Hr.
  destruct (FSFacts.write_existing d w fn orig text Hr) as [p [d' [Hres [Hput [Hw Hrd]]]]].
  destruct (FSFacts.read_inv _ _ _ _ Hr) as [p0 [Hres0 Hl0]].
  rewrite Hres in Hres0. injection Hres0 as <-.
  exists p, d'.
  split; [exact Hres|]. split; [exact Hw|]. split; [exact Hrd|]. split.
  - intros x. exact (FSFacts.put_kind p d d' orig text x Hl0 Hput).
  - intros x t Hx Hlx. exact (FSFacts.put_lookup_other p d d' orig text x t Hl0 Hput Hx Hlx).
Qed.

(** A file that is not written reads as before on a disk of the same
    shape. *)
Lemma read_preserved : forall d d' w fn p text,
  (forall x, kind (lookup d' x) = kind (lookup d x)) ->
  resolve d w fn = Some p ->
  lookup d' p = Some (File text) ->
  read d' w fn = Ok text.
Proof.
  intros d d' w fn p text Hk Hres Hl'.
  unfold read, stat. rewrite (FSFacts.resolve_same_shape d d' w fn Hk), Hres, Hl'.
  reflexivity.
Qed.

End CommitFacts.

Section CommitRun.

Variable spawn : list string -> string -> FS.node -> proc_outcome.
Variable tempf_name : string.

(** X19.  A commit run over candidates that name different files and
    can be read, with a table free of blank lines, ends without error
    and prints nothing; afterwards every candidate reads as the text
    the table makes of what it held before, and every file that is not
    among them holds what it held. *)
Theorem rename_loop_commit_all : forall ren_fn replace diff diff_args fns st,
  ~ In None replace ->
  NoDup (map (FS.resolve (disk st) (cwd st)) fns) ->
  (forall fn, In fn fns -> FS.abspath (cwd st) fn <> ren_fn) ->
  (forall fn, In fn fns -> is_ok (FS.read (disk st) (cwd st) fn) = true) ->
  exists st',
    rename_loop spawn tempf_name ren_fn replace false diff diff_args fns st = (st', Ok tt) /\
    cwd st' = cwd st /\ stdout st' = stdout st /\
    (forall fn, In fn fns ->
       exists orig text,
         FS.read (disk st) (cwd st) fn = Ok orig /\
         apply_replacements replace orig = Ok text /\
         FS.read (disk st') (cwd st) fn = Ok text) /\
    (forall x t,
        ~ In (Some x) (map (FS.resolve (disk st) (cwd st)) fns) ->
        FS.lookup (disk st) x = Some (FS.File t) ->
        FS.lookup (disk st') x = Some (FS.File t)).
Proof.
  intros ren_fn replace diff diff_args fns st Hb.
  assert (Hgen : forall l st1,
             NoDup (map (FS.resolve (disk st1) (cwd st1)) l) ->
             (forall fn, In fn l -> FS.abspath (cwd st1) fn <> ren_fn) ->
             (forall fn, In fn l -> is_ok (FS.read (disk st1) (cwd st1) fn) = true) ->
             exists st',
               rename_loop spawn tempf_name ren_fn replace false diff diff_args l st1
               = (st', Ok tt) /\
               cwd st' = cwd st1 /\ stdout st' = stdout st1 /\
               (forall x, FS.kind (FS.lookup (disk st') x) = FS.kind (FS.lookup (disk st1) x)) /\
               (forall fn, In fn l ->
                  exists orig text,
                    FS.read (disk st1) (cwd st1) fn = Ok orig /\
                    apply_replacements replace orig = Ok text /\
                    FS.read (disk st') (cwd st1) fn = Ok text) /\
               (forall x t,
                   ~ In (Some x) (map (FS.resolve (disk st1) (cwd st1)) l) ->
                   FS.lookup (disk st1) x = Some (FS.File t) ->
                   FS.lookup (disk st') x = Some (FS.File t))).
  { induction l as [|fn rest IH]; intros st1 Hnd Hcand Hread.
    - exists st1. repeat split; try reflexivity; [intros fn [] | intros x t _ H; exact H].
    - pose proof (Hcand fn (or_introl eq_refl)) as Ha. apply String.eqb_neq in Ha.
      pose proof (Hread fn (or_introl eq_refl)) as Hok.
      destruct (FS.read (disk st1) (cwd st1) fn) as [orig|] eqn:Hr; [|discriminate Hok].
      destruct (apply_replacements_total replace orig Hb) as [text Hs].
      destruct (CommitFacts.write_candidate (disk st1) (cwd st1) fn orig text Hr)
        as [p [d' [Hres [Hw [Hrd [Hk Hother]]]]]].
      destruct (FSFacts.read_inv _ _ _ _ Hr) as [p0 [Hres0 Hl0]].
      rewrite Hres in Hres0. injection Hres0 as <-.
      cbn [map] in Hnd. apply NoDup_cons_iff in Hnd. destruct Hnd as [Hnotin Hnd].
      rewrite Hres in Hnotin.
      (* the state after the pass on [fn] *)
      set (st2 := if String.eqb text orig then st1 else set_disk d' st1).
      assert (Hstep : rename_file spawn tempf_name ren_fn replace false diff diff_args fn st1
                      = (st2, Ok tt)).
      { rewrite rename_file_unfold, Ha, Hr, Hs. unfold st2.
        destruct (String.eqb text orig); [reflexivity|].
        unfold open_write. rewrite Hw. reflexivity. }
      assert (Hcwd2 : cwd st2 = cwd st1) by (unfold st2; destruct (String.eqb text orig); reflexivity).
      assert (Hout2 : stdout st2 = stdout st1)
        by (unfold st2; destruct (String.eqb text orig); reflexivity).
      assert (Hk2 : forall x, FS.kind (FS.lookup (disk st2) x) = FS.kind (FS.lookup (disk st1) x)).
      { unfold st2. destruct (String.eqb text orig); [reflexivity | exact Hk]. }
      assert (Hfn2 : FS.lookup (disk st2) p = Some (FS.File text)).
      { unfold st2. destruct (String.eqb text orig) eqn:Ete.
        - apply String.eqb_eq in Ete. subst text. exact Hl0.
        - cbn [set_disk disk]. destruct (FSFacts.read_inv _ _ _ _ Hrd) as [p1 [Hres1 Hl1]].
          rewrite (FSFacts.resolve_same_shape _ _ _ _ Hk), Hres in Hres1.
          injection Hres1 as <-. exact Hl1. }
      assert (Hoth2 : forall x t, x <> p -> FS.lookup (disk st1) x = Some (FS.File t) ->
                                  FS.lookup (disk st2) x = Some (FS.File t)).
      { unfold st2. destruct (String.eqb text orig); [intros x t _ H; exact H | exact Hother]. }
      assert (Hres2 : forall f, FS.resolve (disk st2) (cwd st2) f
                                = FS.resolve (disk st1) (cwd st1) f).
      { intros f. rewrite Hcwd2. apply FSFacts.resolve_same_shape. exact Hk2. }
      assert (Hread2 : forall f, In f rest ->
                                 FS.read (disk st2) (cwd st2) f = FS.read (disk st1) (cwd st1) f).
      { intros f Hf. pose proof (Hread f (or_intror Hf)) as Hokf.
        destruct (FS.read (disk st1) (cwd st1) f) as [origf|] eqn:Hrf; [|discriminate Hokf].
        destruct (FSFacts.read_inv _ _ _ _ Hrf) as [pf [Hresf Hlf]].
        rewrite Hcwd2. eapply CommitFacts.read_preserved; eauto.
        apply Hoth2; [|exact Hlf]. intros ->. apply Hnotin.
        apply in_map_iff. exists f. split; [exact Hresf | exact Hf]. }
      destruct (IH st2) as [st' [Hloop [Hcwd [Hout [Hk' [Hfiles Hframe]]]]]].
      { rewrite (map_ext _ _ Hres2). exact Hnd. }
      { intros f Hf. rewrite Hcwd2. apply Hcand. right. exact Hf. }
      { intros f Hf. rewrite (Hread2 f Hf). apply Hread. right. exact Hf. }
      exists st'. split; [|split; [|split; [|split; [|split]]]].
      + cbn [rename_loop]. unfold bind. rewrite Hstep. exact Hloop.
      + congruence.
      + congruence.
      + intros x. rewrite Hk', Hk2. reflexivity.
      + intros f [<-|Hf].
        * exists orig, text. repeat split; try assumption.
          eapply CommitFacts.read_preserved with (d := disk st1) (p := p).
          -- intros x. rewrite Hk', Hk2. reflexivity.
          -- exact Hres.
          -- change (FS.lookup (disk st') p = Some (FS.File text)).
             apply Hframe; [|exact Hfn2].
             rewrite (map_ext _ _ Hres2). exact Hnotin.
        * destruct (Hfiles f Hf) as [o [t [Ho [Ht Hrt]]]].
          exists o, t. rewrite <- (Hread2 f Hf). rewrite Hcwd2 in Hrt.
          repeat split; assumption.
      + intros x t Hx Hlx. apply Hframe.
        * rewrite (map_ext _ _ Hres2). intros Hin. apply Hx. right. exact Hin.
        * apply Hoth2; [|exact Hlx]. intros ->. apply Hx. left. exact Hres. }
  intros Hnd Hcand Hread.
  destruct (Hgen fns st Hnd Hcand Hread) as [st' [Hloop [Hcwd [Hout [_ [Hfiles Hframe]]]]]].
  exists st'. repeat split; assumption.
Qed.

End CommitRun.

(** X20.  A dollar that no closing parenthesis follows opens a macro
    that never ends: when the text before it holds no dollar, all that
    comes after it is copied to the output as it stands. *)
Theorem to_camel_open_macro : forall delims caps pre rest,
  Str.mem_char "$"%char pre = false ->
  Str.mem_char ")"%char rest = false ->
  Conv.to_camel delims caps (pre ++ String "$"%char rest)
  = (Conv.to_camel delims caps pre ++ String "$"%char rest)%string.
Proof.
  intros delims caps pre rest Hpre Hrest. unfold Conv.to_camel.
  rewrite CamelFacts.camel_from_app. f_equal.
  pose proof (CamelFacts.flags_after_no_dollar delims caps pre false Hpre) as Him.
  destruct (Camel.flags_after false false delims caps pre) as [im ld].
  cbn [fst snd] in *. subst im.
  rewrite CamelFacts.camel_from_dollar. f_equal.
  clear Hpre pre. revert ld. induction rest as [|c rest IH]; intros ld; [reflexivity|].
  cbn [Str.mem_char] in Hrest. apply orb_false_iff in Hrest. destruct Hrest as [Hc Hr].
  rewrite CamelFacts.camel_from_cons.
  assert (Hone : Conv.camel_from true ld delims caps (String c EmptyString)
                 = String c EmptyString /\
                 Camel.flags_after true ld delims caps (String c EmptyString) = (true, ld)).
  { unfold Conv.camel_from, Camel.flags_after. cbn [Conv.camel_loop]. unfold Conv.camel_step.
    cbn [Conv.in_macro Conv.last_delim Conv.ret]. rewrite Ascii.eqb_sym, Hc.
    split; reflexivity. }
  destruct Hone as [-> ->]. cbn [fst snd append]. rewrite (IH Hr ld). reflexivity.
Qed.

(** ** The further statements on given inputs *)

(** A line with three blanks between its tokens. *)
Lemma conv_of_line_columns_witness :
  conv_of_line "  FOO   BAR " = Some ("FOO  ", "BAR") /\
  Txt.has_space "BAR" = false /\
  exists c, Str.is_space c = true /\ Str.strip "  FOO   BAR " = ("FOO  " ++ String c "BAR")%string.
Proof.
  split; [reflexivity|].
  destruct (conv_of_line_columns "  FOO   BAR " "FOO  " "BAR" eq_refl)
    as [_ [_ [Hns [[Habs _]|Hex]]]].
  - discriminate Habs.
  - split; [exact Hns | exact Hex].
Defined.

Lemma conv_of_line_two_columns_witness :
  Txt.starts_with_space "OLD NAME" = false /\
  Txt.has_space "NEW" = false /\
  conv_of_line ("OLD NAME" ++ String (ascii_of_nat 9) "NEW") = Some ("OLD NAME", "NEW").
Proof.
  split; [reflexivity | split; [reflexivity|]].
  apply (conv_of_line_two_columns "OLD NAME" (ascii_of_nat 9) "NEW");
    try reflexivity; discriminate.
Defined.

Lemma to_camel_word_lower_witness :
  Camel.word ["_"] DEF_CAPS_DELIM "Input" = true /\
  Conv.to_camel ["_"] DEF_CAPS_DELIM "Input" = "input".
Proof.
  split; [reflexivity|].
  exact (to_camel_word_lower ["_"] DEF_CAPS_DELIM "Input" eq_refl).
Defined.

Lemma to_camel_two_words_witness :
  Camel.word ["_"] DEF_CAPS_DELIM "CAP" = true /\
  Camel.word ["_"] DEF_CAPS_DELIM "MEAS" = true /\
  Conv.to_camel ["_"] DEF_CAPS_DELIM "CAP_MEAS" = "capMeas".
Proof.
  split; [reflexivity | split; [reflexivity|]].
  exact (to_camel_two_words ["_"] DEF_CAPS_DELIM "CAP" "_"%char "MEAS"
                            eq_refl eq_refl eq_refl eq_refl).
Defined.

Lemma to_camel_macro_verbatim_witness :
  Str.mem_char "$"%char "VAL_" = false /\
  Str.mem_char ")"%char "(MACRO_a:C" = false /\
  Conv.to_camel ["_"] DEF_CAPS_DELIM "VAL_$(MACRO_a:C)_OUT" = "val$(MACRO_a:C)Out".
Proof.
  split; [reflexivity | split; [reflexivity|]].
  exact (to_camel_macro_verbatim ["_"] DEF_CAPS_DELIM "VAL_" "(MACRO_a:C" "_OUT"
                                 eq_refl eq_refl eq_refl).
Defined.

Lemma to_camel_open_macro_witness :
  Str.mem_char "$"%char "A_B" = false /\
  Str.mem_char ")"%char "(C_D" = false /\
  Conv.to_camel ["_"] DEF_CAPS_DELIM "A_B$(C_D" = "aB$(C_D".
Proof.
  split; [reflexivity | split; [reflexivity|]].
  exact (to_camel_open_macro ["_"] DEF_CAPS_DELIM "A_B" "(C_D" eq_refl eq_refl).
Defined.

(** A table whose third line holds one token. *)
Lemma convert_lines_caps_outcome_witness :
  existsb Driver.single_token [Some ("A_B", "aB"); None] = false /\
  Driver.single_token (Some ("C_D", "C_D")) = true /\
  Conv.convert_lines false ["_"] DEF_CAPS_DELIM
                     [Some ("A_B", "aB"); None; Some ("C_D", "C_D"); Some ("E", "f")] []
  = ([("A_B" ++ Conv.tab ++ "aB")%string; ""], Raise NotImplementedError).
Proof.
  split; [reflexivity | split; [reflexivity|]].
  exact (proj2 (convert_lines_caps_outcome ["_"] DEF_CAPS_DELIM
                  [Some ("A_B", "aB"); None; Some ("C_D", "C_D"); Some ("E", "f")] [])
               [Some ("A_B", "aB"); None] (Some ("C_D", "C_D")) [Some ("E", "f")]
               eq_refl eq_refl eq_refl).
Defined.

(** [find_files] below the sample project, with a list of the caller's:
    the caller's list has grown by the pattern of the ignore file. *)
Lemma find_files_frame_witness :
  disk (fst (find_files MiniRe.re_compile "proj" DEFAULT_EXT (GivenIgnore 1) ".gitignore"
                        Sample2.s_own))
  = disk Sample2.s_own /\
  stdout (fst (find_files MiniRe.re_compile "proj" DEFAULT_EXT (GivenIgnore 1) ".gitignore"
                          Sample2.s_own))
  = [] /\
  list_at 1 (lists (fst (find_files MiniRe.re_compile "proj" DEFAULT_EXT (GivenIgnore 1)
                                    ".gitignore" Sample2.s_own)))
  = ["\.bak$"; ".*\.log$"] /\
  list_at 2 (lists (fst (find_files MiniRe.re_compile "proj" DEFAULT_EXT (GivenIgnore 1)
                                    ".gitignore" Sample2.s_own)))
  = ["/attic/"] /\
  find_files_ignore_paths (fst (find_files MiniRe.re_compile "proj" DEFAULT_EXT (GivenIgnore 1)
                                           ".gitignore" Sample2.s_own))
  = initial_ignore_paths.
Proof.
  destruct (find_files_frame MiniRe.re_compile "proj" DEFAULT_EXT (GivenIgnore 1) ".gitignore"
              Sample2.s_own
              (fst (find_files MiniRe.re_compile "proj" DEFAULT_EXT (GivenIgnore 1) ".gitignore"
                               Sample2.s_own))
              (snd (find_files MiniRe.re_compile "proj" DEFAULT_EXT (GivenIgnore 1) ".gitignore"
                               Sample2.s_own))
              (surjective_pairing _)) as [Hd [_ [Ho [_ [Hl [Hdef Hother]]]]]].
  split; [exact Hd | split; [exact Ho | split; [|split]]].
  - exact (eq_trans Hl eq_refl).
  - exact (eq_trans (Hother 2 (fun E : 2 = 1 => Nat.neq_succ_diag_l 1 E)) eq_refl).
  - exact Hdef.
Defined.

Lemma find_files_selection_witness :
  compile_all MiniRe.re_compile Sample2.proj_sources = Ok Sample2.proj_ignores /\
  snd (find_files MiniRe.re_compile "proj" DEFAULT_EXT DefaultIgnore ".gitignore" Sample.s0)
  = Ok (filter (fun fn => negb (Select.ignored Sample2.proj_ignores fn))
               (walked_files (FS.walk (disk Sample.s0) (cwd Sample.s0) "proj"))).
Proof.
  assert (Hc : compile_all MiniRe.re_compile Sample2.proj_sources = Ok Sample2.proj_ignores)
    by (vm_compute; reflexivity).
  split; [exact Hc|].
  rewrite (proj1 (find_files_selection MiniRe.re_compile "proj" DEFAULT_EXT DefaultIgnore
                    ".gitignore" Sample.s0
                    (set_ignore_paths Sample2.proj_sources Sample.s0)
                    Sample2.proj_sources Sample2.proj_ignores eq_refl Hc)).
  reflexivity.
Defined.

(** After the call below [bad], the call below [good] raises too. *)
Lemma find_files_refused_pattern_stays_witness :
  snd (find_files MiniRe.re_compile "bad" DEFAULT_EXT DefaultIgnore ".gitignore" Sample2.s_bad)
  = Raise ReError /\
  exists st3 e,
    find_files MiniRe.re_compile "good" DEFAULT_EXT DefaultIgnore ".gitignore"
               (fst (find_files MiniRe.re_compile "bad" DEFAULT_EXT DefaultIgnore ".gitignore"
                                Sample2.s_bad))
    = (st3, Raise e).
Proof.
  assert (H : find_files MiniRe.re_compile "bad" DEFAULT_EXT DefaultIgnore ".gitignore"
                         Sample2.s_bad
              = (fst (find_files MiniRe.re_compile "bad" DEFAULT_EXT DefaultIgnore ".gitignore"
                                 Sample2.s_bad), Raise ReError))
    by (vm_compute; reflexivity).
  split; [vm_compute; reflexivity|].
  exact (find_files_refused_pattern_stays MiniRe.re_compile "bad" DEFAULT_EXT ".gitignore"
           Sample2.s_bad _ H "good" DEFAULT_EXT ".gitignore" _ eq_refl).
Defined.

Lemma sample_blank_table : In None (read_conv_lines Sample.table_with_blank).
Proof. right. left. reflexivity. Defined.

Lemma rename_loop_blank_line_witness :
  In None (read_conv_lines Sample.table_with_blank) /\
  fst (rename_loop Sample.diff_exits_1 Sample.tempf Sample.ren_fn
                   (read_conv_lines Sample.table_with_blank) false "diff" []
                   Sample.candidates Sample.s_blank)
  = Sample.s_blank.
Proof.
  split; [exact sample_blank_table|].
  exact (proj1 (rename_loop_blank_line Sample.diff_exits_1 Sample.tempf Sample.ren_fn
                  (read_conv_lines Sample.table_with_blank) false "diff" []
                  Sample.candidates Sample.s_blank sample_blank_table)).
Defined.

(** A table whose only name occurs in no file of the sample project. *)
Lemma rename_loop_nothing_to_rename_witness :
  ~ In None [Some ("ABSENT", "NEW")] /\
  rename_loop Sample.diff_exits_1 Sample.tempf Sample.ren_fn [Some ("ABSENT", "NEW")]
              false "diff" [] Sample.candidates Sample.s0
  = (Sample.s0, Ok tt).
Proof.
  assert (Hb : ~ In None [Some ("ABSENT", "NEW")]) by (intros [H|[]]; discriminate H).
  split; [exact Hb|].
  apply (rename_loop_nothing_to_rename Sample.diff_exits_1 Sample.tempf Sample.ren_fn
           [Some ("ABSENT", "NEW")] false "diff" [] Sample.candidates Sample.s0 Hb).
  intros fn Hin _. unfold Sample.candidates in Hin. simpl in Hin.
  repeat (destruct Hin as [<-|Hin];
          [eexists; split;
           [vm_compute; reflexivity
           | intros from_ to [H|[]]; injection H as <- <-; right; vm_compute; reflexivity]|]).
  destruct Hin.
Defined.

Lemma record_of_line_declaration_witness :
  RecSpec.token "ai" = true /\ RecSpec.token "TEMP:IN" = true /\
  Rec.record_of_line ("record(" ++ "ai" ++ ", " ++ RecSpec.quoted "TEMP:IN" ++ ")" ++ " {")
  = Some ("TEMP:IN", "ai").
Proof.
  split; [reflexivity | split; [reflexivity|]].
  exact (record_of_line_declaration false "ai" "TEMP:IN" " {" eq_refl eq_refl eq_refl eq_refl).
Defined.

(** The listing of the sample database directory: two of its four
    files are database files, and the three names they declare are
    printed, the longest first. *)
Lemma create_list_output_witness :
  snd (find_files MiniRe.re_compile "ioc" (DEFAULT_EXT ++ []) DefaultIgnore ".gitignore"
                  Sample2.s_ioc)
  = Ok ["ioc/a.db"; "ioc/b.template"; "ioc/notes.txt"; "ioc/.db"] /\
  RecSpec.db_file "ioc/b.template" /\
  RecSpec.line_of (RecSpec.declaration false "calc" "LONG:NAME:X" "") Sample2.b_template /\
  stderr (fst (Listing.create_list MiniRe.re_compile "ioc" [] Sample2.s_ioc))
  = ["All database files:"; (Conv.tab ++ "ioc/a.db")%string;
     (Conv.tab ++ "ioc/b.template")%string] /\
  stdout (fst (Listing.create_list MiniRe.re_compile "ioc" [] Sample2.s_ioc))
  = ["LONG:NAME:X"; "TEMP:IN"; "T"] /\
  exists db_files recs,
    stdout (fst (Listing.create_list MiniRe.re_compile "ioc" [] Sample2.s_ioc))
    = (stdout Sample2.s_ioc ++ recs)%list /\
    db_files = ["ioc/a.db"; "ioc/b.template"] /\
    In "LONG:NAME:X" recs /\
    StronglySorted RecSpec.longer_first recs /\ NoDup recs.
Proof.
  assert (Hdb : RecSpec.db_file "ioc/b.template").
  { right. exists "ioc/", "b", "b"%char.
    split; [reflexivity | split; [right; exists "ioc"; reflexivity|]].
    split; [reflexivity | split; reflexivity]. }
  assert (Hline : RecSpec.line_of (RecSpec.declaration false "calc" "LONG:NAME:X" "")
                                  Sample2.b_template).
  { split; [reflexivity|].
    exists ("grecord(bi, " ++ RecSpec.quoted "TEMP:IN" ++ ")" ++ Sample.nl)%string, Sample.nl.
    split; [reflexivity | split].
    - right. exists ("grecord(bi, " ++ RecSpec.quoted "TEMP:IN" ++ ")")%string. reflexivity.
    - right. exists EmptyString. reflexivity. }
  split; [vm_compute; reflexivity|].
  split; [exact Hdb|]. split; [exact Hline|].
  split; [vm_compute; reflexivity|]. split; [vm_compute; reflexivity|].
  destruct (create_list_output MiniRe.re_compile "ioc" [] Sample2.s_ioc
              (fst (find_files MiniRe.re_compile "ioc" (DEFAULT_EXT ++ []) DefaultIgnore
                               ".gitignore" Sample2.s_ioc))
              ["ioc/a.db"; "ioc/b.template"; "ioc/notes.txt"; "ioc/.db"])
    as [db_files [recs [Hrun [Hfiles [_ [Hsorted [Hnodup [_ Hdecl]]]]]]]].
  - vm_compute. reflexivity.
  - intros fn Hin _. vm_compute in Hin.
    repeat (destruct Hin as [<-|Hin]; [vm_compute; reflexivity|]). destruct Hin.
  - exists db_files, recs.
    split; [rewrite Hrun; reflexivity|].
    split; [rewrite Hfiles; vm_compute; reflexivity|].
    split; [|split; assumption].
    apply (Hdecl "ioc/b.template" Sample2.b_template false "calc" "LONG:NAME:X" "").
    + right. left. reflexivity.
    + exact Hdb.
    + vm_compute. reflexivity.
    + reflexivity.
    + reflexivity.
    + reflexivity.
    + exact Hline.
Defined.

Lemma sample_changed_distinct :
  NoDup (map (FS.resolve (disk Sample.s0) (cwd Sample.s0)) Sample2.changed_candidates).
Proof.
  vm_compute.
  repeat (constructor; [intros H; repeat (destruct H as [H|H]; [discriminate H|]); exact H|]).
  constructor.
Defined.

(** The commit run on the three files of the sample project that are
    not the table. *)
Lemma rename_loop_commit_all_witness :
  NoDup (map (FS.resolve (disk Sample.s0) (cwd Sample.s0)) Sample2.changed_candidates) /\
  exists st',
    rename_loop Sample.diff_missing Sample.tempf Sample.ren_fn (read_conv_lines Sample.table)
                false "diff" [] Sample2.changed_candidates Sample.s0
    = (st', Ok tt) /\
    stdout st' = stdout Sample.s0.
Proof.
  split; [exact sample_changed_distinct|].
  destruct (rename_loop_commit_all Sample.diff_missing Sample.tempf Sample.ren_fn
              (read_conv_lines Sample.table) "diff" [] Sample2.changed_candidates Sample.s0
              sample_table_no_blank sample_changed_distinct)
    as [st' [Hloop [_ [Hout _]]]].
  - intros fn Hin. vm_compute in Hin.
    repeat (destruct Hin as [<-|Hin]; [vm_compute; discriminate|]). destruct Hin.
  - intros fn Hin. vm_compute in Hin.
    repeat (destruct Hin as [<-|Hin]; [vm_compute; reflexivity|]). destruct Hin.
  - exists st'. split; assumption.
Defined.
